(** * The binlog relay of DM: a shallow embedding of [relay.go]

    The relay subscribes to a MySQL master as a replica, receives the binlog
    event stream and writes it to local binlog files, keeping a checkpoint
    (the meta) of the position reached.  This file embeds the [Relay] type
    and its methods as functions in a state-and-error monad over an explicit
    state (the [Relay] fields, the local file system, the upstream server)
    and proves properties of the event loop, the file writer, the
    position-based restart, the resync logic and the lifecycle methods. *)

From Stdlib Require Import ZArith Lia DecimalString DecimalZ DecimalPos.
From stdpp Require Import base strings gmap list.

Abbreviation bytes := (list Byte.byte).

(** ** Integers and formatting *)

(** [uint32(x)]: conversion to an unsigned 32-bit integer wraps around. *)
Definition uint32 (z : Z) : Z := (z mod 2 ^ 32)%Z.

(** The verb [%d] of [fmt.Sprintf]. *)
Definition fmt_d (z : Z) : string := NilZero.string_of_int (Z.to_int z).

(** ** Errors

    [Cause] lists the root errors the relay meets; [error] adds the
    wrappers of [juju/errors]: [errors.Trace] and [errors.Annotatef] keep the
    cause and add context. *)

Inductive Cause :=
| Canceled                          (* context.Canceled *)
| DeadlineExceeded                  (* context.DeadlineExceeded *)
| ErrChecksumMismatch               (* replication.ErrChecksumMismatch *)
| ErrSyncClosed                     (* replication.ErrSyncClosed *)
| ErrNeedSyncAgain                  (* replication.ErrNeedSyncAgain *)
| ErrBinlogPurged                   (* recognised by utils.IsErrBinlogPurged *)
| ErrUpstream (msg : string)        (* any other error of the upstream client *)
| ErrBinlogPosGreaterThanFileSize
| ErrNew (msg : string)             (* errors.New *)
| ErrNotValid (msg : string)        (* errors.NotValidf *)
| EOF                               (* io.EOF *)
| ErrShortWrite                     (* io.ErrShortWrite *)
| ErrInvalid                        (* os.ErrInvalid: method of a nil *os.File *)
| ErrClosed                         (* os.ErrClosed *)
| ErrNotExist                       (* satisfies os.IsNotExist *)
| ErrSyscall                        (* any other failure of a system call *)
| ErrNoSuchThread                   (* satisfies utils.IsNoSuchThreadError *)
| ErrDB                             (* failure of a query on the control DB *)
| ErrMeta                           (* failure of the meta store *)
| ErrParse.                         (* failure of the binlog parser *)

Inductive error :=
| Root (c : Cause)
| Trace (e : error)
| Annotate (e : error) (msg : string).

(** [errors.Cause] *)
Fixpoint CauseOf (e : error) : Cause :=
  match e with
  | Root c => c
  | Trace e' => CauseOf e'
  | Annotate e' _ => CauseOf e'
  end.

Global Instance Cause_eq_dec : EqDecision Cause.
Proof. solve_decision. Defined.

Definition IsErrBinlogPurged (e : error) : bool :=
  bool_decide (CauseOf e = ErrBinlogPurged).

Definition IsNoSuchThreadError (e : error) : bool :=
  bool_decide (CauseOf e = ErrNoSuchThread).

(** [os.IsNotExist] looks at the error of the system call itself. *)
Definition IsNotExist (e : error) : bool :=
  match e with
  | Root ErrNotExist => true
  | _ => false
  end.

(** ** Data *)

(** [mysql.Position]; [Pos] is a [uint32]. *)
Record Position := { Name : string; Pos : Z }.

(** A GTID set, kept as the association of each UUID with the text of its
    intervals. *)
Abbreviation GTIDSet := (list (string * string)).

(** Modelled from the spec: the replace-for-uuid operation of a GTID set
    (package [gtid] is not part of the sources): the result keeps the
    intervals of [self] for every UUID that is not listed and takes those of
    [new] for the listed UUIDs. *)
Definition Replace (self new : GTIDSet) (uuids : list string) : GTIDSet :=
  filter (λ kv, kv.1 ∉ uuids) self ++ filter (λ kv, kv.1 ∈ uuids) new.

Definition MySQLFlavor : string := "mysql".
Definition MariaDBFlavor : string := "mariadb".
Definition domainServerIDSeparator : string := "-".
Definition binlogHeaderSize : nat := 4.

(** [replication.BinLogFileHeader], the magic [\xfebin]. *)
Definition BinLogFileHeader : bytes := [Byte.xfe; Byte.x62; Byte.x69; Byte.x6e].

(** The fields of [Config] the relay's logic reads. *)
Record Config := {
  EnableGTID : bool;
  AutoFixGTID : bool;
  Flavor : string;
  RelayDir : string
}.

(** The control connection [*sql.DB]. *)
Record DB := { db_closed : bool }.

(** [replication.BinlogSyncer]: its last connection id and whether it has
    been closed. *)
Record BinlogSyncer := { sy_conn : Z; sy_closed : bool }.

(** Where a stream was started from. *)
Inductive StartPoint :=
| FromPos (p : Position)
| FromGTID (gs : GTIDSet).

Record BinlogStreamer := { s_from : StartPoint }.

(** An open [*os.File]: the path it was opened on, the file offset and
    whether [Close] was called on it. *)
Record File := { f_path : string; f_off : nat; f_closed : bool }.

(** *** Binlog events *)

Record EventHeader := { Timestamp : Z; LogPos : Z; EventSize : Z }.

Inductive Event :=
| FormatDescriptionEvent
| RotateEvent (NextLogName : string) (Position_ : Z)
| QueryEvent (GSet : GTIDSet)
| XIDEvent (GSet : GTIDSet)
| GenericEvent.

Record BinlogEvent := { RawData : bytes; Header : EventHeader; Event_ : Event }.

(** What one call of [streamer.GetEvent] gives. *)
Inductive GetEventResult :=
| GotEvent (e : BinlogEvent)
| GetEventErr (err : error).

(** *** The meta store *)

(** Modelled from the spec: the record of the checkpoint ([current_uuid],
    [uuids], [position], [gtid_set]); a nil GTID set is [None]. *)
Record MetaRecord := {
  current_uuid : string;
  uuids : list string;
  position : Position;
  gtid_set : option GTIDSet
}.

(** Modelled from the spec: the meta store ([Meta] is an interface whose
    implementation is not part of the sources): the in-memory record, the
    dirty flag and the record last written to stable storage. *)
Record LocalMeta := {
  mem : MetaRecord;
  dirty : bool;
  durable : option MetaRecord
}.

(** Modelled from the spec: what [Load] starts from when there is no
    durable state: empty lists and zeroed cursors (an empty GTID set). *)
Definition empty_record : MetaRecord :=
  {| current_uuid := ""; uuids := [];
     position := {| Name := ""; Pos := 0 |}; gtid_set := Some [] |}.

(** *** The environment *)

(** What the upstream server answers on the control connection. *)
Record Upstream := {
  server_uuid : string;
  gtid_domain_id : Z;
  server_id : Z;
  master_pos : Position;
  master_gtid : GTIDSet;
  connection_id : Z
}.

(** The counters of the metrics observer. *)
Record Counters := {
  relayExitWithErrorCounter : nat;
  binlogReadErrorCounter : nat;
  relayLogWriteErrorCounter : nat;
  relayLogDataCorruptionCounter : nat
}.

(** Whether the next call into the operating system, the control DB, the
    upstream client or the meta store fails.  For a failing [Read] or [Write]
    [n] bounds the bytes transferred before the failure; for a failing
    [KillConn], [0] is the answer "no such thread". *)
Inductive Fault := NoFault | FaultAt (n : nat).

(** What the loop did, in order: an event received (or not) from
    [GetEvent], a call of [reSyncBinlog]. *)
Inductive Obs :=
| ObsGetEvent (ok : bool)
| ObsReSync.

(** The state: the fields of [Relay], then the world around it. *)
Record St := {
  cfg : Config;
  db : option DB;
  syncer : option BinlogSyncer;
  meta : LocalMeta;
  lastSlaveConnectionID : Z;
  fd : option File;
  closed : bool;
  fs : gmap string bytes;
  faults : list Fault;
  upstream : Upstream;
  counters : Counters;
  trace : list Obs
}.

Definition set_db (x : option DB) (s : St) : St :=
  {| cfg := cfg s; db := x; syncer := syncer s; meta := meta s;
     lastSlaveConnectionID := lastSlaveConnectionID s; fd := fd s;
     closed := closed s; fs := fs s; faults := faults s;
     upstream := upstream s; counters := counters s; trace := trace s |}.

Definition set_syncer (x : option BinlogSyncer) (s : St) : St :=
  {| cfg := cfg s; db := db s; syncer := x; meta := meta s;
     lastSlaveConnectionID := lastSlaveConnectionID s; fd := fd s;
     closed := closed s; fs := fs s; faults := faults s;
     upstream := upstream s; counters := counters s; trace := trace s |}.

Definition set_meta (x : LocalMeta) (s : St) : St :=
  {| cfg := cfg s; db := db s; syncer := syncer s; meta := x;
     lastSlaveConnectionID := lastSlaveConnectionID s; fd := fd s;
     closed := closed s; fs := fs s; faults := faults s;
     upstream := upstream s; counters := counters s; trace := trace s |}.

Definition set_lastSlaveConnectionID (x : Z) (s : St) : St :=
  {| cfg := cfg s; db := db s; syncer := syncer s; meta := meta s;
     lastSlaveConnectionID := x; fd := fd s;
     closed := closed s; fs := fs s; faults := faults s;
     upstream := upstream s; counters := counters s; trace := trace s |}.

Definition set_fd (x : option File) (s : St) : St :=
  {| cfg := cfg s; db := db s; syncer := syncer s; meta := meta s;
     lastSlaveConnectionID := lastSlaveConnectionID s; fd := x;
     closed := closed s; fs := fs s; faults := faults s;
     upstream := upstream s; counters := counters s; trace := trace s |}.

Definition set_closed (x : bool) (s : St) : St :=
  {| cfg := cfg s; db := db s; syncer := syncer s; meta := meta s;
     lastSlaveConnectionID := lastSlaveConnectionID s; fd := fd s;
     closed := x; fs := fs s; faults := faults s;
     upstream := upstream s; counters := counters s; trace := trace s |}.

Definition set_fs (x : gmap string bytes) (s : St) : St :=
  {| cfg := cfg s; db := db s; syncer := syncer s; meta := meta s;
     lastSlaveConnectionID := lastSlaveConnectionID s; fd := fd s;
     closed := closed s; fs := x; faults := faults s;
     upstream := upstream s; counters := counters s; trace := trace s |}.

Definition set_faults (x : list Fault) (s : St) : St :=
  {| cfg := cfg s; db := db s; syncer := syncer s; meta := meta s;
     lastSlaveConnectionID := lastSlaveConnectionID s; fd := fd s;
     closed := closed s; fs := fs s; faults := x;
     upstream := upstream s; counters := counters s; trace := trace s |}.

Definition set_counters (x : Counters) (s : St) : St :=
  {| cfg := cfg s; db := db s; syncer := syncer s; meta := meta s;
     lastSlaveConnectionID := lastSlaveConnectionID s; fd := fd s;
     closed := closed s; fs := fs s; faults := faults s;
     upstream := upstream s; counters := x; trace := trace s |}.

Definition set_trace (x : list Obs) (s : St) : St :=
  {| cfg := cfg s; db := db s; syncer := syncer s; meta := meta s;
     lastSlaveConnectionID := lastSlaveConnectionID s; fd := fd s;
     closed := closed s; fs := fs s; faults := faults s;
     upstream := upstream s; counters := counters s; trace := x |}.

(** ** The monad: state, errors and panics

    A method of [Relay] is a function of the state that gives the new state
    and a value, an error, or a panic (a nil dereference).  The state after
    an error is kept: what a method did before it failed stays done. *)

Inductive result (A : Type) :=
| Ok (a : A)
| Fail (e : error)
| Panic.
Arguments Ok {A} a.
Arguments Fail {A} e.
Arguments Panic {A}.

Definition M (A : Type) : Type := St → St * result A.

Definition ret {A} (a : A) : M A := λ st, (st, Ok a).
Definition fail {A} (e : error) : M A := λ st, (st, Fail e).
Definition panic {A} : M A := λ st, (st, Panic).

Definition bind {A B} (m : M A) (k : A → M B) : M B := λ st,
  match m st with
  | (st', Ok a) => k a st'
  | (st', Fail e) => (st', Fail e)
  | (st', Panic) => (st', Panic)
  end.

(** [if err != nil { return h(err) }] *)
Definition onerr {A} (h : error → error) (m : M A) : M A := λ st,
  match m st with
  | (st', Fail e) => (st', Fail (h e))
  | r => r
  end.

(** [v, err := m()]: the error is a value the caller inspects. *)
Definition try {A} (m : M A) : M (A + error) := λ st,
  match m st with
  | (st', Ok a) => (st', Ok (inl a))
  | (st', Fail e) => (st', Ok (inr e))
  | (st', Panic) => (st', Panic)
  end.

Definition gets {A} (f : St → A) : M A := λ st, (st, Ok (f st)).
Definition modify (f : St → St) : M unit := λ st, (f st, Ok tt).

Notation "'do' x <- m ; k" := (bind m (λ x, k))
  (at level 10, x name, m at level 100, k at level 200).
Notation "'do' ' p <- m ; k" := (bind m (λ x, match x with p => k end))
  (at level 10, p pattern, m at level 100, k at level 200).
Notation "m ;; k" := (bind m (λ _, k))
  (at level 100, k at level 200, right associativity).

(** The next answer of the environment. *)
Definition pop_fault : M Fault := λ st,
  match faults st with
  | [] => (st, Ok NoFault)
  | f :: rest => (set_faults rest st, Ok f)
  end.

Definition observe (o : Obs) : M unit :=
  modify (λ st, set_trace (trace st ++ [o]) st).

Definition inc_relayExitWithError : M unit :=
  modify (λ st, let c := counters st in set_counters
    {| relayExitWithErrorCounter := S (relayExitWithErrorCounter c);
       binlogReadErrorCounter := binlogReadErrorCounter c;
       relayLogWriteErrorCounter := relayLogWriteErrorCounter c;
       relayLogDataCorruptionCounter := relayLogDataCorruptionCounter c |} st).

Definition inc_binlogReadError : M unit :=
  modify (λ st, let c := counters st in set_counters
    {| relayExitWithErrorCounter := relayExitWithErrorCounter c;
       binlogReadErrorCounter := S (binlogReadErrorCounter c);
       relayLogWriteErrorCounter := relayLogWriteErrorCounter c;
       relayLogDataCorruptionCounter := relayLogDataCorruptionCounter c |} st).

Definition inc_relayLogWriteError : M unit :=
  modify (λ st, let c := counters st in set_counters
    {| relayExitWithErrorCounter := relayExitWithErrorCounter c;
       binlogReadErrorCounter := binlogReadErrorCounter c;
       relayLogWriteErrorCounter := S (relayLogWriteErrorCounter c);
       relayLogDataCorruptionCounter := relayLogDataCorruptionCounter c |} st).

Definition inc_relayLogDataCorruption : M unit :=
  modify (λ st, let c := counters st in set_counters
    {| relayExitWithErrorCounter := relayExitWithErrorCounter c;
       binlogReadErrorCounter := binlogReadErrorCounter c;
       relayLogWriteErrorCounter := relayLogWriteErrorCounter c;
       relayLogDataCorruptionCounter := S (relayLogDataCorruptionCounter c) |} st).

(** ** The operating system: files

    The local file system maps a path to the bytes of the file.  The relay
    holds one open file, [r.fd]; the methods of [*os.File] below are those
    of [r.fd]. *)

Definition zeros (n : nat) : bytes := replicate n Byte.x00.

(** The bytes of the file at [path] (none when there is no such file). *)
Definition content (st : St) (path : string) : bytes :=
  default [] (fs st !! path).

(** Writing [data] at offset [off] of a file of bytes [c]. *)
Definition write_at (c : bytes) (off : nat) (data : bytes) : bytes :=
  take off c ++ zeros (off - length c) ++ data ++ drop (off + length data) c.

(** [path.Join] of a directory and a file name, both already clean. *)
Definition path_Join (dir name : string) : string :=
  if bool_decide (dir = "") then name
  else if bool_decide (name = "") then dir
  else dir +:+ "/" +:+ name.
Arguments path_Join : simpl never.

(** [os.OpenFile(path, os.O_CREATE|os.O_RDWR, 0644)] *)
Definition os_OpenFile (path : string) : M File :=
  do flt <- pop_fault;
  match flt with
  | FaultAt _ => fail (Root ErrSyscall)
  | NoFault =>
    do files <- gets fs;
    match files !! path with
    | Some _ => ret tt
    | None => modify (set_fs (<[path := []]> files))
    end ;;
    ret {| f_path := path; f_off := 0; f_closed := false |}
  end.

(** [os.Stat(path)], of which the relay reads [Size()]. *)
Definition os_Stat (path : string) : M Z :=
  do flt <- pop_fault;
  match flt with
  | FaultAt _ => fail (Root ErrSyscall)
  | NoFault =>
    do files <- gets fs;
    match files !! path with
    | Some c => ret (Z.of_nat (length c))
    | None => fail (Root ErrNotExist)
    end
  end.

(** [r.fd.Close()]: the handle stays in [r.fd], closed. *)
Definition fd_Close : M unit :=
  modify (λ st, match fd st with
                | Some f => set_fd (Some {| f_path := f_path f; f_off := f_off f;
                                            f_closed := true |}) st
                | None => st
                end).

Definition set_off (f : File) (off : nat) : File :=
  {| f_path := f_path f; f_off := off; f_closed := f_closed f |}.

(** [r.fd.Read(b)] with [len(b) = n]: the buffer after the call and the
    error.  At the end of the file nothing is read and the error is
    [io.EOF]; a short file gives fewer bytes and no error. *)
Definition fd_Read (n : nat) : M (bytes * option error) :=
  do ofd <- gets fd;
  match ofd with
  | None => ret (zeros n, Some (Root ErrInvalid))
  | Some f =>
    if f_closed f then ret (zeros n, Some (Root ErrClosed)) else
    do flt <- pop_fault;
    do c <- gets (λ st, content st (f_path f));
    let avail := drop (f_off f) c in
    let got := match flt with
               | NoFault => take n avail
               | FaultAt k => take (k `min` n) avail
               end in
    modify (set_fd (Some (set_off f (f_off f + length got)))) ;;
    ret (got ++ zeros (n - length got),
         match flt with
         | FaultAt _ => Some (Root ErrSyscall)
         | NoFault =>
           if bool_decide (n ≠ 0 ∧ got = []) then Some (Root EOF) else None
         end)
  end.

Inductive Whence := SeekStart | SeekEnd.

(** [r.fd.Seek(0, whence)] *)
Definition fd_Seek (whence : Whence) : M nat :=
  do ofd <- gets fd;
  match ofd with
  | None => fail (Root ErrInvalid)
  | Some f =>
    if f_closed f then fail (Root ErrClosed) else
    do flt <- pop_fault;
    match flt with
    | FaultAt _ => fail (Root ErrSyscall)
    | NoFault =>
      do c <- gets (λ st, content st (f_path f));
      let off := match whence with SeekStart => 0 | SeekEnd => length c end in
      modify (set_fd (Some (set_off f off))) ;;
      ret off
    end
  end.

(** [r.fd.Write(data)]: the number of bytes written and the error; the
    error is non-nil whenever fewer than [len(data)] bytes were written. *)
Definition fd_Write (data : bytes) : M (nat * option error) :=
  do ofd <- gets fd;
  match ofd with
  | None => ret (0, Some (Root ErrInvalid))
  | Some f =>
    if f_closed f then ret (0, Some (Root ErrClosed)) else
    do flt <- pop_fault;
    do c <- gets (λ st, content st (f_path f));
    let put := match flt with
               | NoFault => data
               | FaultAt k => take k data
               end in
    modify (λ st, set_fs (<[f_path f := write_at c (f_off f) put]> (fs st)) st) ;;
    modify (set_fd (Some (set_off f (f_off f + length put)))) ;;
    ret (length put,
         match flt with
         | FaultAt _ => Some (Root ErrSyscall)
         | NoFault => None
         end)
  end.

(** ** The meta store *)

(** Modelled from the spec: [Load] reads the durable state and, when there
    is none, starts from empty lists and zeroed cursors; it can fail (a
    corrupt or partially written record). *)
Definition meta_Load : M unit :=
  do flt <- pop_fault;
  match flt with
  | FaultAt _ => fail (Root ErrMeta)
  | NoFault =>
    modify (λ st, set_meta {| mem := default empty_record (durable (meta st));
                              dirty := dirty (meta st);
                              durable := durable (meta st) |} st)
  end.

(** Modelled from the spec: [AddDir] appends [uuid] to [uuids], makes it
    the current one, sets the position to the one given or to the empty
    name and offset 0, sets the GTID set to the one given or leaves it, and
    persists the record; it can fail. *)
Definition meta_AddDir (uuid : string) (pos : option Position)
    (gs : option GTIDSet) : M unit :=
  do flt <- pop_fault;
  match flt with
  | FaultAt _ => fail (Root ErrMeta)
  | NoFault =>
    modify (λ st,
      let m := mem (meta st) in
      let m' := {| current_uuid := uuid;
                   uuids := uuids m ++ [uuid];
                   position := default {| Name := ""; Pos := 0 |} pos;
                   gtid_set := match gs with Some g => Some g | None => gtid_set m end |} in
      set_meta {| mem := m'; dirty := false; durable := Some m' |} st)
  end.

(** Modelled from the spec: [Save] updates the cursors in memory and marks
    the meta dirty; a nil GTID set leaves the GTID field as it is.  The
    method returns an error in the source; the environment decides. *)
Definition meta_Save (pos : Position) (gs : option GTIDSet) : M unit :=
  do flt <- pop_fault;
  match flt with
  | FaultAt _ => fail (Root ErrMeta)
  | NoFault =>
    modify (λ st,
      let m := mem (meta st) in
      set_meta {| mem := {| current_uuid := current_uuid m;
                            uuids := uuids m;
                            position := pos;
                            gtid_set := match gs with Some g => Some g | None => gtid_set m end |};
                  dirty := true;
                  durable := durable (meta st) |} st)
  end.

(** Modelled from the spec: [Flush] writes the whole record to stable
    storage and clears the dirty flag; a failure leaves both as they were. *)
Definition meta_Flush : M unit :=
  do flt <- pop_fault;
  match flt with
  | FaultAt _ => fail (Root ErrMeta)
  | NoFault =>
    modify (λ st, set_meta {| mem := mem (meta st); dirty := false;
                              durable := Some (mem (meta st)) |} st)
  end.

Definition meta_UUID : M string := gets (λ st, current_uuid (mem (meta st))).
Definition meta_Pos : M (string * Position) :=
  gets (λ st, (current_uuid (mem (meta st)), position (mem (meta st)))).
Definition meta_GTID : M (string * option GTIDSet) :=
  gets (λ st, (current_uuid (mem (meta st)), gtid_set (mem (meta st)))).
Definition meta_Dir : M string :=
  gets (λ st, path_Join (RelayDir (cfg st)) (current_uuid (mem (meta st)))).

(** ** The control DB and the upstream client *)

(** A query on [r.db]: a nil handle panics, a closed one or a failing query
    gives an error, otherwise the upstream server answers. *)
Definition db_query {A} (answer : Upstream → A) : M A :=
  do odb <- gets db;
  match odb with
  | None => panic
  | Some d =>
    if db_closed d then fail (Root ErrDB) else
    do flt <- pop_fault;
    match flt with
    | FaultAt _ => fail (Root ErrDB)
    | NoFault => gets (λ st, answer (upstream st))
    end
  end.

Definition utils_GetServerUUID : M string := db_query server_uuid.
Definition utils_GetMariaDBGtidDomainID : M Z := db_query gtid_domain_id.
Definition utils_GetServerID : M Z := db_query server_id.
Definition utils_GetMasterStatus : M (Position * GTIDSet) :=
  db_query (λ u, (master_pos u, master_gtid u)).

(** [utils.KillConn(r.db, id)] *)
Definition utils_KillConn (id : Z) : M unit :=
  do odb <- gets db;
  match odb with
  | None => panic
  | Some d =>
    if db_closed d then fail (Root ErrDB) else
    do flt <- pop_fault;
    match flt with
    | FaultAt 0 => fail (Root ErrNoSuchThread)
    | FaultAt _ => fail (Root ErrDB)
    | NoFault => ret tt
    end
  end.

(** [r.db.Close()] *)
Definition db_Close : M unit :=
  modify (λ st, match db st with
                | Some _ => set_db (Some {| db_closed := true |}) st
                | None => st
                end).

(** [replication.NewBinlogSyncer(cfg)] *)
Definition NewBinlogSyncer : BinlogSyncer := {| sy_conn := 0; sy_closed := false |}.

(** [r.syncer.StartSync(pos)] and [r.syncer.StartSyncGTID(gs)]: on success
    the upstream assigns the connection its id. *)
Definition syncer_start (from : StartPoint) : M BinlogStreamer :=
  do osy <- gets syncer;
  match osy with
  | None => panic
  | Some sy =>
    do flt <- pop_fault;
    match flt with
    | FaultAt _ => fail (Root (ErrUpstream "start sync"))
    | NoFault =>
      do id <- gets (λ st, connection_id (upstream st));
      modify (set_syncer (Some {| sy_conn := id; sy_closed := sy_closed sy |})) ;;
      ret {| s_from := from |}
    end
  end.

(** [defer d]: [d] runs when [m] is left, whatever [m] gave. *)
Definition defer {A} (d : M unit) (m : M A) : M A := λ st,
  let '(st1, r) := m st in
  match d st1 with
  | (st2, Ok _) => (st2, r)
  | (st2, _) => (st2, Panic)
  end.

Global Instance byte_eq_dec : EqDecision Byte.byte := Byte.byte_eq_dec.
Global Instance error_eq_dec : EqDecision error.
Proof. solve_decision. Defined.

(** ** The methods of [Relay] *)

(** What is left to the libraries: the binlog parser of [go-mysql] (what
    [ParseSingleEvent] answers on the bytes that follow the file offset:
    whether it met the end of the file, and the error), the order of
    positions [Position.Compare], and the rendering [errors.ErrorStack]. *)
Class Env := {
  parse_event : bytes → bool * option error;
  Compare : Position → Position → Z;
  ErrorStack : error → string
}.

Definition getServerUUID : M string :=
  do flavor <- gets (λ st, Flavor (cfg st));
  if bool_decide (flavor = MariaDBFlavor) then
    do domainID <- onerr Trace utils_GetMariaDBGtidDomainID;
    do serverID <- onerr Trace utils_GetServerID;
    ret (fmt_d domainID +:+ domainServerIDSeparator +:+ fmt_d serverID)
  else utils_GetServerUUID.

Definition reSetupMeta : M unit :=
  do uuid <- onerr Trace getServerUUID;
  onerr Trace (meta_AddDir uuid None None) ;;
  onerr Trace meta_Load.

Definition SwitchMaster : M unit :=
  do gtid <- gets (λ st, EnableGTID (cfg st));
  if negb gtid then
    fail (Root (ErrNew "can only switch relay's master server when GTID enabled"))
  else onerr Trace reSetupMeta.

Definition writeBinlogHeaderIfNotExists : M unit :=
  do '(b, err) <- fd_Read binlogHeaderSize;
  if bool_decide (err = Some (Root EOF)) || negb (bool_decide (b = BinLogFileHeader)) then
    onerr Trace (fd_Seek SeekStart) ;;
    do '(_, werr) <- fd_Write BinLogFileHeader;
    match werr with
    | Some e => fail (Trace e)
    | None => ret tt
    end
  else
    match err with
    | Some e => inc_relayLogDataCorruption ;; fail (Trace e)
    | None => ret tt
    end.

(** [replication.NewBinlogParser().ParseSingleEvent(r.fd, ...)]: the parser
    reads [r.fd] from its offset.  The offset it leaves is not kept: the
    one use of [r.fd] that follows is the seek to the end of the file. *)
Definition ParseSingleEvent `{Env} : M (bool * option error) :=
  do ofd <- gets fd;
  match ofd with
  | None => ret (false, Some (Root ErrInvalid))
  | Some f =>
    if f_closed f then ret (false, Some (Root ErrClosed)) else
    do flt <- pop_fault;
    match flt with
    | FaultAt _ => ret (false, Some (Root ErrSyscall))
    | NoFault =>
      do c <- gets (λ st, content st (f_path f));
      ret (parse_event (drop (f_off f) c))
    end
  end.

Definition checkFormatDescriptionEventExists `{Env} (filename : string) : M bool :=
  do '(eof, err2) <- ParseSingleEvent;
  match err2 with
  | Some e => fail (Trace e)
  | None => if negb eof then ret true else ret false
  end.

Definition handleFormatDescriptionEvent `{Env} (filename : string) : M bool :=
  do ofd <- gets fd;
  match ofd with
  | Some _ => fd_Close ;; modify (set_fd None)
  | None => ret tt
  end ;;
  if bool_decide (String.length filename = 0) then
    inc_binlogReadError ;;
    fail (Root (ErrNotValid "write FormatDescriptionEvent with empty binlog filename"))
  else
    do dir <- meta_Dir;
    let fullPath := path_Join dir filename in
    let note := λ e, Annotate e ("file full path " +:+ fullPath) in
    do f <- onerr note (os_OpenFile fullPath);
    modify (set_fd (Some f)) ;;
    onerr note writeBinlogHeaderIfNotExists ;;
    do exist <- onerr note (
      do r <- try (checkFormatDescriptionEventExists filename);
      match r with
      | inr e => inc_relayLogDataCorruption ;; fail e
      | inl b => ret b
      end);
    onerr note (fd_Seek SeekEnd) ;;
    ret exist.

Definition startSyncByPos : M BinlogStreamer :=
  do '(_, pos) <- meta_Pos;
  if bool_decide (Name pos = "") then syncer_start (FromPos pos) else
  do dir <- meta_Dir;
  do r <- try (os_Stat (path_Join dir (Name pos)));
  do pos' <-
    match r with
    | inr err =>
      if IsNotExist err then ret {| Name := Name pos; Pos := 4 |}
      else fail (Trace err)
    | inl size =>
      if (size >? Pos pos)%Z then
        let pos' := {| Name := Name pos; Pos := uint32 size |} in
        onerr Trace (meta_Save pos' None) ;;
        ret pos'
      else if (size <? Pos pos)%Z then
        fail (Annotate (Root ErrBinlogPosGreaterThanFileSize)
                (Name pos +:+ " size=" +:+ fmt_d size +:+
                 ", specific pos=" +:+ fmt_d (Pos pos)))
      else ret pos
    end;
  onerr Trace (syncer_start (FromPos pos')).

Definition startSyncByGTID : M BinlogStreamer :=
  do '(_, gs) <- meta_GTID;
  match gs with
  | None => panic
  | Some g =>
    do r <- try (syncer_start (FromGTID g));
    match r with
    | inr _ => startSyncByPos
    | inl s => ret s
    end
  end.

Definition getBinlogStreamer : M BinlogStreamer :=
  defer (do osy <- gets syncer;
         match osy with
         | None => panic
         | Some sy => modify (set_lastSlaveConnectionID (sy_conn sy))
         end)
    (do gtid <- gets (λ st, EnableGTID (cfg st));
     if gtid then startSyncByGTID else startSyncByPos).

Definition retrySyncGTIDs : M unit :=
  do flavor <- gets (λ st, Flavor (cfg st));
  if bool_decide (flavor ≠ MySQLFlavor) then ret tt else
  do '(_, old) <- meta_GTID;
  match old with
  | None => panic
  | Some oldGTIDSet =>
    do '(_, newGTIDSet) <- onerr (λ e, Annotate e "get master status") utils_GetMasterStatus;
    do masterUUID <- onerr (λ e, Annotate e "get master UUID") getServerUUID;
    onerr (λ e, Annotate e ("add sub relay directory for master server " +:+ masterUUID))
      (meta_AddDir masterUUID None (Some (Replace oldGTIDSet newGTIDSet [masterUUID])))
  end.

(** [r.closeBinlogSyncer(r.syncer)] *)
Definition closeBinlogSyncer : M unit :=
  do osy <- gets syncer;
  match osy with
  | None => ret tt
  | Some sy =>
    defer (modify (set_syncer (Some {| sy_conn := sy_conn sy; sy_closed := true |})))
      (let lastSlaveConnectionID := sy_conn sy in
       if (lastSlaveConnectionID >? 0)%Z then
         do r <- try (utils_KillConn lastSlaveConnectionID);
         match r with
         | inr err =>
           if negb (IsNoSuchThreadError err) then
             fail (Annotate err ("connection ID " +:+ fmt_d lastSlaveConnectionID))
           else ret tt
         | inl _ => ret tt
         end
       else ret tt)
  end.

Definition reopenStreamer : M BinlogStreamer :=
  do osy <- gets syncer;
  match osy with
  | Some _ =>
    do r <- try closeBinlogSyncer;
    modify (set_syncer None) ;;
    match r with
    | inr err => fail (Trace err)
    | inl _ => ret tt
    end
  | None => ret tt
  end ;;
  modify (set_syncer (Some NewBinlogSyncer)) ;;
  getBinlogStreamer.

Definition reSyncBinlog : M BinlogStreamer :=
  observe ObsReSync ;;
  onerr Trace retrySyncGTIDs ;;
  reopenStreamer.

Definition IsClosed : M bool := gets closed.

(** [Close]; the lock it takes is not modelled (one caller at a time). *)
Definition Close : M unit :=
  do c <- gets closed;
  if c then ret tt else
  do osy <- gets syncer;
  match osy with
  | Some _ => try closeBinlogSyncer ;; modify (set_syncer None)
  | None => ret tt
  end ;;
  do ofd <- gets fd;
  match ofd with
  | Some _ => fd_Close
  | None => ret tt
  end ;;
  do odb <- gets db;
  match odb with
  | Some _ => db_Close
  | None => ret tt
  end ;;
  try meta_Flush ;;
  modify (set_closed true).

(** ** The event loop *)

(** The variables of [process] that live across iterations.  The labels of
    the gauges ([masterNode], [masterUUID]) are left out with the gauges
    and histograms, which no decision of the loop reads. *)
Record Locals := {
  streamer : BinlogStreamer;
  lastPos : Position;
  lastGTID : option GTIDSet;
  tryReSync : bool
}.

Definition set_lastPos (p : Position) (l : Locals) : Locals :=
  {| streamer := streamer l; lastPos := p; lastGTID := lastGTID l;
     tryReSync := tryReSync l |}.

Definition set_lastGTID (g : option GTIDSet) (l : Locals) : Locals :=
  {| streamer := streamer l; lastPos := lastPos l; lastGTID := g;
     tryReSync := tryReSync l |}.

Definition set_tryReSync (b : bool) (l : Locals) : Locals :=
  {| streamer := streamer l; lastPos := lastPos l; lastGTID := lastGTID l;
     tryReSync := b |}.

Definition set_streamer (s : BinlogStreamer) (l : Locals) : Locals :=
  {| streamer := s; lastPos := lastPos l; lastGTID := lastGTID l;
     tryReSync := tryReSync l |}.

(** [lastPos.Pos = e.Header.LogPos] *)
Definition set_Pos (p : Z) (l : Locals) : Locals :=
  set_lastPos {| Name := Name (lastPos l); Pos := p |} l.

(** How an iteration ends without an error: [continue] (or the end of the
    body), or [return nil]. *)
Inductive Flow :=
| Continue (l : Locals)
| ReturnNil.

(** The [switch] on the type of the event: [inl] is its [continue], [inr]
    falls through to the write. *)
Definition classify `{Env} (l : Locals) (e : BinlogEvent) : M (Locals + Locals) :=
  match Event_ e with
  | FormatDescriptionEvent =>
    do exist <- onerr Trace (handleFormatDescriptionEvent (Name (lastPos l)));
    if exist then ret (inl l) else ret (inr l)
  | RotateEvent NextLogName Position_ =>
    let currentPos := {| Name := NextLogName; Pos := uint32 Position_ |} in
    let l' := if bool_decide (Compare currentPos (lastPos l) = 1%Z)
              then set_lastPos currentPos l else l in
    if bool_decide (Timestamp (Header e) = 0%Z) || bool_decide (LogPos (Header e) = 0%Z)
    then ret (inl l') else ret (inr l')
  | QueryEvent GSet =>
    match lastGTID l with
    | None => panic
    | Some _ => ret (inr (set_lastGTID (Some GSet) (set_Pos (LogPos (Header e)) l)))
    end
  | XIDEvent GSet =>
    match lastGTID l with
    | None => panic
    | Some _ => ret (inr (set_lastGTID (Some GSet) (set_Pos (LogPos (Header e)) l)))
    end
  | GenericEvent => ret (inr l)
  end.

(** The end of the body: the write of the raw bytes and the save of the
    meta. *)
Definition write_and_save (l : Locals) (e : BinlogEvent) : M Flow :=
  do c <- gets cfg;
  let l := if negb (EnableGTID c) then set_Pos (LogPos (Header e)) l else l in
  do '(n, err2) <- fd_Write (RawData e);
  match err2 with
  | Some e2 => inc_relayLogWriteError ;; fail (Trace e2)
  | None =>
    if bool_decide (n ≠ length (RawData e)) then
      inc_relayLogWriteError ;; fail (Trace (Root ErrShortWrite))
    else
      onerr Trace (meta_Save (lastPos l) (lastGTID l)) ;;
      ret (Continue l)
  end.

(** One iteration of the [for] of [process], on what [GetEvent] gave. *)
Definition iteration `{Env} (l : Locals) (g : GetEventResult) : M Flow :=
  match g with
  | GetEventErr err =>
    observe (ObsGetEvent false) ;;
    match CauseOf err with
    | Canceled => ret ReturnNil
    | DeadlineExceeded => ret (Continue l)
    | ErrChecksumMismatch => inc_relayLogDataCorruption ;; fail (Trace err)
    | ErrSyncClosed | ErrNeedSyncAgain => fail (Trace err)
    | _ =>
      do c <- gets cfg;
      if IsErrBinlogPurged err && (tryReSync l && EnableGTID c && AutoFixGTID c) then
        do s <- onerr (λ e, Annotate e "try auto switch with GTID") reSyncBinlog;
        ret (Continue (set_tryReSync false (set_streamer s l)))
      else
        inc_binlogReadError ;; fail (Trace err)
    end
  | GotEvent e =>
    observe (ObsGetEvent true) ;;
    let l := set_tryReSync true l in
    do r <- classify l e;
    match r with
    | inl l' => ret (Continue l')
    | inr l' => write_and_save l' e
    end
  end.

(** How far the loop got on the answers of [GetEvent] it was given: it
    returned nil, or it waits for the next event. *)
Inductive LoopEnd :=
| Waiting (l : Locals)
| Returned.

Fixpoint loop `{Env} (l : Locals) (script : list GetEventResult) : M LoopEnd :=
  match script with
  | [] => ret (Waiting l)
  | g :: rest =>
    do f <- iteration l g;
    match f with
    | Continue l' => loop l' rest
    | ReturnNil => ret Returned
    end
  end.

(** The deferred [if r.fd != nil { r.fd.Close() }] of [process] runs when
    the loop is left. *)
Definition on_return (d : M unit) (m : M LoopEnd) : M LoopEnd := λ st,
  match m st with
  | (st1, Ok (Waiting l)) => (st1, Ok (Waiting l))
  | (st1, r) =>
    match d st1 with
    | (st2, Ok _) => (st2, r)
    | (st2, _) => (st2, Panic)
    end
  end.

(** [process]; the interval flush of the meta ([flushMetaAtIntervals]) runs
    beside the loop and is not part of it. *)
Definition process `{Env} (script : list GetEventResult) : M LoopEnd :=
  do uuid <- meta_UUID;
  (if bool_decide (String.length uuid = 0) then onerr Trace reSetupMeta else ret tt) ;;
  do s <- onerr Trace getBinlogStreamer;
  do '(_, lastPos) <- meta_Pos;
  do '(_, lastGTID) <- meta_GTID;
  on_return (do ofd <- gets fd;
             match ofd with
             | Some _ => fd_Close
             | None => ret tt
             end)
    (loop {| streamer := s; lastPos := lastPos; lastGTID := lastGTID;
             tryReSync := true |} script).

Inductive ErrorType := UnknownError.

Record ProcessError := { pe_Type : ErrorType; pe_Msg : string }.

Record ProcessResult := { IsCanceled : bool; Errors : list ProcessError }.

(** [unit.NewProcessError] *)
Definition NewProcessError (t : ErrorType) (msg : string) : ProcessError :=
  {| pe_Type := t; pe_Msg := msg |}.

(** [Process]: what is sent on the result channel ([None] while the loop
    still waits for an event, or after a panic).  [ctx_done] tells whether
    the parent context is done when [process] returns. *)
Definition Process `{Env} (ctx_done : bool) (script : list GetEventResult)
    : St → St * option ProcessResult := λ st,
  match process script st with
  | (st1, Ok (Waiting _)) => (st1, None)
  | (st1, Panic) => (st1, None)
  | (st1, r) =>
    let err := match r with Fail e => Some e | _ => None end in
    let '(st2, errs) :=
      match err with
      | Some e =>
        if bool_decide (CauseOf e ≠ ErrSyncClosed) then
          (fst (inc_relayExitWithError st1),
           [NewProcessError UnknownError (ErrorStack e)])
        else (st1, [])
      | None => (st1, [])
      end in
    let isCanceled := if bool_decide (length errs = 0) then ctx_done else false in
    (st2, Some {| IsCanceled := isCanceled; Errors := errs |})
  end.

(** ** The rest of the lifecycle *)

(** [sql.Open("mysql", dbDSN)]: the DSN is built from [cfg.From]; what the
    driver makes of it is the environment's answer. *)
Definition sql_Open : M DB :=
  do flt <- pop_fault;
  match flt with
  | FaultAt _ => fail (Root ErrDB)
  | NoFault => ret {| db_closed := false |}
  end.

(** [os.MkdirAll(dir, 0755)]; the file system of the model keeps files,
    not directories. *)
Definition os_MkdirAll (dir : string) : M unit :=
  do flt <- pop_fault;
  match flt with
  | FaultAt _ => fail (Root ErrSyscall)
  | NoFault => ret tt
  end.

(** Modelled from the spec: [reportRelayLogSpaceInBackground] starts the
    background disk-usage reporter, a side effect outside the relay; it
    can fail. *)
Definition reportRelayLogSpaceInBackground (dir : string) : M unit :=
  do flt <- pop_fault;
  match flt with
  | FaultAt _ => fail (Root ErrSyscall)
  | NoFault => ret tt
  end.

Definition Init : M unit :=
  do d <- onerr Trace sql_Open;
  modify (set_db (Some d)) ;;
  do dir <- gets (λ st, RelayDir (cfg st));
  onerr Trace (os_MkdirAll dir) ;;
  onerr Trace meta_Load ;;
  onerr Trace (reportRelayLogSpaceInBackground dir).

(** What wakes [flushMetaAtIntervals] from its [select]: the ticker or the
    end of the context. *)
Inductive Wakeup :=
| Tick
| CtxDone.

(** [flushMetaAtIntervals], on the wake-ups it gets: [true] when it has
    returned, [false] while it waits.  A failed flush is logged and the loop
    goes on. *)
Fixpoint flushMetaAtIntervals (wakeups : list Wakeup) : M bool :=
  match wakeups with
  | [] => ret false
  | Tick :: rest =>
    do d <- gets (λ st, dirty (meta st));
    (if d then try meta_Flush ;; ret tt else ret tt) ;;
    flushMetaAtIntervals rest
  | CtxDone :: _ => ret true
  end.

(** [pb.RelayStatus] *)
Record RelayStatus := {
  MasterBinlog : string;
  RelaySubDir : string;
  RelayBinlog : string;
  MasterBinlogGtid : string;
  RelayBinlogGtid : string;
  RelayCatchUpMaster : bool
}.

(** The renderings [Status] asks of the libraries: [Position.String] and
    the [String] of a GTID set. *)
Class Render := {
  Position_String : Position → string;
  Set_String : GTIDSet → string
}.

(** What [utils.GetMasterStatus] returns beside an error: a position and
    a GTID set, which can be nil.  The function is not part of the sources;
    its caller [Status] reads both values whatever the error. *)
Class MasterStatus := {
  status_on_error : error → Position * option GTIDSet
}.

(** [Status].  An error of [utils.GetMasterStatus] is logged and [Status]
    goes on with the position and the GTID set the call returned beside
    it. *)
Definition Status `{Env} `{Render} `{MasterStatus} : M RelayStatus :=
  do c <- gets cfg;
  do r <- try utils_GetMasterStatus;
  let '(masterPos, masterGTID) :=
    match r with
    | inl (p, g) => (p, Some g)
    | inr err => status_on_error err
    end in
  do '(uuid, relayPos) <- meta_Pos;
  do '(_, relayGTIDSet) <- meta_GTID;
  let masterBinlogGtid := match masterGTID with Some g => Set_String g | None => "" end in
  let relayBinlogGtid := match relayGTIDSet with Some g => Set_String g | None => "" end in
  ret {| MasterBinlog := Position_String masterPos;
         RelaySubDir := uuid;
         RelayBinlog := Position_String relayPos;
         MasterBinlogGtid := masterBinlogGtid;
         RelayBinlogGtid := relayBinlogGtid;
         RelayCatchUpMaster :=
           if EnableGTID c
           then bool_decide (masterBinlogGtid = relayBinlogGtid)
           else bool_decide (Compare masterPos relayPos = 0%Z) |}.

(** ** A concrete environment and concrete states, for the examples *)

(** [Position.Compare] of [go-mysql]: by name, then by offset. *)
Definition position_compare (p o : Position) : Z :=
  match String.compare (Name p) (Name o) with
  | Gt => 1
  | Lt => -1
  | Eq => match (Pos p ?= Pos o)%Z with
          | Gt => 1
          | Lt => -1
          | Eq => 0
          end
  end%Z.

Fixpoint render (e : error) : string :=
  match e with
  | Root _ => "error"
  | Trace e' => render e'
  | Annotate e' msg => msg +:+ ": " +:+ render e'
  end.

(** A parser that asks for the 19 bytes of an event header. *)
Definition header_parser (b : bytes) : bool * option error :=
  match b with
  | [] => (true, None)
  | _ => if bool_decide (length b < 19) then (false, Some (Root ErrParse))
         else (false, None)
  end.

Definition sample_env : Env :=
  {| parse_event := header_parser; Compare := position_compare; ErrorStack := render |}.

Definition sample_upstream : Upstream :=
  {| server_uuid := "3e11fa47-71ca-11e1-9e33-c80aa9429562";
     gtid_domain_id := 0; server_id := 101;
     master_pos := {| Name := "mysql-bin.000002"; Pos := 200 |};
     master_gtid := [("3e11fa47-71ca-11e1-9e33-c80aa9429562", "1-5")];
     connection_id := 7 |}.

Definition no_counts : Counters :=
  {| relayExitWithErrorCounter := 0; binlogReadErrorCounter := 0;
     relayLogWriteErrorCounter := 0; relayLogDataCorruptionCounter := 0 |}.

(** A relay after [NewRelay] and [Init] on an empty relay directory. *)
Definition fresh (gtid autofix : bool) (flavor : string) : St :=
  {| cfg := {| EnableGTID := gtid; AutoFixGTID := autofix; Flavor := flavor;
               RelayDir := "relay" |};
     db := Some {| db_closed := false |};
     syncer := Some NewBinlogSyncer;
     meta := {| mem := empty_record; dirty := false; durable := None |};
     lastSlaveConnectionID := 0;
     fd := None;
     closed := false;
     fs := ∅;
     faults := [];
     upstream := sample_upstream;
     counters := no_counts;
     trace := [] |}.

Definition mk_event (raw : bytes) (ts pos : Z) (ev : Event) : BinlogEvent :=
  {| RawData := raw;
     Header := {| Timestamp := ts; LogPos := pos; EventSize := Z.of_nat (length raw) |};
     Event_ := ev |}.

(** * The vocabulary of the properties

    The states, errors and predicates the theorems speak of, and the
    concrete states and events they are tried on. *)

(** ** Errors and states the methods leave *)

(** The error of [handleFormatDescriptionEvent] on an empty file name. *)
Definition empty_name_error : error :=
  Root (ErrNotValid "write FormatDescriptionEvent with empty binlog filename").

(** The counters after [binlogReadErrorCounter.Inc()]. *)
Definition count_read_error (c : Counters) : Counters :=
  {| relayExitWithErrorCounter := relayExitWithErrorCounter c;
     binlogReadErrorCounter := S (binlogReadErrorCounter c);
     relayLogWriteErrorCounter := relayLogWriteErrorCounter c;
     relayLogDataCorruptionCounter := relayLogDataCorruptionCounter c |}.

(** The error of [SwitchMaster] without GTID mode. *)
Definition switch_error : error :=
  Root (ErrNew "can only switch relay's master server when GTID enabled").

(** The UUID [getServerUUID] gives when its queries succeed. *)
Definition upstream_uuid (st : St) : string :=
  if bool_decide (Flavor (cfg st) = MariaDBFlavor)
  then fmt_d (gtid_domain_id (upstream st)) +:+ "-" +:+ fmt_d (server_id (upstream st))
  else server_uuid (upstream st).

(** The meta after [AddDir(uuid, nil, nil)] and [Load]. *)
Definition switched_meta (uuid : string) (m : LocalMeta) : LocalMeta :=
  let r := {| current_uuid := uuid;
              uuids := uuids (mem m) ++ [uuid];
              position := {| Name := ""; Pos := 0 |};
              gtid_set := gtid_set (mem m) |} in
  {| mem := r; dirty := false; durable := Some r |}.

(** [lastPos] after a RotateEvent to [name] at [p]: the new position is
    adopted when it compares greater. *)
Definition adopt `{Env} (name : string) (p : Z) (l : Locals) : Locals :=
  let currentPos := {| Name := name; Pos := uint32 p |} in
  if bool_decide (Compare currentPos (lastPos l) = 1%Z)
  then set_lastPos currentPos l else l.

(** The state once the loop has noted that [GetEvent] gave an event. *)
Definition received (st : St) : St :=
  set_trace (trace st ++ [ObsGetEvent true]) st.

(** The sub-directory of the sample upstream and its first binlog file. *)
Definition sample_dir : string := "relay/3e11fa47-71ca-11e1-9e33-c80aa9429562".
Definition sample_path : string := sample_dir +:+ "/mysql-bin.000001".

(** A flushed meta on the sample sub-directory, at [off] in file [name]. *)
Definition sample_meta (name : string) (off : Z) : LocalMeta :=
  let r := {| current_uuid := "3e11fa47-71ca-11e1-9e33-c80aa9429562";
              uuids := ["3e11fa47-71ca-11e1-9e33-c80aa9429562"];
              position := {| Name := name; Pos := off |};
              gtid_set := Some [] |} in
  {| mem := r; dirty := false; durable := Some r |}.

(** A relay in the middle of [mysql-bin.000001]: the file holds the magic
    and is open at its end. *)
Definition streaming (gtid autofix : bool) (flavor : string) : St :=
  set_fd (Some {| f_path := sample_path; f_off := 4; f_closed := false |})
    (set_fs (<[sample_path := BinLogFileHeader]> ∅)
       (set_meta (sample_meta "mysql-bin.000001" 4) (fresh gtid autofix flavor))).

(** The variables of the loop at that point. *)
Definition sample_locals : Locals :=
  {| streamer := {| s_from := FromPos {| Name := "mysql-bin.000001"; Pos := 4 |} |};
     lastPos := {| Name := "mysql-bin.000001"; Pos := 4 |};
     lastGTID := Some [];
     tryReSync := true |}.

(** A rotate to [mysql-bin.000002] with the given header fields. *)
Definition rotate_to_2 (ts pos : Z) : BinlogEvent :=
  mk_event (replicate 8 Byte.x04) ts pos (RotateEvent "mysql-bin.000002" 4).

(** The state once the loop has noted that [GetEvent] gave an error. *)
Definition refused (st : St) : St :=
  set_trace (trace st ++ [ObsGetEvent false]) st.

(** [Close] kills the replica connection through the control connection:
    a relay that holds a connection id holds the control connection (both
    are set up by [Init] and [process], in this order). *)
Definition can_kill (st : St) : Prop :=
  db st = None → ∀ sy, syncer st = Some sy → (sy_conn sy ≤ 0)%Z.

(** The meta after a successful [Flush]. *)
Definition flushed (m : LocalMeta) : LocalMeta :=
  {| mem := mem m; dirty := false; durable := Some (mem m) |}.

(** A relay in the middle of a file, with no syncer left, whose meta is
    dirty and whose next call into the environment fails. *)
Definition unflushed : St :=
  set_faults [FaultAt 0]
    (set_syncer None
       (set_meta {| mem := mem (sample_meta "mysql-bin.000001" 120);
                    dirty := true;
                    durable := durable (sample_meta "mysql-bin.000001" 4) |}
          (streaming false false MySQLFlavor))).

(** The local file of the recorded position, [<dir>/<name>]. *)
Definition local_file (st : St) : string :=
  path_Join (path_Join (RelayDir (cfg st)) (current_uuid (mem (meta st))))
    (Name (position (mem (meta st)))).

(** The meta after [Save(pos, nil)]. *)
Definition saved (pos : Position) (m : LocalMeta) : LocalMeta :=
  {| mem := {| current_uuid := current_uuid (mem m); uuids := uuids (mem m);
               position := pos; gtid_set := gtid_set (mem m) |};
     dirty := true; durable := durable m |}.

(** The state after a successful [StartSync]. *)
Definition connected (sy : BinlogSyncer) (st : St) : St :=
  set_syncer (Some {| sy_conn := connection_id (upstream st);
                      sy_closed := sy_closed sy |}) st.

(** The error of [startSyncByPos] on a file shorter than the recorded
    offset. *)
Definition too_small (name : string) (size off : Z) : error :=
  Annotate (Root ErrBinlogPosGreaterThanFileSize)
    (name +:+ " size=" +:+ fmt_d size +:+ ", specific pos=" +:+ fmt_d off).

(** A file of 260 bytes under a meta that stopped at offset 200. *)
Definition grown_file : bytes := BinLogFileHeader ++ replicate 256 Byte.x00.

(** The relay restarted on it. *)
Definition grown : St :=
  set_fs (<[sample_path := grown_file]> ∅)
    (set_meta (sample_meta "mysql-bin.000001" 200) (fresh false false MySQLFlavor)).

(** A file of 2^32 + 10 bytes under a meta at offset 4. *)
Definition oversized_file : bytes := replicate (Z.to_nat 4294967306) Byte.x00.

(** The relay restarted on it. *)
Definition oversized : St :=
  set_fs (<[sample_path := oversized_file]> ∅)
    (set_meta (sample_meta "mysql-bin.000001" 4) (fresh false false MySQLFlavor)).

(** ** Relations between the state before and after

    [preserves R m]: the state after [m], whatever [m] gives, is related
    by [R] to the state before. *)
Definition preserves {A} (R : relation St) (m : M A) : Prop :=
  ∀ st, R st (fst (m st)).

(** The states that agree on a component. *)
Definition same {B} (proj : St → B) : relation St :=
  λ st st', proj st' = proj st.




(** The sub-directories and the GTID set of the meta. *)
Definition dirs (st : St) : string * list string * option GTIDSet :=
  (current_uuid (mem (meta st)), uuids (mem (meta st)), gtid_set (mem (meta st))).

(** The state when [reSyncBinlog] has been entered on a failed [GetEvent]. *)
Definition resyncing (st : St) : St :=
  set_trace ((trace st ++ [ObsGetEvent false]) ++ [ObsReSync]) st.

(** A fake rotate, a FormatDescriptionEvent, a purged-logs error, an
    event. *)
Definition mariadb_script : list GetEventResult :=
  [GotEvent (mk_event (replicate 8 Byte.x04) 0 0 (RotateEvent "mysql-bin.000001" 4));
   GotEvent (mk_event (replicate 20 Byte.x01) 1700000000 24 FormatDescriptionEvent);
   GetEventErr (Root ErrBinlogPurged);
   GotEvent (mk_event (replicate 21 Byte.x05) 1700000001 45 GenericEvent)].

(** ** Files and their header *)

(** The first four bytes are the magic. *)
Definition has_header (c : bytes) : Prop := take 4 c = BinLogFileHeader.

(** The path [handleFormatDescriptionEvent] opens for a file name. *)
Definition binlog_path (st : St) (name : string) : string :=
  path_Join (path_Join (RelayDir (cfg st)) (current_uuid (mem (meta st)))) name.

(** [r.fd] open on [path] at offset [off]. *)
Definition opened (path : string) (off : nat) (st : St) : St :=
  set_fd (Some {| f_path := path; f_off := off; f_closed := false |}) st.

(** A FormatDescriptionEvent. *)
Definition format_description : BinlogEvent :=
  mk_event (replicate 20 Byte.x01) 1700000000 24 FormatDescriptionEvent.

(** The relay restarted on the file that holds that event already. *)
Definition resumed : St :=
  set_fs (<[sample_path := BinLogFileHeader ++ replicate 20 Byte.x01]> ∅)
    (set_meta (sample_meta "mysql-bin.000001" 24) (fresh false false MySQLFlavor)).

(** A file that is there and starts with the magic. *)
Definition headed (o : option bytes) : Prop := ∃ c, o = Some c ∧ has_header c.

(** A file on which the write of the magic stopped after [k] bytes: no
    other byte of it was written. *)
Definition half_written (before after : option bytes) : Prop :=
  ∃ k, k ≤ 4 ∧ after = Some (take k BinLogFileHeader ++ drop k (default [] before)).

(** The file the relay appends to starts with the magic, and the file
    offset is past it. *)
Definition fd_ok (st : St) : Prop :=
  ∀ f, fd st = Some f → f_closed f = false →
       headed (fs st !! f_path f) ∧ 4 ≤ f_off f.

(** From one state of a healthy run to a later one: the file appended to
    still starts with the magic, and every file is as it was or starts with
    the magic. *)
Definition steps : relation St := λ st st',
  fd_ok st →
  fd_ok st' ∧ ∀ p, fs st' !! p = fs st !! p ∨ headed (fs st' !! p).

(** The files and the open file. *)
Definition files (st : St) : gmap string bytes * option File := (fs st, fd st).

(** What a failed run leaves of a file: the file as it was, a file that
    starts with the magic, or a file on which the write of the magic
    stopped. *)
Definition touched (before after : option bytes) : Prop :=
  after = before ∨ headed after ∨ half_written before after.

(** How a step of the run leaves the files: whatever it gives, each file
    is as it was, starts with the magic, or has a part of the magic
    written at its start; when it succeeds, the open file and each changed
    file start with the magic. *)
Definition sound {A} (st st' : St) (r : result A) : Prop :=
  (∀ p, touched (fs st !! p) (fs st' !! p))
  ∧ ((∃ a, r = Ok a) → steps st st').

(** The first events of a stream: the fake rotate that names the file,
    the FormatDescriptionEvent, an event. *)
Definition first_events : list GetEventResult :=
  [GotEvent (mk_event (replicate 8 Byte.x04) 0 0 (RotateEvent "mysql-bin.000001" 4));
   GotEvent (mk_event (replicate 20 Byte.x01) 1700000000 24 FormatDescriptionEvent);
   GotEvent (mk_event (replicate 21 Byte.x05) 1700000001 45 GenericEvent)].

(** A fresh start on which the first six calls into the environment
    succeed (the three of the set-up of the meta, the start of the sync,
    the open and the read of the new file) and the seventh, the seek to the
    start of that file, fails. *)
Definition unseekable : St :=
  set_faults [NoFault; NoFault; NoFault; NoFault; NoFault; NoFault; FaultAt 0]
    (fresh false false MySQLFlavor).

(** ** The syncer and the start of a stream *)

(** A syncer after [Close]. *)
Definition closed_syncer (sy : BinlogSyncer) : BinlogSyncer :=
  {| sy_conn := sy_conn sy; sy_closed := true |}.

(** The meta after [retrySyncGTIDs] under MySQL: the master's UUID is the
    new sub-directory, the GTID set is the old one with the master's own
    intervals replaced. *)
Definition resynced_meta (up : Upstream) (old : GTIDSet) (m : LocalMeta) : LocalMeta :=
  let r := {| current_uuid := server_uuid up;
              uuids := uuids (mem m) ++ [server_uuid up];
              position := {| Name := ""; Pos := 0 |};
              gtid_set := Some (Replace old (master_gtid up) [server_uuid up]) |} in
  {| mem := r; dirty := false; durable := Some r |}.

(** The three places where [retrySyncGTIDs] can fail. *)
Definition resync_note (up : Upstream) (msg : string) : Prop :=
  msg = "get master status" ∨ msg = "get master UUID"
  ∨ msg = "add sub relay directory for master server " +:+ server_uuid up.

(** What the start of a stream leaves alone: the files and the open file,
    the control connection, the closed flag, the configuration, the
    counters, the trace, the upstream, the sub-directories and the GTID set
    of the meta and its durable record. *)
Definition beside_start (st : St) :=
  (fs st, fd st, db st, closed st, cfg st, counters st, trace st, upstream st,
   dirs st, durable (meta st)).

(** A relay whose syncer holds connection 7 and whose control connection
    refuses the next statement. *)
Definition unkillable : St :=
  set_faults [FaultAt 1]
    (set_syncer (Some {| sy_conn := 7; sy_closed := false |})
       (fresh true true MySQLFlavor)).

(** A relay restarted under a meta at offset 200 of a file that is not in
    the relay directory. *)
Definition lost_file : St :=
  set_meta (sample_meta "mysql-bin.000001" 200) (fresh false false MySQLFlavor).

(** What the close of the syncer leaves alone. *)
Definition kept_by_close (st : St) :=
  (cfg st, meta st, upstream st, files st, closed st).

(** The character of [domainServerIDSeparator], the byte 0x2D. *)
Definition dash : Ascii.ascii :=
  Ascii.Ascii true false true true false true false false.

(** A string with no separator in it. *)
Fixpoint dashless (s : string) : bool :=
  match s with
  | EmptyString => true
  | String c rest => negb (Ascii.eqb c dash) && dashless rest
  end.

(** An upstream with the given MariaDB ids. *)
Definition mariadb_upstream (domain server : Z) : Upstream :=
  {| server_uuid := ""; gtid_domain_id := domain; server_id := server;
     master_pos := {| Name := ""; Pos := 0 |}; master_gtid := [];
     connection_id := 1 |}.

(** A relay pointed at another upstream. *)
Definition on_upstream (u : Upstream) (s : St) : St :=
  {| cfg := cfg s; db := db s; syncer := syncer s; meta := meta s;
     lastSlaveConnectionID := lastSlaveConnectionID s; fd := fd s;
     closed := closed s; fs := fs s; faults := faults s;
     upstream := u; counters := counters s; trace := trace s |}.

(** ** The lifecycle *)

(** The control connection as [sql.Open] returns it. *)
Definition open_db : option DB := Some {| db_closed := false |}.

(** The meta after [Load]. *)
Definition loaded (m : LocalMeta) : LocalMeta :=
  {| mem := default empty_record (durable m); dirty := dirty m;
     durable := durable m |}.

(** A relay after [NewRelay]: no control connection yet, a syncer that
    has not connected, an empty meta, nothing open. *)
Definition created (gtid : bool) (flavor : string) : St :=
  set_db None (fresh gtid false flavor).

(** A relay after [NewRelay] on which the third call of [Init] into the
    environment, the load of the meta, fails. *)
Definition unloadable : St :=
  set_faults [NoFault; NoFault; FaultAt 0] (created true MySQLFlavor).

(** A relay after [NewRelay] whose relay directory cannot be made. *)
Definition unwritable : St :=
  set_faults [NoFault; FaultAt 0] (created true MySQLFlavor).

(** What [Init] leaves alone: the files and the open file, the syncer,
    the closed flag and the durable record of the meta. *)
Definition beside_init (st : St) :=
  (files st, syncer st, closed st, durable (meta st)).

(** A handle after [Close()]: a nil one stays nil. *)
Definition closed_db (d : option DB) : option DB :=
  match d with
  | Some _ => Some {| db_closed := true |}
  | None => None
  end.

Definition closed_file (f : option File) : option File :=
  match f with
  | Some f => Some {| f_path := f_path f; f_off := f_off f; f_closed := true |}
  | None => None
  end.

(** What the interval flush leaves alone: everything but the meta and the
    answers of the environment it consumes. *)
Definition beside_meta (st : St) :=
  (cfg st, db st, syncer st, lastSlaveConnectionID st, files st, closed st,
   upstream st, counters st, trace st).

(** A relay whose meta is dirty, with two failing answers of the
    environment ahead. *)
Definition failing_flush : St :=
  set_faults [FaultAt 0; FaultAt 0]
    (set_meta {| mem := mem (sample_meta "mysql-bin.000001" 120);
                 dirty := true;
                 durable := durable (sample_meta "mysql-bin.000001" 4) |}
       (streaming false false MySQLFlavor)).

Global Instance Wakeup_eq_dec : EqDecision Wakeup.
Proof. solve_decision. Defined.

(** ** The status *)

(** The renderings of [go-mysql]: a position as [(name, offset)], a GTID
    set as its [uuid:intervals], separated by commas. *)
Definition sample_render : Render :=
  {| Position_String := λ p, "(" +:+ Name p +:+ ", " +:+ fmt_d (Pos p) +:+ ")";
     Set_String := λ g, String.concat "," (map (λ kv, kv.1 +:+ ":" +:+ kv.2) g) |}.

(** The zero position. *)
Definition no_position : Position := {| Name := ""; Pos := 0 |}.

(** An environment in which a failed [utils.GetMasterStatus] returns the
    zero position and no GTID set. *)
Definition zero_on_error : MasterStatus :=
  {| status_on_error := λ _, (no_position, None) |}.

(** A relay in GTID mode, in the middle of a file, whose control
    connection has been closed. *)
Definition cut_off : St :=
  set_db (Some {| db_closed := true |}) (streaming true false MySQLFlavor).

(** ** The events of the loop *)

(** The fake RotateEvent, which the loop does not write. *)
Definition fake_rotate (e : BinlogEvent) : bool :=
  match Event_ e with
  | RotateEvent _ _ =>
    bool_decide (Timestamp (Header e) = 0%Z) || bool_decide (LogPos (Header e) = 0%Z)
  | _ => false
  end.

(** The meta after [Save(pos, gs)]. *)
Definition saved_with (pos : Position) (gs : option GTIDSet) (m : LocalMeta)
    : LocalMeta :=
  {| mem := {| current_uuid := current_uuid (mem m); uuids := uuids (mem m);
               position := pos;
               gtid_set := match gs with Some g => Some g | None => gtid_set (mem m) end |};
     dirty := true; durable := durable m |}.

(** The files after [data] is written through the open file [f]. *)
Definition written_through (f : File) (data : bytes) (st : St)
    : gmap string bytes :=
  <[f_path f := write_at (content st (f_path f)) (f_off f) data]> (fs st).

(** The counters after [relayLogWriteErrorCounter.Inc()]. *)
Definition count_write_error (c : Counters) : Counters :=
  {| relayExitWithErrorCounter := relayExitWithErrorCounter c;
     binlogReadErrorCounter := binlogReadErrorCounter c;
     relayLogWriteErrorCounter := S (relayLogWriteErrorCounter c);
     relayLogDataCorruptionCounter := relayLogDataCorruptionCounter c |}.

(** The bytes the loop writes for a run of events: the raw data of each
    event but the fake rotates, in the order received. *)
Fixpoint relayed (es : list BinlogEvent) : bytes :=
  match es with
  | [] => []
  | e :: rest => (if fake_rotate e then [] else RawData e) ++ relayed rest
  end.

(** An event of 21 bytes that ends at offset 45, and the open file of
    [streaming]. *)
Definition sample_event : BinlogEvent :=
  mk_event (replicate 21 Byte.x05) 1700000001 45 GenericEvent.

Definition sample_file : File :=
  {| f_path := sample_path; f_off := 4; f_closed := false |}.

(** A real rotate, a fake one and an event, as a stream sends them. *)
Definition sample_events : list BinlogEvent :=
  [rotate_to_2 1700000000 30; rotate_to_2 0 0; sample_event].

(** What a run of [process] leaves alone: the configuration, the control
    connection, the closed flag and the upstream. *)
Definition kept_by_process (st : St) :=
  (cfg st, db st, closed st, upstream st).

(** * Properties *)

(** Unfolding the monad, then running a computation on a symbolic state. *)
Ltac unmonad :=
  unfold bind, onerr, try, gets, modify, ret, fail, panic, defer, pop_fault,
    observe, inc_binlogReadError, inc_relayLogDataCorruption,
    inc_relayLogWriteError, inc_relayExitWithError in *.

Ltac run := unmonad; simpl in *.

(** A state taken apart into its fields, so that the methods compute. *)
Ltac open_state st :=
  let c0 := fresh "c0" in let d0 := fresh "d0" in let sy0 := fresh "sy0" in
  let m0 := fresh "m0" in let id0 := fresh "id0" in let f0 := fresh "f0" in
  let cl0 := fresh "cl0" in let fs0 := fresh "fs0" in let flt0 := fresh "flt0" in
  let up0 := fresh "up0" in let cnt0 := fresh "cnt0" in let tr0 := fresh "tr0" in
  destruct st as [c0 d0 sy0 m0 id0 f0 cl0 fs0 flt0 up0 cnt0 tr0]; simpl in *.

(** ** The file writer: an empty file name *)

Section EmptyName.
Context `{Env}.

(** C8 (as amended): called with an empty file name,
    [handleFormatDescriptionEvent] drops the file it held, opens no file
    (the file system and the pending answers of the environment are as
    before, [r.fd] is nil), returns the NotValid error, and counts it in
    the [binlog_read_error] counter; the [relay_log_data_corruption]
    counter keeps its value. *)
Theorem handleFormatDescriptionEvent_empty_name (st : St) :
  handleFormatDescriptionEvent "" st
  = (set_counters (count_read_error (counters st)) (set_fd None st),
     Fail empty_name_error).
Proof. open_state st. destruct f0; reflexivity. Qed.

End EmptyName.

(** C8, as the claim has it: the data-corruption counter would be
    incremented; it is not. *)
Lemma empty_name_not_counted_as_corruption :
  let st := fresh false false MySQLFlavor in
  let st' := fst (@handleFormatDescriptionEvent sample_env "" st) in
  snd (@handleFormatDescriptionEvent sample_env "" st) = Fail empty_name_error ∧
  relayLogDataCorruptionCounter (counters st')
  ≠ S (relayLogDataCorruptionCounter (counters st)).
Proof. split; [reflexivity | vm_compute; discriminate]. Qed.

(** ** Switching the master *)

(** C5 (as amended): without GTID mode [SwitchMaster] returns its error
    and leaves the state as it is; with GTID mode it is [reSetupMeta], whose
    error, if any, it returns traced; and when the control connection is open
    and no call fails, it succeeds: the upstream's UUID (for MariaDB
    [<domain_id>-<server_id>]) is appended as a new sub-directory by
    [AddDir(uuid, nil, nil)] and the meta is loaded again. *)
Theorem SwitchMaster_gating (st : St) :
  (EnableGTID (cfg st) = false → SwitchMaster st = (st, Fail switch_error))
  ∧ (EnableGTID (cfg st) = true → SwitchMaster st = onerr Trace reSetupMeta st)
  ∧ (EnableGTID (cfg st) = true →
     db st = Some {| db_closed := false |} → faults st = [] →
     SwitchMaster st
     = (set_meta (switched_meta (upstream_uuid st) (meta st)) st, Ok tt)).
Proof.
  open_state st. unfold SwitchMaster.
  split; [|split].
  - intros E. run. rewrite E. reflexivity.
  - intros E. run. rewrite E. simpl.
    destruct (reSetupMeta _) as [? []]; reflexivity.
  - intros E -> ->. unfold upstream_uuid, reSetupMeta, getServerUUID.
    run. rewrite E. simpl.
    destruct (bool_decide (Flavor c0 = MariaDBFlavor)); reflexivity.
Qed.

(** The theorem at a MariaDB upstream with domain 0 and server id 101. *)
Lemma SwitchMaster_gating_witness :
  current_uuid (mem (meta (fst (SwitchMaster (fresh true false MariaDBFlavor)))))
  = "0-101".
Proof.
  pose proof (proj2 (proj2 (SwitchMaster_gating (fresh true false MariaDBFlavor)))
                eq_refl eq_refl eq_refl) as E.
  rewrite E. reflexivity.
Defined.

(** C5, as the claim has it: an error if and only if GTID mode is off.
    With GTID mode on and a failing query of the server UUID,
    [SwitchMaster] returns an error all the same. *)
Lemma SwitchMaster_error_with_gtid :
  let st := set_faults [FaultAt 0] (fresh true false MySQLFlavor) in
  EnableGTID (cfg st) = true ∧
  snd (SwitchMaster st) = Fail (Trace (Trace (Root ErrDB))).
Proof. split; reflexivity. Qed.

(** ** The event loop: rotate events *)

Section Rotate.
Context `{Env}.

(** C3 (as amended): a RotateEvent is skipped as a fake rotate -- its
    position adopted into [lastPos] when greater, no byte written, the meta
    not saved -- exactly when its header timestamp is 0 or its header
    log_pos is 0; when both are non-zero the iteration goes on to the write
    and the save, and with an open file and no failure the raw bytes are
    written at the file offset and the meta holds the new [lastPos]. *)
Theorem rotate_skipped_iff_fake (l : Locals) (e : BinlogEvent)
    (name : string) (p : Z) (st : St) :
  Event_ e = RotateEvent name p →
  let l1 := adopt name p (set_tryReSync true l) in
  (Timestamp (Header e) = 0%Z ∨ LogPos (Header e) = 0%Z →
   iteration l (GotEvent e) st = (received st, Ok (Continue l1)))
  ∧ (Timestamp (Header e) ≠ 0%Z ∧ LogPos (Header e) ≠ 0%Z →
     iteration l (GotEvent e) st = write_and_save l1 e (received st))
  ∧ (Timestamp (Header e) ≠ 0%Z ∧ LogPos (Header e) ≠ 0%Z →
     ∀ f, fd st = Some f → f_closed f = false → faults st = [] →
     ∃ st2 l2,
       iteration l (GotEvent e) st = (st2, Ok (Continue l2))
       ∧ Name (lastPos l2) = Name (lastPos l1)
       ∧ content st2 (f_path f)
         = write_at (content st (f_path f)) (f_off f) (RawData e)
       ∧ position (mem (meta st2)) = lastPos l2
       ∧ dirty (meta st2) = true).
Proof.
  intros Hev l1.
  assert (Hfake : Timestamp (Header e) = 0%Z ∨ LogPos (Header e) = 0%Z →
            iteration l (GotEvent e) st = (received st, Ok (Continue l1))).
  { intros Hz. unfold iteration, classify. rewrite Hev. run.
    fold (adopt name p (set_tryReSync true l)). fold l1.
    destruct Hz as [-> | ->]; simpl.
    - reflexivity.
    - rewrite orb_true_r. reflexivity. }
  assert (Hreal : Timestamp (Header e) ≠ 0%Z ∧ LogPos (Header e) ≠ 0%Z →
            iteration l (GotEvent e) st = write_and_save l1 e (received st)).
  { intros [Ht Hp]. unfold iteration, classify. rewrite Hev. run.
    fold (adopt name p (set_tryReSync true l)). fold l1.
    rewrite !bool_decide_eq_false_2 by assumption. reflexivity. }
  split; [exact Hfake | split; [exact Hreal |]].
  intros Hnz f Hfd Hopen Hflt. rewrite (Hreal Hnz).
  open_state st. subst. unfold write_and_save, fd_Write, meta_Save. run.
  rewrite Hopen. simpl.
  rewrite bool_decide_eq_false_2 by (intros Hn; apply Hn; reflexivity).
  simpl. eexists _, _. split; [reflexivity |]. simpl.
  unfold content. simpl. rewrite lookup_insert_eq. simpl.
  destruct (EnableGTID c0); simpl; auto.
Qed.

End Rotate.

(** The theorem at the fake rotate the protocol sends (both fields 0). *)
Lemma rotate_skipped_iff_fake_witness :
  @iteration sample_env sample_locals (GotEvent (rotate_to_2 0 0))
    (streaming false false MySQLFlavor)
  = (received (streaming false false MySQLFlavor),
     Ok (Continue (@adopt sample_env "mysql-bin.000002" 4 sample_locals))).
Proof.
  exact (proj1 (@rotate_skipped_iff_fake sample_env sample_locals (rotate_to_2 0 0)
                  "mysql-bin.000002" 4 (streaming false false MySQLFlavor) eq_refl)
           (or_introl eq_refl)).
Defined.

(** C3, as the claim has it: a rotate with only one of the two fields zero
    would be appended and saved.  With a non-zero timestamp and log_pos 0
    the iteration continues with the file and the meta as they were. *)
Lemma rotate_with_zero_log_pos_is_skipped :
  let e := rotate_to_2 1700000000 0 in
  let st := streaming false false MySQLFlavor in
  Timestamp (Header e) ≠ 0%Z ∧
  ∃ st' l', @iteration sample_env sample_locals (GotEvent e) st = (st', Ok (Continue l'))
    ∧ fs st' = fs st ∧ meta st' = meta st.
Proof.
  split; [discriminate |].
  exists (received (streaming false false MySQLFlavor)),
    (@adopt sample_env "mysql-bin.000002" 4 sample_locals).
  split; [vm_compute; reflexivity |]. split; reflexivity.
Qed.

(** ** The result of [Process] *)

Section Delivery.
Context `{Env}.

(** C7 (as amended): an error on which [process] returns is delivered as
    the one entry of [Errors], with [IsCanceled] false, unless its cause is
    [ErrSyncClosed]: then, as when [process] returns nil, [Errors] is empty
    and [IsCanceled] tells whether the parent context is done.  The loop
    returns both [ErrSyncClosed] and [ErrNeedSyncAgain] (traced), returns nil
    on cancellation, and goes on after a deadline exceeded. *)
Theorem Process_result (ctx_done : bool) (script : list GetEventResult) (st : St) :
  (∀ st1 e, process script st = (st1, Fail e) → CauseOf e ≠ ErrSyncClosed →
     snd (Process ctx_done script st)
     = Some {| IsCanceled := false;
               Errors := [NewProcessError UnknownError (ErrorStack e)] |})
  ∧ (∀ st1 e, process script st = (st1, Fail e) → CauseOf e = ErrSyncClosed →
     Process ctx_done script st
     = (st1, Some {| IsCanceled := ctx_done; Errors := [] |}))
  ∧ (∀ st1, process script st = (st1, Ok Returned) →
     Process ctx_done script st
     = (st1, Some {| IsCanceled := ctx_done; Errors := [] |}))
  ∧ (∀ l err, CauseOf err = ErrSyncClosed ∨ CauseOf err = ErrNeedSyncAgain →
     iteration l (GetEventErr err) st = (refused st, Fail (Trace err)))
  ∧ (∀ l err, CauseOf err = Canceled →
     iteration l (GetEventErr err) st = (refused st, Ok ReturnNil))
  ∧ (∀ l err, CauseOf err = DeadlineExceeded →
     iteration l (GetEventErr err) st = (refused st, Ok (Continue l))).
Proof.
  repeat split.
  - intros st1 e Hp Hc. unfold Process. rewrite Hp.
    rewrite bool_decide_eq_true_2 by assumption. reflexivity.
  - intros st1 e Hp Hc. unfold Process. rewrite Hp.
    rewrite bool_decide_eq_false_2 by (intros Hn; apply Hn, Hc). reflexivity.
  - intros st1 Hp. unfold Process. rewrite Hp. reflexivity.
  - intros l err [Hc | Hc]; unfold iteration; run; rewrite Hc; reflexivity.
  - intros l err Hc. unfold iteration. run. rewrite Hc. reflexivity.
  - intros l err Hc. unfold iteration. run. rewrite Hc. reflexivity.
Qed.

End Delivery.

(** The theorem at a run that ends on [ErrNeedSyncAgain]. *)
Lemma Process_result_witness :
  snd (@Process sample_env false [GetEventErr (Root ErrNeedSyncAgain)]
         (fresh false false MySQLFlavor))
  = Some {| IsCanceled := false;
            Errors := [NewProcessError UnknownError "error"] |}.
Proof.
  eapply (proj1 (@Process_result sample_env false [GetEventErr (Root ErrNeedSyncAgain)]
                   (fresh false false MySQLFlavor))
            _ (Trace (Root ErrNeedSyncAgain))).
  - reflexivity.
  - discriminate.
Defined.

(** C7, as the claim has it: every error on which the loop exits,
    [ErrSyncClosed] included, would be in [Errors].  A run that ends on
    [ErrSyncClosed] delivers an empty list. *)
Lemma ErrSyncClosed_not_delivered :
  let st := fresh false false MySQLFlavor in
  let script := [GetEventErr (Root ErrSyncClosed)] in
  snd (@process sample_env script st) = Fail (Trace (Root ErrSyncClosed)) ∧
  snd (@Process sample_env true script st)
  = Some {| IsCanceled := true; Errors := [] |}.
Proof. split; reflexivity. Qed.

(** ** Closing the relay *)

(** Case analysis on what the computation in the goal inspects next. *)
Ltac split_match :=
  match goal with
  | |- context [match ?x with _ => _ end] => is_var x; destruct x; simpl in *
  | |- context [match ?f ?x with _ => _ end] =>
      is_var x; destruct (f x) eqn:?; simpl in *
  end.

(** C10: whatever the environment answers (so whether the flush of the
    meta succeeds or fails), [Close] returns normally with the closed flag
    set; the meta is then either flushed or, when the flush failed, as it
    was; a failure is not returned; and a later [Close] does nothing: it
    consumes no answer of the environment and changes nothing, so the flush
    is not tried again.  With no syncer to close, a failing first call is the
    flush itself, and the relay is closed with its meta unflushed. *)
Theorem Close_terminal (st : St) :
  can_kill st →
  ∃ st',
    Close st = (st', Ok tt)
    ∧ closed st' = true
    ∧ Close st' = (st', Ok tt)
    ∧ (closed st = true → st' = st)
    ∧ (meta st' = meta st ∨ meta st' = flushed (meta st))
    ∧ (closed st = false → syncer st = None →
       ∀ n rest, faults st = FaultAt n :: rest →
       meta st' = meta st ∧ faults st' = rest).
Proof.
  intros Hk. open_state st. unfold can_kill in Hk; simpl in Hk.
  unfold Close. run.
  destruct cl0; simpl.
  { eexists; repeat split; eauto; discriminate. }
  unfold closeBinlogSyncer, utils_KillConn, meta_Flush, fd_Close, db_Close.
  run.
  destruct sy0 as [sy|]; simpl.
  - destruct (sy_conn sy >? 0)%Z eqn:Hc; simpl.
    + destruct d0 as [d|]; simpl.
      2:{ specialize (Hk eq_refl sy eq_refl). lia. }
      repeat split_match;
        (eexists; repeat split; simpl; eauto; discriminate).
    + repeat split_match;
        (eexists; repeat split; simpl; eauto; discriminate).
  - repeat split_match;
      (eexists; repeat split; simpl; eauto; try discriminate;
       intros; simplify_eq; auto).
Qed.

(** The theorem at a relay in the middle of a file whose final flush
    fails: the relay is closed and the meta is still dirty. *)
Lemma Close_terminal_witness :
  ∃ st', Close unflushed = (st', Ok tt) ∧ closed st' = true
         ∧ dirty (meta st') = true.
Proof.
  assert (Hk : can_kill unflushed).
  { unfold can_kill. simpl. discriminate. }
  destruct (Close_terminal unflushed Hk) as (st' & Hc & Hcl & _ & _ & _ & Hm).
  destruct (Hm eq_refl eq_refl 0 [] eq_refl) as [Hmeta _].
  exists st'. rewrite Hmeta. auto.
Defined.

(** ** Restart by position *)

Section Restart.
Variables (st : St) (name : string) (off : Z) (sy : BinlogSyncer).
Hypothesis Hpos : position (mem (meta st)) = {| Name := name; Pos := off |}.
Hypothesis Hname : name ≠ "".
Hypothesis Hsyncer : syncer st = Some sy.
Hypothesis Hquiet : faults st = [].

(** The file is longer than the recorded offset: the sync starts from the
    size of the file as a [uint32], which is saved into the meta. *)
Lemma startSyncByPos_longer (c : bytes) :
  fs st !! local_file st = Some c →
  (off < Z.of_nat (length c))%Z →
  let pos := {| Name := name; Pos := uint32 (Z.of_nat (length c)) |} in
  startSyncByPos st
  = (connected sy (set_meta (saved pos (meta st)) st), Ok {| s_from := FromPos pos |}).
Proof.
  intros Hc Hlt pos. unfold local_file in Hc. revert Hpos Hsyncer Hquiet Hc.
  open_state st. intros Hpos -> -> Hc.
  unfold startSyncByPos, os_Stat, meta_Save, syncer_start. run.
  rewrite Hpos in *. simpl in *.
  rewrite bool_decide_eq_false_2 by assumption. simpl.
  rewrite Hc. simpl.
  replace (Z.of_nat (length c) >? off)%Z with true by (symmetry; apply Z.gtb_lt; lia).
  simpl. reflexivity.
Qed.

(** The file ends at the recorded offset: the sync starts there. *)
Lemma startSyncByPos_equal (c : bytes) :
  fs st !! local_file st = Some c →
  Z.of_nat (length c) = off →
  startSyncByPos st
  = (connected sy st, Ok {| s_from := FromPos {| Name := name; Pos := off |} |}).
Proof.
  intros Hc Hlt. unfold local_file in Hc. revert Hpos Hsyncer Hquiet Hc.
  open_state st. intros Hpos -> -> Hc.
  unfold startSyncByPos, os_Stat, meta_Save, syncer_start. run.
  rewrite Hpos in *. simpl in *.
  rewrite bool_decide_eq_false_2 by assumption. simpl.
  rewrite Hc. simpl. rewrite Hlt.
  rewrite Z.gtb_ltb, !Z.ltb_irrefl. simpl. reflexivity.
Qed.

(** C2: what [startSyncByPos] does on a restart with a recorded position
    [{name, off}], [name] non-empty, when the calls it makes succeed.  It
    (a) starts the sync from the size of the local file and leaves the meta
    at that size when the file exists with [off <= size < 2^32]; (b) starts
    from offset 4, the meta untouched, when the file is absent; (c) fails
    with [ErrBinlogPosGreaterThanFileSize], annotated with the name, the
    size and the position, without starting a sync, when [size < off].  And
    (d) whatever the size of a file longer than [off], the offset it starts
    from and saves is [uint32(stat.Size())], the size modulo 2^32: from
    2^32 bytes on this is not the size of the file, which is what the
    comment and the log line of that branch say the sync starts from. *)
Theorem startSyncByPos_restart :
  (∀ c, fs st !! local_file st = Some c →
     (off ≤ Z.of_nat (length c) < 2 ^ 32)%Z →
     let pos := {| Name := name; Pos := Z.of_nat (length c) |} in
     ∃ st', startSyncByPos st = (st', Ok {| s_from := FromPos pos |})
            ∧ position (mem (meta st')) = pos)
  ∧ (fs st !! local_file st = None →
     startSyncByPos st
     = (connected sy st, Ok {| s_from := FromPos {| Name := name; Pos := 4 |} |}))
  ∧ (∀ c, fs st !! local_file st = Some c →
     (Z.of_nat (length c) < off)%Z →
     startSyncByPos st = (st, Fail (too_small name (Z.of_nat (length c)) off)))
  ∧ (∀ c, fs st !! local_file st = Some c →
     (off < Z.of_nat (length c))%Z →
     let pos := {| Name := name; Pos := (Z.of_nat (length c) mod 2 ^ 32)%Z |} in
     ∃ st', startSyncByPos st = (st', Ok {| s_from := FromPos pos |})
            ∧ position (mem (meta st')) = pos).
Proof.
  split; [| split; [| split]].
  - intros c Hc [Hle Hlt] pos.
    destruct (Z.eq_dec (Z.of_nat (length c)) off) as [Heq | Hne].
    + rewrite (startSyncByPos_equal c Hc Heq). eexists; split; [subst pos; rewrite Heq; reflexivity |].
      simpl. subst pos. rewrite Heq. unfold connected.
      destruct st; simpl in *. exact Hpos.
    + rewrite (startSyncByPos_longer c Hc) by lia.
      assert (Hu : uint32 (Z.of_nat (length c)) = Z.of_nat (length c)).
      { unfold uint32. apply Z.mod_small. lia. }
      rewrite Hu. eexists; split; [reflexivity |].
      destruct st; reflexivity.
  - intros Hc. unfold local_file in Hc. revert Hpos Hsyncer Hquiet Hc.
    open_state st. intros Hpos -> -> Hc.
    unfold startSyncByPos, os_Stat, syncer_start. run.
    rewrite Hpos in *. simpl in *.
    rewrite bool_decide_eq_false_2 by assumption. simpl.
    rewrite Hc. simpl. reflexivity.
  - intros c Hc Hlt. unfold local_file in Hc. revert Hpos Hsyncer Hquiet Hc.
    open_state st. intros Hpos -> -> Hc.
    unfold startSyncByPos, os_Stat, syncer_start. run.
    rewrite Hpos in *. simpl in *.
    rewrite bool_decide_eq_false_2 by assumption. simpl.
    rewrite Hc. simpl.
    rewrite Z.gtb_ltb.
    replace (off <? Z.of_nat (length c))%Z with false by (symmetry; apply Z.ltb_ge; lia).
    replace (Z.of_nat (length c) <? off)%Z with true by (symmetry; apply Z.ltb_lt; lia).
    reflexivity.
  - intros c Hc Hlt pos. rewrite (startSyncByPos_longer c Hc Hlt).
    eexists; split; [reflexivity |]. destruct st; reflexivity.
Qed.

End Restart.

(** The theorem at a file that grew past the meta: the meta is at 200, the
    file has 260 bytes. *)
Lemma startSyncByPos_restart_witness :
  ∃ st', startSyncByPos grown
         = (st', Ok {| s_from := FromPos {| Name := "mysql-bin.000001"; Pos := 260 |} |})
         ∧ position (mem (meta st')) = {| Name := "mysql-bin.000001"; Pos := 260 |}.
Proof.
  assert (Hname : "mysql-bin.000001" ≠ "") by discriminate.
  assert (Hsize : (200 ≤ Z.of_nat (length grown_file) < 2 ^ 32)%Z)
    by (split; [vm_compute; discriminate | vm_compute; reflexivity]).
  exact (proj1 (startSyncByPos_restart grown "mysql-bin.000001" 200 NewBinlogSyncer
                  eq_refl Hname eq_refl eq_refl) grown_file eq_refl Hsize).
Defined.

(** C2, the failing input: whenever the size of the file is at least the
    recorded offset the sync is to resume from the size of the file.  A
    file of 2^32 + 10 bytes with the meta at offset 4 resumes from offset
    10. *)
Lemma startSyncByPos_wraps_at_4GiB :
  Z.of_nat (length oversized_file) = 4294967306%Z ∧
  snd (startSyncByPos oversized)
  = Ok {| s_from := FromPos {| Name := "mysql-bin.000001"; Pos := 10 |} |}.
Proof.
  assert (Hlen : Z.of_nat (length oversized_file) = 4294967306%Z).
  { unfold oversized_file. rewrite length_replicate. apply Z2Nat.id. discriminate. }
  split; [exact Hlen |].
  assert (Hname : "mysql-bin.000001" ≠ "") by discriminate.
  assert (Hfile : fs oversized !! local_file oversized = Some oversized_file).
  { unfold oversized. apply lookup_insert_eq. }
  rewrite (startSyncByPos_longer oversized "mysql-bin.000001" 4 NewBinlogSyncer
             eq_refl Hname eq_refl eq_refl oversized_file Hfile)
    by (rewrite Hlen; reflexivity).
  cbv beta zeta. unfold snd. rewrite Hlen. reflexivity.
Qed.

(** ** What a computation leaves as it is *)

Global Instance same_preorder {B} (proj : St → B) : PreOrder (same proj).
Proof.
  split.
  - intros st. reflexivity.
  - intros a b c Hab Hbc. unfold same in *. congruence.
Qed.

Section Preserves.
Context (R : relation St) `{!PreOrder R}.

Lemma preserves_ret {A} (a : A) : preserves R (ret a).
Proof. intros st. simpl. reflexivity. Qed.

Lemma preserves_fail {A} (e : error) : preserves R (@fail A e).
Proof. intros st. simpl. reflexivity. Qed.

Lemma preserves_panic {A} : preserves R (@panic A).
Proof. intros st. simpl. reflexivity. Qed.

Lemma preserves_gets {A} (f : St → A) : preserves R (gets f).
Proof. intros st. simpl. reflexivity. Qed.

Lemma preserves_modify (f : St → St) :
  (∀ st, R st (f st)) → preserves R (modify f).
Proof. intros Hf st. simpl. apply Hf. Qed.

Lemma preserves_bind {A B} (m : M A) (k : A → M B) :
  preserves R m → (∀ a, preserves R (k a)) → preserves R (bind m k).
Proof.
  intros Hm Hk st. unfold bind. specialize (Hm st).
  destruct (m st) as [st1 [a | e |]]; simpl in *; try assumption.
  etransitivity; [exact Hm | apply Hk].
Qed.

Lemma preserves_onerr {A} (h : error → error) (m : M A) :
  preserves R m → preserves R (onerr h m).
Proof.
  intros Hm st. unfold onerr. specialize (Hm st).
  destruct (m st) as [st1 [a | e |]]; simpl in *; assumption.
Qed.

Lemma preserves_try {A} (m : M A) : preserves R m → preserves R (try m).
Proof.
  intros Hm st. unfold try. specialize (Hm st).
  destruct (m st) as [st1 [a | e |]]; simpl in *; assumption.
Qed.

Lemma preserves_defer {A} (d : M unit) (m : M A) :
  preserves R m → preserves R d → preserves R (defer d m).
Proof.
  intros Hm Hd st. unfold defer. specialize (Hm st).
  destruct (m st) as [st1 r]. specialize (Hd st1). simpl in *.
  destruct (d st1) as [st2 [a | e |]]; simpl in *; etransitivity; eauto.
Qed.

Lemma preserves_on_return (d : M unit) (m : M LoopEnd) :
  preserves R m → preserves R d → preserves R (on_return d m).
Proof.
  intros Hm Hd st. unfold on_return. specialize (Hm st).
  destruct (m st) as [st1 [[l |] | e |]]; simpl in *; try assumption;
    specialize (Hd st1); destruct (d st1) as [st2 [a | e' |]]; simpl in *;
    etransitivity; eauto.
Qed.

Lemma preserves_pop_fault :
  (∀ st x, R st (set_faults x st)) → preserves R pop_fault.
Proof.
  intros Hf st. unfold pop_fault. destruct (faults st); simpl.
  - reflexivity.
  - apply Hf.
Qed.

End Preserves.

Ltac frame_leaf := reflexivity.

(** Walking through a computation: one rule per construct of the monad,
    a case analysis per [match], and the equations of the setters. *)
Ltac frame_step :=
  match goal with
  | |- preserves _ (bind _ _) => apply preserves_bind; [tc_solve | | intros ?]
  | |- preserves _ (ret _) => apply preserves_ret; tc_solve
  | |- preserves _ (fail _) => apply preserves_fail; tc_solve
  | |- preserves _ panic => apply preserves_panic; tc_solve
  | |- preserves _ (gets _) => apply preserves_gets; tc_solve
  | |- preserves _ (onerr _ _) => apply preserves_onerr
  | |- preserves _ (try _) => apply preserves_try
  | |- preserves _ (defer _ _) => apply preserves_defer; [tc_solve | |]
  | |- preserves _ (on_return _ _) => apply preserves_on_return; [tc_solve | |]
  | |- preserves _ pop_fault =>
      apply preserves_pop_fault; [tc_solve | intros [] ?; frame_leaf]
  | |- preserves _ (modify _) =>
      apply preserves_modify; intros []; simpl; repeat case_match;
      try frame_leaf
  | |- preserves _ (match ?x with _ => _ end) => destruct x
  | |- preserves _ (let _ := _ in _) => cbv zeta
  | |- preserves _ _ => solve [eauto]
  end.

Ltac frame := repeat frame_step.

(** ** The one-shot resync *)

Section OneShot.
Context `{Env}.
















End OneShot.


(** ** Purged logs under a flavor other than MySQL *)

Lemma getBinlogStreamer_dirs : preserves (same dirs) getBinlogStreamer.
Proof.
  unfold getBinlogStreamer, startSyncByGTID, startSyncByPos, syncer_start,
    os_Stat, meta_Save, meta_GTID, meta_Pos, meta_Dir.
  frame.
Qed.

Lemma reopenStreamer_dirs : preserves (same dirs) reopenStreamer.
Proof.
  unfold reopenStreamer, closeBinlogSyncer, utils_KillConn.
  pose proof getBinlogStreamer_dirs. frame.
Qed.

Lemma retrySyncGTIDs_other_flavor (st : St) :
  Flavor (cfg st) ≠ MySQLFlavor → retrySyncGTIDs st = (st, Ok tt).
Proof.
  intros Hf. unfold retrySyncGTIDs. run.
  rewrite bool_decide_eq_true_2 by assumption. reflexivity.
Qed.

Section OtherFlavor.
Context `{Env}.

(** C9 (as amended): under a flavor other than MySQL (MariaDB)
    [retrySyncGTIDs] does nothing.  A purged-logs error makes the loop
    return that error when the flag is cleared or GTID mode or auto-fix is
    off.  Otherwise the loop calls [reSyncBinlog], which only reopens the
    streamer: the current sub-directory, the list of sub-directories and
    the GTID set of the meta stay as they are, and the loop continues with
    the new streamer and the flag cleared, or returns the error of the
    reopening. *)
Theorem purged_other_flavor (l : Locals) (err : error) (st : St) :
  Flavor (cfg st) ≠ MySQLFlavor →
  IsErrBinlogPurged err = true →
  retrySyncGTIDs st = (st, Ok tt)
  ∧ (tryReSync l && EnableGTID (cfg st) && AutoFixGTID (cfg st) = false →
     iteration l (GetEventErr err) st
     = (set_counters (count_read_error (counters st)) (refused st),
        Fail (Trace err)))
  ∧ (tryReSync l && EnableGTID (cfg st) && AutoFixGTID (cfg st) = true →
     iteration l (GetEventErr err) st
     = match reopenStreamer (resyncing st) with
       | (st2, Ok s) => (st2, Ok (Continue (set_tryReSync false (set_streamer s l))))
       | (st2, Fail e) => (st2, Fail (Annotate e "try auto switch with GTID"))
       | (st2, Panic) => (st2, Panic)
       end)
  ∧ dirs (fst (reopenStreamer (resyncing st))) = dirs st.
Proof.
  intros Hf Hp.
  assert (Hc : CauseOf err = ErrBinlogPurged)
    by (unfold IsErrBinlogPurged in Hp; apply bool_decide_eq_true_1 in Hp; exact Hp).
  split; [apply retrySyncGTIDs_other_flavor; exact Hf |].
  split; [| split].
  - intros Hcond. unfold iteration. rewrite Hc. run. rewrite Hp.
    destruct st; simpl in *. rewrite Hcond. reflexivity.
  - intros Hcond. unfold iteration. rewrite Hc.
    unfold bind at 1. unfold observe at 1, modify. cbv beta iota zeta.
    unfold bind at 1. unfold gets at 1. cbv beta iota zeta.
    assert (Hcfg : cfg (set_trace (trace st ++ [ObsGetEvent false]) st) = cfg st)
      by (destruct st; reflexivity).
    rewrite Hcfg, Hp, Hcond. cbn [andb].
    unfold reSyncBinlog.
    unfold bind at 1. unfold onerr at 1.
    unfold bind at 1. unfold observe at 1, modify. cbv beta iota zeta.
    unfold bind at 1. unfold onerr at 1.
    rewrite retrySyncGTIDs_other_flavor by (destruct st; exact Hf).
    assert (Hst : set_trace
              (trace (set_trace (trace st ++ [ObsGetEvent false]) st) ++ [ObsReSync])
              (set_trace (trace st ++ [ObsGetEvent false]) st) = resyncing st)
      by (destruct st; reflexivity).
    rewrite Hst.
    destruct (reopenStreamer (resyncing st)) as [st2 [s | e |]]; reflexivity.
  - rewrite (reopenStreamer_dirs (resyncing st)). destruct st; reflexivity.
Qed.

End OtherFlavor.

(** The theorem under MariaDB with the flag cleared: the run returns the
    purged-logs error. *)
Lemma purged_other_flavor_witness :
  @iteration sample_env (set_tryReSync false sample_locals)
    (GetEventErr (Root ErrBinlogPurged)) (streaming true true MariaDBFlavor)
  = (set_counters (count_read_error (counters (streaming true true MariaDBFlavor)))
       (refused (streaming true true MariaDBFlavor)),
     Fail (Trace (Root ErrBinlogPurged))).
Proof.
  assert (Hf : Flavor (cfg (streaming true true MariaDBFlavor)) ≠ MySQLFlavor)
    by discriminate.
  exact (proj1 (proj2 (@purged_other_flavor sample_env
                         (set_tryReSync false sample_locals)
                         (Root ErrBinlogPurged)
                         (streaming true true MariaDBFlavor) Hf eq_refl))
           eq_refl).
Defined.

(** C9, as the claim has it: under MariaDB a purged-logs error would make
    the run exit with that error.  In GTID mode with auto-fix the run goes
    on: after the fake rotate and the FormatDescriptionEvent, the
    purged-logs error reopens the streamer and the next event is written. *)
Lemma mariadb_run_survives_purged :
  Flavor (cfg (fresh true true MariaDBFlavor)) = MariaDBFlavor ∧
  (∃ l, snd (@process sample_env mariadb_script (fresh true true MariaDBFlavor))
        = Ok (Waiting l)) ∧
  content (fst (@process sample_env mariadb_script (fresh true true MariaDBFlavor)))
    "relay/0-101/mysql-bin.000001"
  = BinLogFileHeader ++ replicate 20 Byte.x01 ++ replicate 21 Byte.x05.
Proof.
  split; [reflexivity |]. split.
  - vm_compute. eexists. reflexivity.
  - vm_compute. reflexivity.
Qed.

(** ** The file writer: a FormatDescriptionEvent *)

Lemma nonempty_length (s : string) : s ≠ "" → String.length s ≠ 0.
Proof. destruct s; [congruence | discriminate]. Qed.

Lemma write_at_end (c data : bytes) : write_at c (length c) data = c ++ data.
Proof.
  unfold write_at. rewrite take_ge by lia. rewrite drop_ge by lia.
  replace (length c - length c) with 0 by lia. cbn. rewrite app_nil_r. reflexivity.
Qed.

Section FormatDescription.
Context `{Env}.

Lemma handleFormatDescriptionEvent_meta (name : string) :
  preserves (same meta) (handleFormatDescriptionEvent name).
Proof.
  unfold handleFormatDescriptionEvent, writeBinlogHeaderIfNotExists,
    checkFormatDescriptionEventExists, ParseSingleEvent, os_OpenFile, meta_Dir,
    fd_Read, fd_Seek, fd_Write, fd_Close, inc_binlogReadError,
    inc_relayLogDataCorruption.
  frame.
Qed.

(** On a file that starts with the magic, with no failing call: the file
    is left as it is and the answer is what the parser finds after the
    magic. *)
Lemma handleFormatDescriptionEvent_existing (name : string) (st : St)
    (c : bytes) (eof : bool) :
  name ≠ "" → faults st = [] →
  fs st !! binlog_path st name = Some c → has_header c →
  parse_event (drop 4 c) = (eof, None) →
  handleFormatDescriptionEvent name st
  = (opened (binlog_path st name) (length c) st, Ok (negb eof)).
Proof.
  intros Hname Hq Hc Hh Hparse. unfold binlog_path, has_header in *.
  open_state st. subst.
  unfold handleFormatDescriptionEvent, writeBinlogHeaderIfNotExists,
    checkFormatDescriptionEventExists, ParseSingleEvent, os_OpenFile, meta_Dir,
    fd_Read, fd_Seek, fd_Write, fd_Close, content, binlogHeaderSize, opened.
  run.
  rewrite (bool_decide_eq_false_2 _ (nonempty_length name Hname)).
  destruct eof, f0 as [f |]; simpl;
    repeat (progress (rewrite ?Hc, ?drop_0, ?Hh, ?Hparse; simpl));
    reflexivity.
Qed.

(** C6: for a FormatDescriptionEvent, when
    [handleFormatDescriptionEvent] answers that the file already has one,
    the iteration ends there: nothing is written after it and the meta is
    the one before the event; when it answers that there is none, the
    iteration goes on to the write and the save.  On a file that starts
    with the magic and with no failing call, the answer is "exists" exactly
    when the parser finds an event after the magic without meeting the end
    of the file: then the file and the meta stay as they are; when the
    parser meets the end of the file, the raw bytes of the event are
    appended and the meta is saved. *)
Theorem duplicate_format_description (l : Locals) (e : BinlogEvent) (st : St) :
  Event_ e = FormatDescriptionEvent →
  let l1 := set_tryReSync true l in
  let name := Name (lastPos l) in
  let path := binlog_path st name in
  (∀ st2, handleFormatDescriptionEvent name (received st) = (st2, Ok true) →
     iteration l (GotEvent e) st = (st2, Ok (Continue l1)) ∧ meta st2 = meta st)
  ∧ (∀ st2, handleFormatDescriptionEvent name (received st) = (st2, Ok false) →
     iteration l (GotEvent e) st = write_and_save l1 e st2)
  ∧ (∀ c, name ≠ "" → faults st = [] → fs st !! path = Some c → has_header c →
     (parse_event (drop 4 c) = (false, None) →
      iteration l (GotEvent e) st
      = (opened path (length c) (received st), Ok (Continue l1)))
     ∧ (parse_event (drop 4 c) = (true, None) →
        ∃ st2 l2,
          iteration l (GotEvent e) st = (st2, Ok (Continue l2))
          ∧ content st2 path = c ++ RawData e
          ∧ position (mem (meta st2)) = lastPos l2
          ∧ dirty (meta st2) = true)).
Proof.
  intros Hev l1 name path.
  assert (Hyes : ∀ st2, handleFormatDescriptionEvent name (received st) = (st2, Ok true) →
            iteration l (GotEvent e) st = (st2, Ok (Continue l1))).
  { intros st2 Hh. unfold iteration, classify. rewrite Hev.
    unfold bind at 1. unfold observe at 1, modify. cbv beta iota zeta.
    fold (received st). unfold bind, onerr. cbn [set_tryReSync lastPos Name].
    fold name. rewrite Hh. reflexivity. }
  assert (Hno : ∀ st2, handleFormatDescriptionEvent name (received st) = (st2, Ok false) →
            iteration l (GotEvent e) st = write_and_save l1 e st2).
  { intros st2 Hh. unfold iteration, classify. rewrite Hev.
    unfold bind at 1. unfold observe at 1, modify. cbv beta iota zeta.
    fold (received st). unfold bind, onerr. cbn [set_tryReSync lastPos Name].
    fold name. rewrite Hh. reflexivity. }
  split; [| split; [exact Hno |]].
  - intros st2 Hh. split; [exact (Hyes st2 Hh) |].
    pose proof (handleFormatDescriptionEvent_meta name (received st)) as Hm.
    rewrite Hh in Hm. unfold same in Hm. cbn [fst] in Hm. rewrite Hm.
    destruct st; reflexivity.
  - intros c Hname Hq Hc Hh.
    assert (Hpath : binlog_path (received st) name = path) by (destruct st; reflexivity).
    assert (Hq' : faults (received st) = []) by (destruct st; exact Hq).
    assert (Hc' : fs (received st) !! binlog_path (received st) name = Some c)
      by (rewrite Hpath; destruct st; exact Hc).
    split; intros Hparse;
      pose proof (handleFormatDescriptionEvent_existing name (received st) c _
                    Hname Hq' Hc' Hh Hparse) as Hrun;
      rewrite Hpath in Hrun; cbn [negb] in Hrun.
    + exact (Hyes _ Hrun).
    + rewrite (Hno _ Hrun).
      clear Hrun Hyes Hno Hc' Hq' Hpath. subst path name.
      unfold binlog_path in *. open_state st. subst.
      unfold write_and_save, fd_Write, meta_Save, opened, received, content.
      run. rewrite Hc. simpl.
      rewrite bool_decide_eq_false_2 by (intros Hn; apply Hn; reflexivity).
      simpl. eexists _, _. split; [reflexivity |]. simpl.
      rewrite lookup_insert_eq. simpl. rewrite write_at_end.
      destruct (EnableGTID c0); simpl; auto.
Qed.

End FormatDescription.

(** The theorem at a restart on a file that already holds its
    FormatDescriptionEvent: the duplicate is swallowed. *)
Lemma duplicate_format_description_witness :
  @iteration sample_env sample_locals (GotEvent format_description) resumed
  = (opened sample_path 24 (received resumed), Ok (Continue sample_locals)).
Proof.
  assert (Hname : "mysql-bin.000001" ≠ "") by discriminate.
  exact (proj1 (proj2 (proj2 (@duplicate_format_description sample_env sample_locals
                                format_description resumed eq_refl))
                  (BinLogFileHeader ++ replicate 20 Byte.x01)
                  Hname eq_refl eq_refl eq_refl)
           eq_refl).
Defined.

(** ** Header integrity *)

Global Instance steps_preorder : PreOrder steps.
Proof.
  split.
  - intros st Hok. split; [exact Hok | intros p; left; reflexivity].
  - intros a b c Hab Hbc Hok.
    destruct (Hab Hok) as [Hokb Hab2]. destruct (Hbc Hokb) as [Hokc Hbc2].
    split; [exact Hokc |].
    intros p. destruct (Hbc2 p) as [Heq | Hh]; [| right; exact Hh].
    rewrite Heq. apply Hab2.
Qed.

Lemma steps_same (st st' : St) : files st' = files st → steps st st'.
Proof.
  unfold files. intros Heq. injection Heq as Hfs Hfd. intros Hok. split.
  - unfold fd_ok in *. rewrite Hfs, Hfd. exact Hok.
  - intros p. left. rewrite Hfs. reflexivity.
Qed.

Ltac frame_leaf ::= first [reflexivity | apply steps_same; reflexivity].

Lemma has_header_length (c : bytes) : has_header c → 4 ≤ length c.
Proof.
  unfold has_header. intros Hh. apply (f_equal length) in Hh.
  rewrite length_take in Hh. change (length BinLogFileHeader) with 4 in Hh. lia.
Qed.

Lemma has_header_write_at (c data : bytes) (off : nat) :
  has_header c → 4 ≤ off → has_header (write_at c off data).
Proof.
  intros Hh Hoff. pose proof (has_header_length c Hh) as Hlen.
  unfold has_header, write_at in *.
  rewrite take_app_le by (rewrite length_take; lia).
  rewrite take_take. replace (4 `min` off) with 4 by lia. exact Hh.
Qed.

Lemma has_header_written (c : bytes) : has_header (write_at c 0 BinLogFileHeader).
Proof. unfold has_header, write_at. destruct c; reflexivity. Qed.

Lemma write_at_start (c : bytes) (k : nat) :
  write_at c 0 (take k BinLogFileHeader)
  = take (k `min` 4) BinLogFileHeader ++ drop (k `min` 4) c.
Proof.
  unfold write_at. cbn [take zeros replicate Nat.sub app].
  rewrite length_take. cbn [length BinLogFileHeader Nat.add].
  rewrite <- take_take. rewrite (take_ge BinLogFileHeader 4) by (cbn; lia).
  reflexivity.
Qed.

(** A header written again over a file that has it changes nothing. *)
Lemma half_written_headed (c : bytes) (k : nat) :
  has_header c → k ≤ 4 → take k BinLogFileHeader ++ drop k c = c.
Proof.
  unfold has_header. intros Hh Hk. rewrite <- Hh.
  rewrite take_take. replace (k `min` 4) with k by lia. apply take_drop.
Qed.

(** *** The methods of [r.fd], on the files and the open file *)

Lemma fd_Write_files (data : bytes) (st : St) (f : File) :
  fd st = Some f → f_closed f = false →
  ∃ put err,
    snd (fd_Write data st) = Ok (length put, err)
    ∧ (err = None → put = data)
    ∧ (∃ k, put = take k data)
    ∧ files (fst (fd_Write data st))
      = (<[f_path f := write_at (content st (f_path f)) (f_off f) put]> (fs st),
         Some (set_off f (f_off f + length put))).
Proof.
  intros Hfd Hopen. open_state st. subst. unfold fd_Write. run.
  rewrite Hopen. simpl. destruct flt0 as [| [| k] flt]; simpl.
  - exists data, None. repeat split; auto. exists (length data).
    rewrite take_ge; auto.
  - exists data, None. repeat split; auto. exists (length data).
    rewrite take_ge; auto.
  - exists (take k data), (Some (Root ErrSyscall)). repeat split; eauto.
    discriminate.
Qed.

Lemma fd_Write_unusable (data : bytes) (st : St) :
  (∀ f, fd st = Some f → f_closed f = true) →
  ∃ err, fd_Write data st = (st, Ok (0, Some err)).
Proof.
  intros Hfd. open_state st. unfold fd_Write. run.
  destruct f0 as [f |]; simpl; [rewrite (Hfd f eq_refl) |]; eauto.
Qed.

Lemma fd_Seek_ok (whence : Whence) (st st' : St) (f : File) (n : nat) :
  fd st = Some f → f_closed f = false →
  fd_Seek whence st = (st', Ok n) →
  files st' = (fs st, Some (set_off f n))
  ∧ n = match whence with SeekStart => 0 | SeekEnd => length (content st (f_path f)) end.
Proof.
  intros Hfd Hopen. open_state st. subst. unfold fd_Seek. run.
  rewrite Hopen. simpl. destruct flt0 as [| [| k] flt]; simpl; intros Heq;
    simplify_eq; auto.
Qed.

Lemma fd_Seek_fail (whence : Whence) (st : St) :
  (∀ n, snd (fd_Seek whence st) ≠ Ok n) → files (fst (fd_Seek whence st)) = files st.
Proof.
  open_state st. unfold fd_Seek. run.
  destruct f0 as [f |]; simpl; [| reflexivity].
  destruct (f_closed f); simpl; [reflexivity |].
  destruct flt0 as [| [| k] flt]; simpl; intros Hn; try reflexivity;
    exfalso; eapply Hn; reflexivity.
Qed.

Lemma fd_Read_files (n : nat) (st : St) (f : File) :
  fd st = Some f → f_closed f = false →
  ∃ b err off,
    snd (fd_Read n st) = Ok (b, err)
    ∧ files (fst (fd_Read n st)) = (fs st, Some (set_off f off))
    ∧ (err = None →
       b = take n (drop (f_off f) (content st (f_path f)))
           ++ zeros (n - length (take n (drop (f_off f) (content st (f_path f)))))).
Proof.
  intros Hfd Hopen. open_state st. subst. unfold fd_Read. run.
  rewrite Hopen. simpl. destruct flt0 as [| [| k] flt]; simpl.
  - eexists _, _, _. repeat split; eauto.
  - eexists _, _, _. repeat split; eauto.
  - eexists _, _, _. repeat split; eauto. discriminate.
Qed.

(** A buffer of four bytes that holds the magic was filled by four bytes
    of the file: the magic has no zero byte. *)
Lemma read_header (c : bytes) :
  take 4 c ++ zeros (4 - length (take 4 c)) = BinLogFileHeader → has_header c.
Proof.
  unfold has_header.
  unfold BinLogFileHeader.
  destruct c as [| a [| b [| d [| e c]]]]; cbn; rewrite ?take_0; cbn;
    intros Heq; simplify_eq; reflexivity.
Qed.

Lemma content_same (st st' : St) (p : string) :
  fs st' = fs st → content st' p = content st p.
Proof. unfold content. intros ->. reflexivity. Qed.

(** [writeBinlogHeaderIfNotExists] on a file just opened: the file is as it
    was, or the magic (or, on a failed write, a part of it) was written at
    its start; after a success the file starts with the magic. *)
Lemma writeBinlogHeaderIfNotExists_files (st st' : St) (r : result unit) (f : File) :
  fd st = Some f → f_closed f = false → f_off f = 0 →
  writeBinlogHeaderIfNotExists st = (st', r) →
  (∃ off, fd st' = Some (set_off f off))
  ∧ (fs st' = fs st
     ∨ ∃ k, k ≤ 4 ∧
         fs st' = <[f_path f := take k BinLogFileHeader ++ drop k (content st (f_path f))]> (fs st))
  ∧ (r = Ok tt → has_header (content st' (f_path f))).
Proof.
  intros Hfd Hopen Hoff Hrun.
  destruct (fd_Read_files binlogHeaderSize st f Hfd Hopen)
    as (b & err & off & Hr & Hfiles & Hb).
  unfold writeBinlogHeaderIfNotExists in Hrun. unfold bind at 1 in Hrun.
  destruct (fd_Read binlogHeaderSize st) as [st1 r1]. cbn [fst snd] in *. subst r1.
  injection Hfiles as Hfs1 Hfd1.
  destruct (bool_decide (err = Some (Root EOF)) || negb (bool_decide (b = BinLogFileHeader)))
    eqn:Hcond.
  - unfold bind at 1 in Hrun. unfold onerr in Hrun.
    pose proof (fd_Seek_ok SeekStart st1) as Hseek_ok.
    pose proof (fd_Seek_fail SeekStart st1) as Hseek_fail.
    destruct (fd_Seek SeekStart st1) as [st2 [n | e |]] eqn:Hseek; cbn [fst snd] in *.
    + destruct (Hseek_ok st2 (set_off f off) n Hfd1 Hopen eq_refl) as [Hfiles2 ->].
      injection Hfiles2 as Hfs2 Hfd2. cbn in Hfd2.
      destruct (fd_Write_files BinLogFileHeader st2 _ Hfd2 Hopen)
        as (put & werr & Hw & Hput & [k Hk] & Hfiles3).
      unfold bind in Hrun. destruct (fd_Write BinLogFileHeader st2) as [st3 r3].
      cbn [fst snd] in *. subst r3. injection Hfiles3 as Hfs3 Hfd3.
      cbn [f_path f_off set_off] in *.
      assert (Hc : content st2 (f_path f) = content st (f_path f))
        by (apply content_same; congruence).
      rewrite Hc in Hfs3. rewrite Hfs2, Hfs1 in Hfs3.
      destruct werr as [e |]; unfold fail, ret in Hrun; simplify_eq.
      * split; [eexists; exact Hfd3 |]. split; [| discriminate].
        right. exists (k `min` 4). split; [lia |].
        rewrite Hfs3, write_at_start. reflexivity.
      * specialize (Hput eq_refl).
        split; [eexists; exact Hfd3 |]. split.
        -- right. exists 4. split; [lia |]. rewrite Hfs3, Hput.
           rewrite <- (write_at_start _ 4). reflexivity.
        -- intros _. unfold content. rewrite Hfs3, lookup_insert_eq. cbn.
           rewrite Hput. apply has_header_written.
    + specialize (Hseek_fail ltac:(discriminate)). injection Hseek_fail as Hfs2 Hfd2.
      simplify_eq.
      split; [exists off; congruence |]. split; [left; congruence | discriminate].
    + specialize (Hseek_fail ltac:(discriminate)). injection Hseek_fail as Hfs2 Hfd2.
      simplify_eq.
      split; [exists off; congruence |]. split; [left; congruence | discriminate].
  - apply orb_false_iff in Hcond as [_ Hcond].
    apply negb_false_iff, bool_decide_eq_true_1 in Hcond.
    destruct err as [e |].
    + unfold inc_relayLogDataCorruption, bind, modify, fail in Hrun. simplify_eq.
      split; [exists off; destruct st1; exact Hfd1 |].
      split; [left; destruct st1; exact Hfs1 | discriminate].
    + unfold ret in Hrun. simplify_eq.
      split; [exists off; exact Hfd1 |]. split; [left; exact Hfs1 |].
      intros _. rewrite (content_same st st') by exact Hfs1.
      apply read_header. rewrite Hoff in Hb. rewrite drop_0 in Hb.
      specialize (Hb eq_refl). unfold binlogHeaderSize in Hb. congruence.
Qed.

(** *** Taking a computation apart *)

Lemma bind_inv {A B} (m : M A) (k : A → M B) (st st' : St) (r : result B) :
  bind m k st = (st', r) →
  (∃ st1 a, m st = (st1, Ok a) ∧ k a st1 = (st', r))
  ∨ (∃ e, m st = (st', Fail e) ∧ r = Fail e)
  ∨ (m st = (st', Panic) ∧ r = Panic).
Proof.
  unfold bind. destruct (m st) as [st1 [a | e |]]; intros Heq.
  - left. eauto.
  - right. left. simplify_eq. eauto.
  - right. right. simplify_eq. eauto.
Qed.

Lemma onerr_inv {A} (h : error → error) (m : M A) (st st' : St) (r : result A) :
  onerr h m st = (st', r) →
  ∃ r0, m st = (st', r0) ∧ (∀ a, r = Ok a ↔ r0 = Ok a).
Proof.
  unfold onerr. destruct (m st) as [st1 [a | e |]]; intros Heq; simplify_eq;
    eexists; (split; [reflexivity |]); intros a'; split; congruence.
Qed.

Lemma headed_content (st : St) (p : string) :
  has_header (content st p) → headed (fs st !! p).
Proof.
  unfold content, headed. destruct (fs st !! p) as [c |]; cbn; [eauto |].
  unfold has_header. cbn. discriminate.
Qed.

Lemma created_half_written (st st1 : St) (path : string) :
  content st1 path = content st path → fs st1 !! path = Some [] →
  half_written (fs st !! path) (fs st1 !! path).
Proof.
  intros Hc Hs. exists 0. split; [lia |]. rewrite Hs.
  unfold content in Hc. rewrite Hs in Hc. cbn in Hc.
  change (take 0 BinLogFileHeader) with (@nil Byte.byte). cbn [app].
  rewrite drop_0, <- Hc. reflexivity.
Qed.

(** [handleFormatDescriptionEvent] starts by dropping the file it held. *)
Lemma drop_previous_file {A} (k : M A) (st : St) :
  (do ofd <- gets fd;
   match ofd with
   | Some _ => fd_Close ;; modify (set_fd None)
   | None => ret tt
   end ;; k) st = k (set_fd None st).
Proof. open_state st. destruct f0; reflexivity. Qed.

Lemma os_OpenFile_files (path : string) (st st' : St) (r : result File) :
  os_OpenFile path st = (st', r) →
  fd st' = fd st
  ∧ (∀ p, p ≠ path → fs st' !! p = fs st !! p)
  ∧ content st' path = content st path
  ∧ (fs st' !! path = fs st !! path ∨ fs st' !! path = Some [])
  ∧ (∀ f, r = Ok f →
       f = {| f_path := path; f_off := 0; f_closed := false |}).
Proof.
  open_state st. unfold os_OpenFile, content. run.
  destruct flt0 as [| [| k] flt]; simpl;
    destruct (fs0 !! path) eqn:Hp; simpl; intros Heq; simplify_eq; simpl;
    rewrite ?Hp, ?lookup_insert_eq; simpl;
    (repeat split; auto; try (intros; simplify_eq; reflexivity);
     intros p Hne; rewrite lookup_insert_ne by congruence; reflexivity).
Qed.

Section Writer.
Context `{Env}.

Lemma probe_files (name : string) (note : error → error) :
  preserves (same files)
    (onerr note
       (do r <- try (checkFormatDescriptionEventExists name);
        match r with
        | inr e => inc_relayLogDataCorruption ;; fail e
        | inl b => ret b
        end)).
Proof.
  unfold checkFormatDescriptionEventExists, ParseSingleEvent,
    inc_relayLogDataCorruption.
  frame.
Qed.

(** [handleFormatDescriptionEvent] touches one file; when it succeeds the
    file starts with the magic and [r.fd] is open at its end. *)
Lemma handleFormatDescriptionEvent_files (name : string) (st st' : St)
    (r : result bool) :
  handleFormatDescriptionEvent name st = (st', r) →
  (∀ p, touched (fs st !! p) (fs st' !! p))
  ∧ (∀ b, r = Ok b →
       ∃ c, fs st' !! binlog_path st name = Some c ∧ has_header c
            ∧ fd st' = Some {| f_path := binlog_path st name; f_off := length c;
                               f_closed := false |}
            ∧ ∀ p, p ≠ binlog_path st name → fs st' !! p = fs st !! p).
Proof.
  intros Hrun. unfold handleFormatDescriptionEvent in Hrun.
  rewrite drop_previous_file in Hrun.
  assert (Hfs0 : fs (set_fd None st) = fs st) by (destruct st; reflexivity).
  case_bool_decide as Hlen.
  { unfold inc_binlogReadError, bind, modify, fail in Hrun. simplify_eq. split.
    - intros p. left. destruct st; reflexivity.
    - discriminate. }
  apply bind_inv in Hrun as [(st1 & dir & Hdir & Hrun) | [(e & Hdir & _) | [Hdir _]]];
    unfold meta_Dir, gets in Hdir; simplify_eq.
  cbv zeta in Hrun. fold (binlog_path st name) in Hrun.
  set (path := binlog_path st name) in *.
  apply bind_inv in Hrun as [(st1 & f & Hopen & Hrun) | [(e & Hopen & ->) | [Hopen ->]]];
    apply onerr_inv in Hopen as (r0 & Hopen & Hr0);
    apply os_OpenFile_files in Hopen as (Hfd1 & Hother1 & Hc1 & Hfs1 & Hf);
    rewrite (content_same st (set_fd None st)) in Hc1 by exact Hfs0;
    rewrite Hfs0 in Hfs1.
  2, 3: split; [| discriminate]; intros p;
    destruct (decide (p = path)) as [-> | Hne];
    [ destruct Hfs1 as [Hfs1 | Hfs1];
      [ left; exact Hfs1
      | right; right; apply (created_half_written st st'); assumption ]
    | left; rewrite Hother1, Hfs0 by exact Hne; reflexivity ].
  pose proof (Hf f (proj1 (Hr0 f) eq_refl)) as ->. clear Hf Hr0 r0.
  apply bind_inv in Hrun as [(st2 & [] & Hset & Hrun) | [(e & Hset & _) | [Hset _]]];
    unfold modify in Hset; simplify_eq.
  set (f := {| f_path := path; f_off := 0; f_closed := false |}) in *.
  assert (Hfs2 : fs (set_fd (Some f) st1) = fs st1) by (destruct st1; reflexivity).
  assert (Hfd2 : fd (set_fd (Some f) st1) = Some f) by (destruct st1; reflexivity).
  (* the file at [path] once the header step is over *)
  assert (Hheader : ∀ st3 r3,
            writeBinlogHeaderIfNotExists (set_fd (Some f) st1) = (st3, r3) →
            (∃ off, fd st3 = Some (set_off f off))
            ∧ (∀ p, p ≠ path → fs st3 !! p = fs st !! p)
            ∧ touched (fs st !! path) (fs st3 !! path)
            ∧ (r3 = Ok tt → headed (fs st3 !! path))).
  { intros st3 r3 Hw.
    destruct (writeBinlogHeaderIfNotExists_files _ _ _ f Hfd2 eq_refl eq_refl Hw)
      as (Hfd3 & Hfs3 & Hok3).
    cbn [f_path f] in *.
    assert (Hc2 : content (set_fd (Some f) st1) path = content st path).
    { rewrite (content_same st1) by exact Hfs2. exact Hc1. }
    rewrite Hc2 in Hfs3.
    split; [exact Hfd3 |]. split; [| split].
    - intros p Hne. destruct Hfs3 as [-> | (k & Hk & ->)];
        rewrite ?lookup_insert_ne by congruence;
        rewrite Hfs2, Hother1, Hfs0 by exact Hne; reflexivity.
    - destruct Hfs3 as [-> | (k & Hk & ->)].
      + rewrite Hfs2. destruct Hfs1 as [Hfs1 | Hfs1]; [left; exact Hfs1 |].
        right. right. apply (created_half_written st st1); assumption.
      + right. right. exists k. split; [exact Hk |].
        rewrite lookup_insert_eq. reflexivity.
    - intros Hr3. apply headed_content. exact (Hok3 Hr3). }
  (* what follows the header step leaves the files as they are *)
  assert (Hrest : ∀ note : error → error,
            preserves (same fs)
              (do exist <-
                 onerr note
                   (do r <- try (checkFormatDescriptionEventExists name);
                    match r with
                    | inl b => ret b
                    | inr e => inc_relayLogDataCorruption ;; fail e
                    end);
               onerr note (fd_Seek SeekEnd) ;; ret exist)).
  { intros note.
    unfold checkFormatDescriptionEventExists, ParseSingleEvent,
      inc_relayLogDataCorruption, fd_Seek.
    frame. }
  apply bind_inv in Hrun as [(st3 & [] & Hw & Hrun) | [(e & Hw & ->) | [Hw ->]]];
    apply onerr_inv in Hw as (r3 & Hw & Hr3);
    destruct (Hheader _ _ Hw) as ((off & Hfd3) & Hother3 & Htouched3 & Hheaded3).
  2, 3: split; [| discriminate]; intros p;
    destruct (decide (p = path)) as [-> | Hne];
    [exact Htouched3 | left; apply Hother3; exact Hne].
  pose proof (Hrest (λ e, Annotate e ("file full path " +:+ path)) st3) as Hfs'. rewrite Hrun in Hfs'. unfold same in Hfs'.
  cbn [fst] in Hfs'.
  split.
  { intros p. rewrite Hfs'. destruct (decide (p = path)) as [-> | Hne];
      [exact Htouched3 | left; apply Hother3; exact Hne]. }
  intros b ->.
  specialize (Hheaded3 (proj1 (Hr3 tt) eq_refl)).
  apply bind_inv in Hrun as [(st4 & b' & Hprobe & Hrun) | [(e & _ & Hn) | [_ Hn]]];
    [| discriminate Hn | discriminate Hn].
  pose proof (probe_files name (λ e, Annotate e ("file full path " +:+ path)) st3)
    as Hfiles4. rewrite Hprobe in Hfiles4.
  unfold same in Hfiles4. cbn [fst] in Hfiles4. injection Hfiles4 as Hfs4 Hfd4.
  apply bind_inv in Hrun as [(st5 & n & Hseek & Hrun) | [(e & _ & Hn) | [_ Hn]]];
    [| discriminate Hn | discriminate Hn].
  apply onerr_inv in Hseek as (r5 & Hseek & Hr5).
  rewrite (proj1 (Hr5 n) eq_refl) in Hseek.
  rewrite Hfd3 in Hfd4.
  destruct (fd_Seek_ok SeekEnd st4 st5 _ n Hfd4 eq_refl Hseek) as [Hfiles5 Hn].
  injection Hfiles5 as Hfs5 Hfd5. cbn [set_off f_path f] in Hn, Hfd5.
  destruct Hheaded3 as (c & Hc & Hh).
  assert (Hlen4 : content st4 path = c)
    by (unfold content; rewrite Hfs4, Hc; reflexivity).
  rewrite Hlen4 in Hn. subst n.
  unfold ret in Hrun. injection Hrun as <- _.
  assert (Hc' : fs st5 !! path = Some c) by (rewrite Hfs5, Hfs4; exact Hc).
  exists c. split; [exact Hc' |]. split; [exact Hh |]. split; [exact Hfd5 |].
  intros p Hne. rewrite Hfs5, Hfs4. apply Hother3. exact Hne.
Qed.

End Writer.

Section Integrity.
Context `{Env}.

(** *** One iteration *)

Lemma fd_Write_steps (data : bytes) : preserves steps (fd_Write data).
Proof.
  intros st Hok.
  destruct (fd st) as [f |] eqn:Hfd.
  - destruct (f_closed f) eqn:Hopen.
    + destruct (fd_Write_unusable data st) as [err ->].
      { intros f' Hf'. congruence. }
      cbn [fst]. split; [exact Hok | intros p; left; reflexivity].
    + destruct (fd_Write_files data st f Hfd Hopen)
        as (put & err & _ & _ & _ & Hfiles).
      injection Hfiles as Hfs' Hfd'.
      destruct (Hok f Hfd Hopen) as [(c & Hc & Hh) Hoff].
      assert (Hcontent : content st (f_path f) = c)
        by (unfold content; rewrite Hc; reflexivity).
      rewrite Hcontent in Hfs'.
      assert (Hnew : headed (fs (fst (fd_Write data st)) !! f_path f)).
      { rewrite Hfs', lookup_insert_eq. eexists. split; [reflexivity |].
        apply has_header_write_at; assumption. }
      split.
      * intros f' Hf' Hopen'. rewrite Hfd' in Hf'. injection Hf' as <-.
        cbn [f_path f_off set_off]. split; [exact Hnew | lia].
      * intros p. destruct (decide (p = f_path f)) as [-> | Hne].
        -- right. exact Hnew.
        -- left. rewrite Hfs', lookup_insert_ne by congruence. reflexivity.
  - destruct (fd_Write_unusable data st) as [err ->].
    { intros f' Hf'. congruence. }
    cbn [fst]. split; [exact Hok | intros p; left; reflexivity].
Qed.

Lemma write_and_save_steps (l : Locals) (e : BinlogEvent) :
  preserves steps (write_and_save l e).
Proof.
  unfold write_and_save, meta_Save, inc_relayLogWriteError.
  pose proof fd_Write_steps. frame.
Qed.

Lemma reSyncBinlog_files : preserves (same files) reSyncBinlog.
Proof.
  unfold reSyncBinlog, observe, retrySyncGTIDs, reopenStreamer, closeBinlogSyncer,
    utils_KillConn, getServerUUID, utils_GetMasterStatus, utils_GetServerUUID,
    utils_GetMariaDBGtidDomainID, utils_GetServerID, db_query, meta_AddDir,
    getBinlogStreamer, startSyncByGTID, startSyncByPos, syncer_start,
    os_Stat, meta_Save, meta_Pos, meta_Dir, meta_GTID.
  frame.
Qed.

Lemma sound_steps {A} (st st' : St) (r : result A) :
  fd_ok st → steps st st' → sound st st' r.
Proof.
  intros Hok Hs. split; [| auto].
  intros p. destruct (Hs Hok) as [_ Hp].
  destruct (Hp p) as [Heq | Hh]; [left | right; left]; assumption.
Qed.

Lemma classify_sound (l : Locals) (e : BinlogEvent) (st st' : St)
    (r : result (Locals + Locals)) :
  fd_ok st → classify l e st = (st', r) → sound st st' r.
Proof.
  intros Hok Hrun. unfold classify in Hrun.
  destruct (Event_ e).
  - apply bind_inv in Hrun as [(st1 & b & Hh & Hrun) | [(e0 & Hh & ->) | [Hh ->]]];
      apply onerr_inv in Hh as (r0 & Hh & Hr0);
      apply handleFormatDescriptionEvent_files in Hh as [Htouched Hsucc].
    + assert (st' = st1) by (destruct b; unfold ret in Hrun; congruence). subst st1.
      split; [exact Htouched |]. intros _ _.
      destruct (Hsucc b (proj1 (Hr0 b) eq_refl)) as (c & Hc & Hhd & Hfd' & Hother).
      split.
      * intros f' Hf' _. rewrite Hfd' in Hf'. injection Hf' as <-.
        cbn [f_path f_off]. split; [exists c; auto |].
        apply has_header_length. exact Hhd.
      * intros p.
        destruct (decide (p = binlog_path st (Name (lastPos l)))) as [-> | Hne].
        -- right. exists c. auto.
        -- left. apply Hother. exact Hne.
    + split; [exact Htouched |]. intros [a Ha]. discriminate.
    + split; [exact Htouched |]. intros [a Ha]. discriminate.
  - apply sound_steps; [exact Hok |].
    assert (st' = st) as ->; [| reflexivity].
    repeat case_match; unfold ret in Hrun; congruence.
  - apply sound_steps; [exact Hok |].
    assert (st' = st) as ->; [| reflexivity].
    repeat case_match; unfold ret, panic in Hrun; congruence.
  - apply sound_steps; [exact Hok |].
    assert (st' = st) as ->; [| reflexivity].
    repeat case_match; unfold ret, panic in Hrun; congruence.
  - apply sound_steps; [exact Hok |].
    assert (st' = st) as ->; [| reflexivity].
    unfold ret in Hrun; congruence.
Qed.

Lemma sound_then {B} (st st1 st' : St) (r : result B) :
  steps st st1 → fd_ok st → sound st1 st' r → sound st st' r.
Proof.
  intros Hs Hok [Htouched Hsucc]. destruct (Hs Hok) as [Hok1 Hp1]. split.
  - intros p. destruct (Hp1 p) as [Heq | (c1 & Hc1 & Hh1)].
    + rewrite <- Heq. apply Htouched.
    + destruct (Htouched p) as [Heq | [Hh | (k & Hk & Hhalf)]].
      * right. left. rewrite Heq. exists c1. auto.
      * right. left. exact Hh.
      * right. left. rewrite Hhalf, Hc1. cbn [default].
        rewrite half_written_headed by assumption. exists c1. auto.
  - intros Ha. etransitivity; [exact Hs | exact (Hsucc Ha)].
Qed.

Lemma iteration_sound (l : Locals) (g : GetEventResult) (st st' : St)
    (r : result Flow) :
  fd_ok st → iteration l g st = (st', r) → sound st st' r.
Proof.
  intros Hok Hrun. destruct g as [e | err].
  - unfold iteration in Hrun.
    apply bind_inv in Hrun as [(st0 & [] & Hobs & Hrun) | [(e0 & Hobs & _) | [Hobs _]]];
      unfold observe, modify in Hobs; simplify_eq.
    assert (Hs0 : steps st (set_trace (trace st ++ [ObsGetEvent true]) st))
      by (apply steps_same; destruct st; reflexivity).
    apply (sound_then _ _ _ _ Hs0 Hok).
    destruct (Hs0 Hok) as [Hok0 _].
    apply bind_inv in Hrun as [(st1 & x & Hcl & Hrun) | [(e0 & Hcl & ->) | [Hcl ->]]];
      apply (classify_sound _ _ _ _ _ Hok0) in Hcl as Hsound.
    + destruct Hsound as [Htouched Hsucc]. specialize (Hsucc (ex_intro _ x eq_refl)).
      destruct (Hsucc Hok0) as [Hok1 _].
      apply (sound_then _ _ _ _ Hsucc Hok0).
      destruct x as [l' | l'].
      * unfold ret in Hrun. simplify_eq. apply sound_steps; [exact Hok1 | reflexivity].
      * apply sound_steps; [exact Hok1 |].
        pose proof (write_and_save_steps l' e st1) as Hw.
        rewrite Hrun in Hw. exact Hw.
    + destruct Hsound as [Htouched _]. split; [exact Htouched |].
      intros [a Ha]. discriminate.
    + destruct Hsound as [Htouched _]. split; [exact Htouched |].
      intros [a Ha]. discriminate.
  - apply sound_steps; [exact Hok |]. apply steps_same.
    assert (Hf : preserves (same files) (iteration l (GetEventErr err))).
    { unfold iteration, observe, inc_relayLogDataCorruption, inc_binlogReadError.
      pose proof reSyncBinlog_files. frame. }
    specialize (Hf st). rewrite Hrun in Hf. exact Hf.
Qed.

(** *** The loop and [process] *)

Lemma loop_sound (script : list GetEventResult) :
  ∀ (l : Locals) (st st' : St) (r : result LoopEnd),
    fd_ok st → loop l script st = (st', r) → sound st st' r.
Proof.
  induction script as [| g rest IH]; intros l st st' r Hok Hrun.
  - cbn [loop] in Hrun. unfold ret in Hrun. simplify_eq.
    apply sound_steps; [exact Hok | reflexivity].
  - cbn [loop] in Hrun.
    apply bind_inv in Hrun as [(st1 & f & Hit & Hrun) | [(e & Hit & ->) | [Hit ->]]];
      apply (iteration_sound _ _ _ _ _ Hok) in Hit as [Htouched Hsucc].
    + specialize (Hsucc (ex_intro _ f eq_refl)). destruct (Hsucc Hok) as [Hok1 _].
      apply (sound_then _ _ _ _ Hsucc Hok).
      destruct f as [l1 |].
      * exact (IH l1 st1 st' r Hok1 Hrun).
      * unfold ret in Hrun. simplify_eq. apply sound_steps; [exact Hok1 | reflexivity].
    + split; [exact Htouched |]. intros [a Ha]. discriminate.
    + split; [exact Htouched |]. intros [a Ha]. discriminate.
Qed.

End Integrity.

Section Run.
Context `{Env}.

Lemma prelude_step {A B} (m : M A) (k : A → M B) (s st' : St) (r : result B) :
  preserves (same files) m → bind m k s = (st', r) →
  (files st' = files s ∧ ∀ b, r ≠ Ok b)
  ∨ ∃ a s1, files s1 = files s ∧ k a s1 = (st', r).
Proof.
  intros Hm Hb. specialize (Hm s). unfold same in Hm.
  apply bind_inv in Hb as [(s1 & a & Hs1 & Hk) | [(e & Hs1 & ->) | [Hs1 ->]]];
    rewrite Hs1 in Hm; cbn [fst] in Hm.
  - right. eauto.
  - left. split; [exact Hm | discriminate].
  - left. split; [exact Hm | discriminate].
Qed.

Lemma fd_ok_same (st st' : St) : files st' = files st → fd_ok st → fd_ok st'.
Proof. intros Hf Hok. exact (proj1 (steps_same st st' Hf Hok)). Qed.

Lemma closed_on_return (s : St) (f : File) :
  fd (fst ((do ofd <- gets fd;
            match ofd with
            | Some _ => fd_Close
            | None => ret tt
            end) s)) = Some f →
  f_closed f = true.
Proof.
  open_state s. unfold fd_Close. run.
  destruct f0; simpl; intros Heq; simplify_eq; reflexivity.
Qed.

(** C1 (as amended): when [handleFormatDescriptionEvent] succeeds, the
    file it opened starts with the magic [FE 62 69 6E] and [r.fd] is open at
    its end, so that the event bytes are written after the magic.  A file
    without the magic is not only there between the open and the first
    write: a failed run can leave one behind.  Over a whole run of
    [process], started with no open file or with one that has the magic,
    every file is at the end as it was before the run, or starts with the
    magic; the one exception is a run that ended on an error (or a panic):
    then a file may be left as it was with a part of the magic written
    over its start, no event byte appended to it.  At the end of the run, or
    while the loop waits for the next event, the open file, if any, starts
    with the magic: the next run starts as this one did. *)
Theorem header_integrity :
  (∀ name st st' b,
     handleFormatDescriptionEvent name st = (st', Ok b) →
     ∃ c, fs st' !! binlog_path st name = Some c
          ∧ take 4 c = BinLogFileHeader
          ∧ fd st' = Some {| f_path := binlog_path st name; f_off := length c;
                             f_closed := false |})
  ∧ (∀ script st st' r,
       fd_ok st → process script st = (st', r) →
       (∀ p, fs st' !! p = fs st !! p
             ∨ headed (fs st' !! p)
             ∨ ((∀ a, r ≠ Ok a) ∧ half_written (fs st !! p) (fs st' !! p)))
       ∧ fd_ok st').
Proof.
  split.
  - intros name st st' b Hrun.
    apply handleFormatDescriptionEvent_files in Hrun as [_ Hsucc].
    destruct (Hsucc b eq_refl) as (c & Hc & Hh & Hfd & _). eauto.
  - intros script st st' r Hok Hrun. unfold process in Hrun.
    assert (Hstop : ∀ s, files s = files st → files st' = files s →
              (∀ a, r ≠ Ok a) →
              (∀ p, fs st' !! p = fs st !! p ∨ headed (fs st' !! p)
                    ∨ ((∀ a, r ≠ Ok a) ∧ half_written (fs st !! p) (fs st' !! p)))
              ∧ fd_ok st').
    { intros s Hs Hs' Hr. rewrite Hs in Hs'. split.
      - intros p. left. unfold files in Hs'.
        injection Hs' as Hfs _. rewrite Hfs. reflexivity.
      - exact (fd_ok_same st st' Hs' Hok). }
    apply prelude_step in Hrun as [[Hf Hr] | (uuid & s1 & Hs1 & Hrun)];
      [eapply Hstop; eauto | | unfold meta_UUID; frame].
    apply prelude_step in Hrun as [[Hf Hr] | ([] & s2 & Hs2 & Hrun)];
      [eapply (Hstop s1); eauto | |].
    2:{ unfold reSetupMeta, getServerUUID, utils_GetServerUUID,
          utils_GetMariaDBGtidDomainID, utils_GetServerID, db_query, meta_AddDir,
          meta_Load.
        frame. }
    rewrite Hs1 in Hs2.
    apply prelude_step in Hrun as [[Hf Hr] | (s & s3 & Hs3 & Hrun)];
      [eapply (Hstop s2); eauto | |].
    2:{ unfold getBinlogStreamer, startSyncByGTID, startSyncByPos, syncer_start,
          os_Stat, meta_Save, meta_Pos, meta_Dir, meta_GTID.
        frame. }
    rewrite Hs2 in Hs3.
    apply prelude_step in Hrun as [[Hf Hr] | ([u pos] & s4 & Hs4 & Hrun)];
      [eapply (Hstop s3); eauto | | unfold meta_Pos; frame].
    rewrite Hs3 in Hs4.
    apply prelude_step in Hrun as [[Hf Hr] | ([u' gs] & s5 & Hs5 & Hrun)];
      [eapply (Hstop s4); eauto | | unfold meta_GTID; frame].
    rewrite Hs4 in Hs5.
    pose proof (fd_ok_same st s5 Hs5 Hok) as Hok5.
    injection Hs5 as Hfs5 _.
    unfold on_return in Hrun.
    destruct (loop _ script s5) as [s6 r6] eqn:Hloop.
    apply (loop_sound _ _ _ _ _ Hok5) in Hloop as [Htouched Hsucc].
    assert (Hclose : preserves (same fs)
              (do ofd <- gets fd;
               match ofd with
               | Some _ => fd_Close
               | None => ret tt
               end)) by (unfold fd_Close; frame).
    specialize (Hclose s6). unfold same in Hclose.
    pose proof (closed_on_return s6) as Hclosed.
    destruct ((do ofd <- gets fd; match ofd with Some _ => fd_Close | None => ret tt end) s6)
      as [s7 r7]. cbn [fst] in Hclose, Hclosed.
    assert (Hok7 : fd_ok s7).
    { intros f Hf Hopen. rewrite (Hclosed f Hf) in Hopen. discriminate. }
    assert (Hgood : (∃ a, r6 = Ok a) →
              ∀ p, fs s6 !! p = fs st !! p ∨ headed (fs s6 !! p)).
    { intros Ha p. destruct (Hsucc Ha Hok5) as [_ Hp]. rewrite <- Hfs5. apply Hp. }
    assert (Hbad : ∀ p, fs s6 !! p = fs st !! p ∨ headed (fs s6 !! p)
                        ∨ half_written (fs st !! p) (fs s6 !! p)).
    { intros p. rewrite <- Hfs5. apply Htouched. }
    destruct r6 as [[l6 |] | e6 |].
    + simplify_eq. split.
      * intros p. destruct (Hgood (ex_intro _ _ eq_refl) p); auto.
      * exact (proj1 (Hsucc (ex_intro _ _ eq_refl) Hok5)).
    + assert (st' = s7) as -> by (repeat case_match; congruence).
      split; [| exact Hok7].
      intros p. rewrite <- Hclose in Hgood.
      destruct (Hgood (ex_intro _ _ eq_refl) p); auto.
    + assert (st' = s7) as -> by (repeat case_match; congruence).
      split; [| exact Hok7].
      intros p. rewrite <- Hclose in Hbad.
      assert (Hr : ∀ a, r ≠ Ok a) by (repeat case_match; simplify_eq; discriminate).
      destruct (Hbad p) as [? | [? | ?]]; auto.
    + assert (st' = s7) as -> by (repeat case_match; congruence).
      split; [| exact Hok7].
      intros p. rewrite <- Hclose in Hbad.
      assert (Hr : ∀ a, r ≠ Ok a) by (repeat case_match; simplify_eq; discriminate).
      destruct (Hbad p) as [? | [? | ?]]; auto.
Qed.

End Run.

(** The theorem at a fresh start in position mode: the fake rotate names
    the file, the FormatDescriptionEvent opens it, an event follows. *)
Lemma header_integrity_witness :
  headed (fs (fst (@process sample_env first_events (fresh false false MySQLFlavor)))
          !! sample_path).
Proof.
  assert (Hok : fd_ok (fresh false false MySQLFlavor)).
  { intros f Hf. discriminate Hf. }
  destruct (proj1 (proj2 (@header_integrity sample_env) first_events
                     (fresh false false MySQLFlavor) _ _ Hok (surjective_pairing _))
              sample_path) as [Heq | [Hh | [Hr _]]].
  - vm_compute in Heq. discriminate Heq.
  - exact Hh.
  - exfalso.
    remember (snd (@process sample_env first_events (fresh false false MySQLFlavor)))
      as res eqn:Hres.
    vm_compute in Hres. subst res. eapply Hr. reflexivity.
Defined.

(** C1, as the claim has it: every file the relay produces starts with the
    magic, a file without it being there only between the open and the
    first write.  On a fresh start, when the seek to the start of the file
    just created fails, [process] returns the error and the file stays,
    empty. *)
Lemma failed_seek_leaves_empty_file :
  snd (@process sample_env first_events unseekable)
  = Fail (Trace (Annotate (Trace (Root ErrSyscall))
                   ("file full path " +:+ sample_path)))
  ∧ fs unseekable !! sample_path = None
  ∧ fs (fst (@process sample_env first_events unseekable)) !! sample_path = Some []
  ∧ ¬ headed (fs (fst (@process sample_env first_events unseekable)) !! sample_path).
Proof.
  assert (Hfile : fs (fst (@process sample_env first_events unseekable))
                  !! sample_path = Some []) by (vm_compute; reflexivity).
  split; [vm_compute; reflexivity |].
  split; [reflexivity |].
  split; [exact Hfile |].
  rewrite Hfile. intros (c & Hc & Hh). simplify_eq.
  unfold has_header in Hh. discriminate Hh.
Qed.

(** * Further properties *)

(** A case analysis on the next thing a computation on an opened state
    looks at: a field, a field of the meta, a decision, a file. *)
Ltac split_field :=
  match goal with
  | |- context [match ?x with _ => _ end] => is_var x; destruct x
  | |- context [match ?f ?x with _ => _ end] =>
      is_var x; is_const f; destruct (f x) eqn:?
  | |- context [match ?f (?g ?x) with _ => _ end] =>
      is_var x; is_const f; is_const g; destruct (f (g x)) eqn:?
  | |- context [match bool_decide ?P with _ => _ end] =>
      destruct (bool_decide P) eqn:?
  | |- context [match @lookup _ _ _ _ ?k ?m with _ => _ end] =>
      destruct (@lookup _ _ _ _ k m) eqn:?
  | |- context [match Z.gtb ?a ?b with _ => _ end] => destruct (Z.gtb a b) eqn:?
  | |- context [match Z.ltb ?a ?b with _ => _ end] => destruct (Z.ltb a b) eqn:?
  | |- context [orb (bool_decide ?P) _] => destruct (bool_decide P) eqn:?
  | |- context [orb false (bool_decide ?P)] => destruct (bool_decide P) eqn:?
  end; simpl in *.

(** ** Closing the syncer *)

(** X1: [closeBinlogSyncer] on a nil syncer does nothing.  On a syncer it
    always leaves it closed, whatever the kill of the replica connection
    gives; it sends no kill (and needs no control connection) when the
    connection id is not positive; it swallows the answer "no such thread";
    and the only error it returns is the error of the kill, annotated with
    the connection id, whose cause is never "no such thread". *)
Theorem closeBinlogSyncer_outcome (st : St) :
  (syncer st = None → closeBinlogSyncer st = (st, Ok tt))
  ∧ (∀ sy, syncer st = Some sy →
       syncer (fst (closeBinlogSyncer st)) = Some (closed_syncer sy))
  ∧ (∀ sy, syncer st = Some sy → (sy_conn sy ≤ 0)%Z →
       closeBinlogSyncer st = (set_syncer (Some (closed_syncer sy)) st, Ok tt))
  ∧ (∀ sy rest, syncer st = Some sy → (0 < sy_conn sy)%Z →
       db st = Some {| db_closed := false |} → faults st = FaultAt 0 :: rest →
       closeBinlogSyncer st
       = (set_syncer (Some (closed_syncer sy)) (set_faults rest st), Ok tt))
  ∧ (∀ sy e, syncer st = Some sy → snd (closeBinlogSyncer st) = Fail e →
       (0 < sy_conn sy)%Z ∧
       ∃ e0, e = Annotate e0 ("connection ID " +:+ fmt_d (sy_conn sy))
             ∧ CauseOf e0 ≠ ErrNoSuchThread).
Proof.
  open_state st. unfold closeBinlogSyncer, utils_KillConn, closed_syncer.
  split; [| split; [| split; [| split]]].
  - intros ->. reflexivity.
  - intros sy ->. run.
    destruct (sy_conn sy >? 0)%Z; simpl; [| reflexivity].
    destruct d0 as [d |]; simpl; [| reflexivity].
    destruct (db_closed d); simpl; [reflexivity |].
    destruct flt0 as [| [| [| k]] flt]; reflexivity.
  - intros sy -> Hle. run.
    destruct (Z.gtb_spec (sy_conn sy) 0); [lia |].
    reflexivity.
  - intros sy rest -> Hlt -> ->. run.
    destruct (Z.gtb_spec (sy_conn sy) 0); [| lia].
    reflexivity.
  - intros sy e ->. run.
    destruct (sy_conn sy >? 0)%Z eqn:Hc; simpl; [| discriminate].
    apply Z.gtb_lt in Hc.
    destruct d0 as [d |]; simpl; [| discriminate].
    destruct (db_closed d); simpl.
    + intros Heq. simplify_eq. split; [lia |]. eexists. split; [reflexivity |].
      discriminate.
    + destruct flt0 as [| [| [| k]] flt]; simpl; intros Heq; simplify_eq;
        (split; [lia |]); eexists; (split; [reflexivity |]); discriminate.
Qed.

(** The theorem at a syncer with connection 7 whose kill is answered "no
    such thread". *)
Lemma closeBinlogSyncer_outcome_witness :
  closeBinlogSyncer
    (set_faults [FaultAt 0]
       (set_syncer (Some {| sy_conn := 7; sy_closed := false |})
          (fresh true true MySQLFlavor)))
  = (set_syncer (Some {| sy_conn := 7; sy_closed := true |})
       (set_faults []
          (set_faults [FaultAt 0]
             (set_syncer (Some {| sy_conn := 7; sy_closed := false |})
                (fresh true true MySQLFlavor)))),
     Ok tt).
Proof.
  apply (proj1 (proj2 (proj2 (proj2 (closeBinlogSyncer_outcome _))))
           {| sy_conn := 7; sy_closed := false |} []);
    [reflexivity | reflexivity | reflexivity | reflexivity].
Defined.

(** ** Starting and reopening the stream *)

(** With no syncer, [getBinlogStreamer] panics in both modes. *)
Lemma getBinlogStreamer_nil_syncer (st : St) :
  syncer st = None → snd (getBinlogStreamer st) = Panic.
Proof.
  open_state st. intros ->.
  unfold getBinlogStreamer, startSyncByGTID, startSyncByPos, syncer_start,
    os_Stat, meta_Save, meta_GTID, meta_Pos, meta_Dir.
  run. repeat (split_field; try reflexivity).
Qed.

Lemma getBinlogStreamer_syncer (st st' : St) (sy : BinlogSyncer)
    (r : result BinlogStreamer) :
  syncer st = Some sy →
  getBinlogStreamer st = (st', r) →
  ∃ sy', syncer st' = Some sy'
    ∧ sy_closed sy' = sy_closed sy
    ∧ lastSlaveConnectionID st' = sy_conn sy'
    ∧ (sy_conn sy' = sy_conn sy ∨ sy_conn sy' = connection_id (upstream st))
    ∧ (∀ s, r = Ok s → sy_conn sy' = connection_id (upstream st)).
Proof.
  open_state st. intros ->.
  unfold getBinlogStreamer, startSyncByGTID, startSyncByPos, syncer_start,
    os_Stat, meta_Save, meta_GTID, meta_Pos, meta_Dir.
  run.
  repeat split_field; intros Heq; simplify_eq; simpl;
    (eexists; split; [reflexivity |]; simpl; repeat split; eauto; discriminate).
Qed.

Lemma getBinlogStreamer_beside : preserves (same beside_start) getBinlogStreamer.
Proof.
  unfold getBinlogStreamer, startSyncByGTID, startSyncByPos, syncer_start,
    os_Stat, meta_Save, meta_GTID, meta_Pos, meta_Dir.
  frame.
Qed.

(** X2: whatever [getBinlogStreamer] returns, it writes no file and leaves
    the open file, the control connection, the sub-directories, the GTID set
    and the durable record of the meta as they were, and it leaves the
    connection id of the
    syncer in [r.lastSlaveConnectionID]; when it returns a streamer, that id
    is the one the upstream gave to the new connection. *)
Theorem getBinlogStreamer_effects (st st' : St) (sy : BinlogSyncer)
    (r : result BinlogStreamer) :
  syncer st = Some sy →
  getBinlogStreamer st = (st', r) →
  beside_start st' = beside_start st
  ∧ ∃ sy', syncer st' = Some sy'
      ∧ sy_closed sy' = sy_closed sy
      ∧ lastSlaveConnectionID st' = sy_conn sy'
      ∧ (sy_conn sy' = sy_conn sy ∨ sy_conn sy' = connection_id (upstream st))
      ∧ (∀ s, r = Ok s → sy_conn sy' = connection_id (upstream st)).
Proof.
  intros Hsy Hrun. split.
  - pose proof (getBinlogStreamer_beside st) as Hb. rewrite Hrun in Hb. exact Hb.
  - eapply getBinlogStreamer_syncer; eauto.
Qed.

(** The theorem on a relay after [Init], in position mode. *)
Lemma getBinlogStreamer_effects_witness :
  beside_start (fst (getBinlogStreamer (fresh false false MySQLFlavor)))
  = beside_start (fresh false false MySQLFlavor)
  ∧ ∃ sy', syncer (fst (getBinlogStreamer (fresh false false MySQLFlavor))) = Some sy'
      ∧ sy_closed sy' = false
      ∧ lastSlaveConnectionID (fst (getBinlogStreamer (fresh false false MySQLFlavor)))
        = sy_conn sy'
      ∧ (sy_conn sy' = 0%Z ∨ sy_conn sy' = 7%Z)
      ∧ (∀ s, snd (getBinlogStreamer (fresh false false MySQLFlavor)) = Ok s →
           sy_conn sy' = 7%Z).
Proof.
  exact (getBinlogStreamer_effects (fresh false false MySQLFlavor) _
           NewBinlogSyncer _ eq_refl (surjective_pairing _)).
Defined.

(** The two ways through [reopenStreamer]: the old syncer is closed (or
    there was none) and [getBinlogStreamer] runs on a new one, or the close
    fails and nothing else is done. *)
Lemma reopenStreamer_inv (st st' : St) (r : result BinlogStreamer) :
  reopenStreamer st = (st', r) →
  (∃ st1, kept_by_close st1 = kept_by_close st
       ∧ getBinlogStreamer (set_syncer (Some NewBinlogSyncer) st1) = (st', r))
  ∨ (syncer st' = None
     ∧ ∃ sy e0, syncer st = Some sy
         ∧ r = Fail (Trace (Annotate e0 ("connection ID " +:+ fmt_d (sy_conn sy)))))
  ∨ r = Panic.
Proof.
  unfold reopenStreamer. intros Hrun.
  apply bind_inv in Hrun as [(st0 & osy & Hget & Hrun) | [(e & Hget & _) | [Hget _]]];
    [| unfold gets in Hget; simplify_eq | unfold gets in Hget; simplify_eq].
  unfold gets in Hget. simplify_eq.
  apply bind_inv in Hrun as [(st1 & u & Hpre & Hrun) | [(e & Hpre & Hr) | [_ Hr]]].
  - apply bind_inv in Hrun as [(st2 & u2 & Hmod & Hrun) | [(e & Hmod & _) | [Hmod _]]];
      [| unfold modify in Hmod; simplify_eq | unfold modify in Hmod; simplify_eq].
    unfold modify in Hmod. simplify_eq.
    left. exists st1. split; [| exact Hrun].
    revert Hpre. open_state st0.
    unfold closeBinlogSyncer, utils_KillConn, kept_by_close, files. run.
    repeat split_field; intros Heq; simplify_eq; reflexivity.
  - subst r. right. left. revert Hpre. open_state st0.
    unfold closeBinlogSyncer, utils_KillConn. run.
    repeat split_field; intros Heq; simplify_eq;
      (split; [reflexivity |]); eexists _, _; split; reflexivity.
  - right. right. exact Hr.
Qed.

(** X3: [reopenStreamer] ends in one of two ways.  When the old syncer
    cannot be closed (the kill of its connection fails), the error of the
    kill is returned, annotated with the connection id and traced, and the
    relay is left with no syncer at all: nothing is started, and a later
    [getBinlogStreamer] panics.  Otherwise the relay holds a new syncer,
    not closed, whose connection id is in [r.lastSlaveConnectionID]; when a
    streamer is returned that id is the one the upstream gave. *)
Theorem reopenStreamer_outcome (st st' : St) (r : result BinlogStreamer) :
  reopenStreamer st = (st', r) →
  match r with
  | Ok s =>
    ∃ sy', syncer st' = Some sy' ∧ sy_closed sy' = false
      ∧ sy_conn sy' = connection_id (upstream st)
      ∧ lastSlaveConnectionID st' = sy_conn sy'
  | Fail e =>
    (syncer st' = None
     ∧ snd (getBinlogStreamer st') = Panic
     ∧ ∃ sy e0, syncer st = Some sy
         ∧ e = Trace (Annotate e0 ("connection ID " +:+ fmt_d (sy_conn sy))))
    ∨ (∃ sy', syncer st' = Some sy' ∧ sy_closed sy' = false
         ∧ lastSlaveConnectionID st' = sy_conn sy')
  | Panic => True
  end.
Proof.
  intros Hrun.
  apply reopenStreamer_inv in Hrun
    as [(st1 & Hkept & Hrun) | [(Hnone & sy & e0 & Hsy & ->) | ->]];
    [| | exact I].
  - unfold kept_by_close in Hkept. simplify_eq.
    destruct (getBinlogStreamer_syncer (set_syncer (Some NewBinlogSyncer) st1) st'
                NewBinlogSyncer r eq_refl Hrun)
      as (sy' & Hsy & Hcl & Hid & _ & Hok).
    destruct r as [s | e |]; [| | exact I].
    + exists sy'. repeat split; eauto.
      rewrite (Hok s eq_refl). simpl. congruence.
    + right. exists sy'. repeat split; eauto.
  - left. split; [exact Hnone |].
    split; [apply getBinlogStreamer_nil_syncer; exact Hnone |].
    exists sy, e0. split; [exact Hsy | reflexivity].
Qed.

(** The theorem on a relay whose syncer holds connection 7 and whose kill
    fails. *)
Lemma reopenStreamer_outcome_witness :
  (syncer (fst (reopenStreamer unkillable)) = None
   ∧ snd (getBinlogStreamer (fst (reopenStreamer unkillable))) = Panic
   ∧ ∃ sy e0, syncer unkillable = Some sy
       ∧ Trace (Annotate (Root ErrDB) "connection ID 7")
         = Trace (Annotate e0 ("connection ID " +:+ fmt_d (sy_conn sy))))
  ∨ (∃ sy', syncer (fst (reopenStreamer unkillable)) = Some sy'
       ∧ sy_closed sy' = false
       ∧ lastSlaveConnectionID (fst (reopenStreamer unkillable)) = sy_conn sy').
Proof.
  exact (reopenStreamer_outcome unkillable (fst (reopenStreamer unkillable))
           (Fail (Trace (Annotate (Root ErrDB) "connection ID 7"))) eq_refl).
Defined.

(** X4: a streamer that [getBinlogStreamer] returns starts at the GTID set
    of the meta (GTID mode, the meta untouched) or in the file the position
    of the meta names (position mode, and GTID mode when the start by GTID
    set fails): at the position the meta has after the call, or, when that
    file is not in the relay directory, at offset 4 of it, the meta keeping
    the offset it had. *)
Theorem getBinlogStreamer_start (st st' : St) (s : BinlogStreamer) :
  getBinlogStreamer st = (st', Ok s) →
  (∃ g, EnableGTID (cfg st) = true ∧ gtid_set (mem (meta st)) = Some g
        ∧ s_from s = FromGTID g ∧ meta st' = meta st)
  ∨ (∃ p, s_from s = FromPos p
        ∧ Name p = Name (position (mem (meta st)))
        ∧ Name (position (mem (meta st'))) = Name p
        ∧ (p = position (mem (meta st'))
           ∨ (Pos p = 4%Z ∧ meta st' = meta st ∧ Name p ≠ ""
              ∧ fs st !! local_file st = None))).
Proof.
  open_state st.
  unfold getBinlogStreamer, startSyncByGTID, startSyncByPos, syncer_start,
    os_Stat, meta_Save, meta_GTID, meta_Pos, meta_Dir, local_file.
  run.
  repeat split_field; intros Heq; simplify_eq; simpl;
    try (left; eexists; repeat split; eauto; fail);
    right; eexists; (split; [reflexivity |]); simpl;
    repeat match goal with
           | H : bool_decide _ = _ |- _ => apply bool_decide_eq_true in H
           | H : bool_decide _ = _ |- _ => apply bool_decide_eq_false in H
           end;
    (split; [reflexivity |]); (split; [reflexivity |]);
    first [ left; destruct m0 as [[? ? [] ?] ? ?]; reflexivity
          | left; reflexivity
          | right; repeat split; eauto ].
Qed.

(** The theorem on a relay whose file is lost: the stream starts at offset
    4, the meta stays at 200. *)
Lemma getBinlogStreamer_start_witness :
  (∃ g, EnableGTID (cfg lost_file) = true ∧ gtid_set (mem (meta lost_file)) = Some g
        ∧ FromPos {| Name := "mysql-bin.000001"; Pos := 4 |} = FromGTID g
        ∧ meta (fst (getBinlogStreamer lost_file)) = meta lost_file)
  ∨ (∃ p, FromPos {| Name := "mysql-bin.000001"; Pos := 4 |} = FromPos p
        ∧ Name p = "mysql-bin.000001"
        ∧ Name (position (mem (meta (fst (getBinlogStreamer lost_file))))) = Name p
        ∧ (p = position (mem (meta (fst (getBinlogStreamer lost_file))))
           ∨ (Pos p = 4%Z ∧ meta (fst (getBinlogStreamer lost_file)) = meta lost_file
              ∧ Name p ≠ "" ∧ fs lost_file !! local_file lost_file = None))).
Proof.
  exact (getBinlogStreamer_start lost_file (fst (getBinlogStreamer lost_file))
           {| s_from := FromPos {| Name := "mysql-bin.000001"; Pos := 4 |} |} eq_refl).
Defined.

(** ** The fix of the GTID set *)

(** X5: under the MySQL flavor, in either mode, [retrySyncGTIDs] touches
    neither the files nor the syncer.  When it succeeds the meta is on a
    new sub-directory, the one of the master's UUID, with an empty
    position and the old GTID set in which the master's intervals are
    replaced.  When it fails the error is annotated with the step that
    failed, and the meta is as it was when that step is one of the two
    queries.  It panics only for want of a control connection. *)
Theorem retrySyncGTIDs_mysql (st st' : St) (old : GTIDSet) (r : result unit) :
  Flavor (cfg st) = MySQLFlavor →
  gtid_set (mem (meta st)) = Some old →
  retrySyncGTIDs st = (st', r) →
  files st' = files st ∧ syncer st' = syncer st
  ∧ match r with
    | Ok _ => meta st' = resynced_meta (upstream st) old (meta st)
    | Fail e =>
      ∃ e0 msg, e = Annotate e0 msg ∧ resync_note (upstream st) msg
        ∧ (msg = "get master status" ∨ msg = "get master UUID" → meta st' = meta st)
    | Panic => db st = None
    end.
Proof.
  open_state st. destruct c0 as [gt af fl dir]. simpl. intros -> Hold.
  unfold retrySyncGTIDs, getServerUUID, utils_GetMasterStatus,
    utils_GetServerUUID, utils_GetMariaDBGtidDomainID, utils_GetServerID,
    db_query, meta_AddDir, meta_GTID, resynced_meta, resync_note, files.
  run. rewrite Hold. simpl.
  repeat split_field; intros Heq; simplify_eq; simpl;
    (split; [reflexivity |]); (split; [reflexivity |]);
    try reflexivity;
    eexists _, _; (split; [reflexivity |]); split; eauto;
    intros [Hm | Hm]; first [reflexivity | discriminate Hm].
Qed.

(** The theorem on a relay after [Init]: the master's own intervals
    replace those of the empty set. *)
Lemma retrySyncGTIDs_mysql_witness :
  files (fst (retrySyncGTIDs (fresh true true MySQLFlavor)))
  = files (fresh true true MySQLFlavor)
  ∧ syncer (fst (retrySyncGTIDs (fresh true true MySQLFlavor)))
    = syncer (fresh true true MySQLFlavor)
  ∧ meta (fst (retrySyncGTIDs (fresh true true MySQLFlavor)))
    = resynced_meta sample_upstream [] (meta (fresh true true MySQLFlavor)).
Proof.
  exact (retrySyncGTIDs_mysql (fresh true true MySQLFlavor)
           (fst (retrySyncGTIDs (fresh true true MySQLFlavor))) [] (Ok tt)
           eq_refl eq_refl eq_refl).
Defined.

(** ** The name of the sub-directory *)

Lemma string_of_uint_dashless (d : Decimal.uint) :
  dashless (NilEmpty.string_of_uint d) = true.
Proof. induction d; simpl; auto. Qed.

Lemma fmt_d_dashless (z : Z) : (0 ≤ z)%Z → dashless (fmt_d z) = true.
Proof.
  unfold fmt_d. destruct z as [| p | p]; intros Hz; [reflexivity | | lia].
  simpl. unfold NilZero.string_of_uint.
  destruct (Pos.to_uint p) eqn:Hp; try reflexivity;
    rewrite <- Hp; apply string_of_uint_dashless.
Qed.

Lemma fmt_d_inj (a b : Z) : fmt_d a = fmt_d b → a = b.
Proof.
  unfold fmt_d. intros Heq. apply DecimalZ.to_int_inj.
  assert (Hnil : ∀ z, Z.to_int z ≠ Decimal.Pos Decimal.Nil
                      ∧ Z.to_int z ≠ Decimal.Neg Decimal.Nil).
  { intros [| p | p]; simpl; split; try discriminate;
      intros Hp; injection Hp as Hp;
      exact (DecimalPos.Unsigned.to_uint_nonnil p Hp). }
  destruct (Hnil a) as [Ha1 Ha2]. destruct (Hnil b) as [Hb1 Hb2].
  pose proof (NilZero.isi _ Ha1 Ha2) as Ia.
  pose proof (NilZero.isi _ Hb1 Hb2) as Ib.
  rewrite Heq in Ia. congruence.
Qed.

(** Two strings cut at their first separator. *)
Lemma split_at_dash (s1 s2 t1 t2 : string) :
  dashless s1 = true → dashless s2 = true →
  s1 +:+ "-" +:+ t1 = s2 +:+ "-" +:+ t2 → s1 = s2 ∧ t1 = t2.
Proof.
  revert s2. induction s1 as [| c s1 IH]; intros [| c2 s2]; simpl;
    intros H1 H2 Heq.
  - injection Heq as Heq. auto.
  - injection Heq as Hc Heq. subst c2. discriminate H2.
  - injection Heq as Hc Heq. subst c. discriminate H1.
  - injection Heq as Hc Heq. subst c2.
    apply andb_prop in H1 as [_ H1]. apply andb_prop in H2 as [_ H2].
    destruct (IH s2 H1 H2 Heq) as [-> ->]. auto.
Qed.

(** X6: under the MariaDB flavor the UUID that [getServerUUID] returns
    names one upstream only: two servers whose domain ids are not negative
    and for which it returns the same string have the same domain id and
    the same server id, so two masters never share a sub-directory. *)
Theorem getServerUUID_mariadb (st1 st2 st1' st2' : St) (u : string) :
  Flavor (cfg st1) = MariaDBFlavor → Flavor (cfg st2) = MariaDBFlavor →
  (0 ≤ gtid_domain_id (upstream st1))%Z → (0 ≤ gtid_domain_id (upstream st2))%Z →
  getServerUUID st1 = (st1', Ok u) → getServerUUID st2 = (st2', Ok u) →
  gtid_domain_id (upstream st1) = gtid_domain_id (upstream st2)
  ∧ server_id (upstream st1) = server_id (upstream st2).
Proof.
  assert (Hu : ∀ st st' v, Flavor (cfg st) = MariaDBFlavor →
                getServerUUID st = (st', Ok v) →
                v = fmt_d (gtid_domain_id (upstream st)) +:+ "-"
                    +:+ fmt_d (server_id (upstream st))).
  { intros st st' v. open_state st. destruct c0 as [gt af fl dir]. simpl.
    intros ->.
    unfold getServerUUID, utils_GetMariaDBGtidDomainID, utils_GetServerID, db_query.
    run. repeat split_field; intros Heq; simplify_eq; reflexivity. }
  intros F1 F2 D1 D2 R1 R2.
  apply Hu in R1; [| exact F1]. apply Hu in R2; [| exact F2].
  rewrite R1 in R2.
  apply split_at_dash in R2 as [Hd Hs]; try (apply fmt_d_dashless; assumption).
  split; apply fmt_d_inj; assumption.
Qed.

(** The theorem on two relays, one in GTID mode and one in position mode,
    on the upstream of ids (1, 23): both name it [1-23]. *)
Lemma getServerUUID_mariadb_witness :
  (gtid_domain_id (upstream (on_upstream (mariadb_upstream 1 23)
                               (fresh true true MariaDBFlavor)))
   = gtid_domain_id (upstream (on_upstream (mariadb_upstream 1 23)
                                 (fresh false false MariaDBFlavor))))
  ∧ (server_id (upstream (on_upstream (mariadb_upstream 1 23)
                            (fresh true true MariaDBFlavor)))
     = server_id (upstream (on_upstream (mariadb_upstream 1 23)
                              (fresh false false MariaDBFlavor)))).
Proof.
  refine (getServerUUID_mariadb
            (on_upstream (mariadb_upstream 1 23) (fresh true true MariaDBFlavor))
            (on_upstream (mariadb_upstream 1 23) (fresh false false MariaDBFlavor))
            _ _ "1-23" eq_refl eq_refl _ _ eq_refl eq_refl); simpl; lia.
Defined.

(** ** The lifecycle: [Init] and [Close] *)

(** X7: [Init] never panics and touches neither the files, the syncer nor
    the durable record of the meta.  When it succeeds the relay holds an
    open control connection and the loaded meta.  When it fails the error
    is traced; if the failure is that of [sql.Open] the relay is as it was,
    and otherwise the control connection it opened stays in [r.db], open:
    [Init] does not close it on its way out. *)
Theorem Init_outcome (st st' : St) (r : result unit) :
  Init st = (st', r) →
  files st' = files st ∧ syncer st' = syncer st ∧ closed st' = closed st
  ∧ durable (meta st') = durable (meta st)
  ∧ match r with
    | Ok _ => db st' = open_db ∧ meta st' = loaded (meta st)
    | Fail e =>
      ∃ e0, e = Trace e0
        ∧ ((e0 = Root ErrDB ∧ db st' = db st ∧ meta st' = meta st)
           ∨ (db st' = open_db
              ∧ (meta st' = meta st ∨ meta st' = loaded (meta st))))
    | Panic => False
    end.
Proof.
  open_state st.
  unfold Init, sql_Open, os_MkdirAll, meta_Load, reportRelayLogSpaceInBackground,
    files, open_db, loaded.
  run.
  repeat split_field; intros Heq; simplify_eq; simpl;
    repeat (split; [reflexivity |]);
    first [ split; reflexivity
          | eexists; split; [reflexivity |]; eauto ].
Qed.

(** The theorem on a relay after [NewRelay] whose relay directory cannot
    be made: the control connection is left open. *)
Lemma Init_outcome_witness :
  files (fst (Init unwritable)) = files unwritable
  ∧ syncer (fst (Init unwritable)) = syncer unwritable
  ∧ closed (fst (Init unwritable)) = closed unwritable
  ∧ durable (meta (fst (Init unwritable))) = durable (meta unwritable)
  ∧ ∃ e0, Trace (Root ErrSyscall) = Trace e0
      ∧ ((e0 = Root ErrDB ∧ db (fst (Init unwritable)) = db unwritable
          ∧ meta (fst (Init unwritable)) = meta unwritable)
         ∨ (db (fst (Init unwritable)) = open_db
            ∧ (meta (fst (Init unwritable)) = meta unwritable
               ∨ meta (fst (Init unwritable)) = loaded (meta unwritable)))).
Proof.
  exact (Init_outcome unwritable (fst (Init unwritable))
           (Fail (Trace (Root ErrSyscall))) eq_refl).
Defined.
Lemma Init_beside : preserves (same beside_init) Init.
Proof.
  unfold Init, sql_Open, os_MkdirAll, meta_Load, reportRelayLogSpaceInBackground.
  frame.
Qed.

Lemma Init_db (st st' : St) (r : result unit) :
  Init st = (st', r) →
  db st' = open_db ∨ (db st' = db st ∧ r = Fail (Trace (Root ErrDB))).
Proof.
  open_state st.
  unfold Init, sql_Open, os_MkdirAll, meta_Load, reportRelayLogSpaceInBackground,
    open_db.
  run. repeat split_field; intros Heq; simplify_eq; simpl; auto.
Qed.

Lemma Close_run (st : St) :
  closed st = false → can_kill st →
  ∃ st', Close st = (st', Ok tt)
    ∧ closed st' = true ∧ syncer st' = None
    ∧ db st' = closed_db (db st) ∧ fd st' = closed_file (fd st)
    ∧ fs st' = fs st ∧ mem (meta st') = mem (meta st).
Proof.
  intros Hc Hk. open_state st. subst cl0. unfold can_kill in Hk; simpl in Hk.
  unfold Close, closeBinlogSyncer, utils_KillConn, meta_Flush, fd_Close, db_Close,
    closed_db, closed_file.
  run.
  destruct sy0 as [sy |]; simpl.
  - destruct (sy_conn sy >? 0)%Z eqn:Hgt; simpl.
    + destruct d0 as [d |]; simpl.
      2:{ specialize (Hk eq_refl sy eq_refl). apply Z.gtb_lt in Hgt. lia. }
      repeat split_field; (eexists; repeat split; simpl; eauto).
    + repeat split_field; (eexists; repeat split; simpl; eauto).
  - repeat split_field; (eexists; repeat split; simpl; eauto).
Qed.

(** X8: on a relay that is not closed, [Close] returns with the closed
    flag set and everything released: no syncer is left, the control
    connection and the open file are closed when there was one, and no byte
    of a file nor the record of the meta in memory has changed. *)
Theorem Close_releases (st : St) :
  closed st = false → can_kill st →
  ∃ st', Close st = (st', Ok tt)
    ∧ closed st' = true ∧ syncer st' = None
    ∧ db st' = closed_db (db st) ∧ fd st' = closed_file (fd st)
    ∧ fs st' = fs st ∧ mem (meta st') = mem (meta st).
Proof. exact (Close_run st). Qed.

(** The theorem on a relay in the middle of a file. *)
Lemma Close_releases_witness :
  ∃ st', Close (streaming true true MySQLFlavor) = (st', Ok tt)
    ∧ closed st' = true ∧ syncer st' = None
    ∧ db st' = Some {| db_closed := true |}
    ∧ fd st' = Some {| f_path := sample_path; f_off := 4; f_closed := true |}
    ∧ fs st' = fs (streaming true true MySQLFlavor)
    ∧ mem (meta st') = mem (meta (streaming true true MySQLFlavor)).
Proof.
  apply (Close_releases (streaming true true MySQLFlavor)); [reflexivity |].
  intros Hdb. discriminate Hdb.
Defined.

(** X9: [Close] after [Init], whatever [Init] returned: on a relay made by
    [NewRelay] (not closed, its syncer not yet connected), the relay ends
    closed, with no syncer, with the control connection closed when
    [sql.Open] had given one, and with every file as it was. *)
Theorem Init_then_Close (st st1 : St) (r : result unit) (sy : BinlogSyncer) :
  closed st = false → syncer st = Some sy → (sy_conn sy ≤ 0)%Z →
  Init st = (st1, r) →
  ∃ st2, Close st1 = (st2, Ok tt)
    ∧ closed st2 = true ∧ syncer st2 = None ∧ fs st2 = fs st
    ∧ (db st2 = Some {| db_closed := true |}
       ∨ (db st2 = db st ∧ r = Fail (Trace (Root ErrDB)))).
Proof.
  intros Hc Hsy Hconn Hrun.
  pose proof (Init_beside st) as Hb. rewrite Hrun in Hb.
  unfold same, beside_init, files in Hb. simpl in Hb. simplify_eq.
  destruct (Close_run st1) as (st2 & Hclose & Hcl & Hnone & Hdb & _ & Hfs & _).
  { congruence. }
  { intros _ sy' Hsy'. congruence. }
  exists st2. repeat split; try assumption; [congruence |].
  destruct (Init_db _ _ _ Hrun) as [Hopen | [Hsame ->]].
  - left. rewrite Hdb, Hopen. reflexivity.
  - rewrite Hdb, Hsame. destruct (db st); [left | right]; auto.
Qed.

(** The theorem on a relay after [NewRelay] whose meta cannot be loaded. *)
Lemma Init_then_Close_witness :
  ∃ st2, Close (fst (Init unloadable)) = (st2, Ok tt)
    ∧ closed st2 = true ∧ syncer st2 = None ∧ fs st2 = fs unloadable
    ∧ (db st2 = Some {| db_closed := true |}
       ∨ (db st2 = db unloadable ∧ snd (Init unloadable) = Fail (Trace (Root ErrDB)))).
Proof.
  exact (Init_then_Close unloadable (fst (Init unloadable)) (snd (Init unloadable))
           NewBinlogSyncer eq_refl eq_refl (Z.le_refl 0)
           (surjective_pairing (Init unloadable))).
Defined.

(** ** The interval flush *)

(** One tick of the interval flush. *)
Lemma flush_tick (st st1 : St) (r : result unit) :
  (do d <- gets (λ st, dirty (meta st));
   if d then try meta_Flush ;; ret tt else ret tt) st = (st1, r) →
  r = Ok tt
  ∧ beside_meta st1 = beside_meta st
  ∧ (dirty (meta st) = false → st1 = st)
  ∧ (meta st1 = meta st ∨ meta st1 = flushed (meta st))
  ∧ (dirty (meta st) = true → faults st = [] → meta st1 = flushed (meta st)).
Proof.
  open_state st. unfold meta_Flush, beside_meta, files, flushed. run.
  destruct m0 as [r0 [] du]; simpl;
    repeat split_field; intros Heq; simplify_eq; simpl;
    repeat split; auto; discriminate.
Qed.

(** X10: [flushMetaAtIntervals] never fails nor panics, whatever the
    flushes it tries give, and it has returned exactly when one of its
    wake-ups was the end of the context.  It changes nothing but the meta
    and the answers of the environment it consumed; of the meta it never
    changes the record in memory, it leaves the meta as it was or flushed,
    and with a clean meta it consumes no answer: the state is as it was. *)
Theorem flushMetaAtIntervals_safe (wakeups : list Wakeup) (st st' : St)
    (r : result bool) :
  flushMetaAtIntervals wakeups st = (st', r) →
  r = Ok (bool_decide (CtxDone ∈ wakeups))
  ∧ beside_meta st' = beside_meta st
  ∧ mem (meta st') = mem (meta st)
  ∧ (meta st' = meta st ∨ meta st' = flushed (meta st))
  ∧ (dirty (meta st) = false → st' = st).
Proof.
  revert st. induction wakeups as [| w rest IH]; intros st Hrun.
  - unfold flushMetaAtIntervals, ret in Hrun. simplify_eq.
    repeat split; auto.
  - destruct w.
    + cbn [flushMetaAtIntervals] in Hrun.
      apply bind_inv in Hrun as [(st0 & d & Hget & Hrun) | [(e & Hget & _) | [Hget _]]];
        [| unfold gets in Hget; simplify_eq | unfold gets in Hget; simplify_eq].
      unfold gets in Hget. simplify_eq.
      apply bind_inv in Hrun as [(st1 & u & Htick & Hrun) | [(e & Htick & Hr) | [Htick Hr]]].
      * assert (Htick' : (do d <- gets (λ st, dirty (meta st));
                          if d then try meta_Flush ;; ret tt else ret tt) st0
                         = (st1, Ok u)).
        { unfold bind at 1, gets at 1. exact Htick. }
        apply flush_tick in Htick' as (_ & Hb & Hclean & Hm & _).
        apply IH in Hrun as (-> & Hb' & Hmem & Hm' & Hclean').
        split; [| split; [| split; [| split]]].
        -- f_equal. apply bool_decide_ext. rewrite elem_of_cons.
           split; [auto | intros [Habs | Hin]; [discriminate Habs | exact Hin]].
        -- congruence.
        -- rewrite Hmem. destruct Hm as [-> | ->]; reflexivity.
        -- destruct Hm as [Hm | Hm]; destruct Hm' as [Hm' | Hm'];
             rewrite Hm', Hm; auto.
        -- intros Hd. rewrite (Hclean Hd) in *. auto.
      * exfalso.
        assert (Htick' : (do d <- gets (λ st, dirty (meta st));
                          if d then try meta_Flush ;; ret tt else ret tt) st0
                         = (st', Fail e)).
        { unfold bind at 1, gets at 1. exact Htick. }
        apply flush_tick in Htick' as (Habs & _). discriminate Habs.
      * exfalso.
        assert (Htick' : (do d <- gets (λ st, dirty (meta st));
                          if d then try meta_Flush ;; ret tt else ret tt) st0
                         = (st', Panic)).
        { unfold bind at 1, gets at 1. exact Htick. }
        apply flush_tick in Htick' as (Habs & _). discriminate Habs.
    + cbn [flushMetaAtIntervals] in Hrun. unfold ret in Hrun. simplify_eq.
      split; [| auto].
      f_equal; symmetry; apply bool_decide_eq_true, elem_of_cons; auto.
Qed.

(** The theorem on a dirty meta whose flush fails at both ticks, before
    the context ends. *)
Lemma flushMetaAtIntervals_safe_witness :
  snd (flushMetaAtIntervals [Tick; Tick; CtxDone] failing_flush) = Ok true
  ∧ beside_meta (fst (flushMetaAtIntervals [Tick; Tick; CtxDone] failing_flush))
    = beside_meta failing_flush
  ∧ mem (meta (fst (flushMetaAtIntervals [Tick; Tick; CtxDone] failing_flush)))
    = mem (meta failing_flush)
  ∧ (meta (fst (flushMetaAtIntervals [Tick; Tick; CtxDone] failing_flush))
     = meta failing_flush
     ∨ meta (fst (flushMetaAtIntervals [Tick; Tick; CtxDone] failing_flush))
       = flushed (meta failing_flush))
  ∧ (dirty (meta failing_flush) = false →
     fst (flushMetaAtIntervals [Tick; Tick; CtxDone] failing_flush) = failing_flush).
Proof.
  exact (flushMetaAtIntervals_safe [Tick; Tick; CtxDone] failing_flush
           (fst (flushMetaAtIntervals [Tick; Tick; CtxDone] failing_flush))
           (snd (flushMetaAtIntervals [Tick; Tick; CtxDone] failing_flush))
           (surjective_pairing _)).
Defined.

(** X11: a flush that fails is tried again at the next tick: on a dirty
    meta, when the environment fails the next [n] flushes, [n + 1] ticks
    leave the meta flushed, the record in memory now the durable one. *)
Theorem flushMetaAtIntervals_retries (fl : list Fault) (st : St) :
  dirty (meta st) = true →
  faults st = fl → Forall (λ f, f ≠ NoFault) fl →
  ∃ st', flushMetaAtIntervals (replicate (S (length fl)) Tick) st = (st', Ok false)
    ∧ meta st' = flushed (meta st) ∧ faults st' = [].
Proof.
  revert st. induction fl as [| f fl IH]; intros st Hd Hfl Hall.
  - open_state st. destruct m0 as [r0 d du]. simpl in *. subst.
    unfold meta_Flush, flushed. run. eexists. repeat split.
  - inversion Hall as [| ? ? Hf Hall']; subst.
    destruct f as [| k]; [congruence |].
    change (replicate (S (length (FaultAt k :: fl))) Tick)
      with (Tick :: replicate (S (length fl)) Tick).
    cbn [flushMetaAtIntervals].
    destruct (IH (set_faults fl st)) as (st' & Hrun & Hm & Hfaults);
      [exact Hd | reflexivity | exact Hall' |].
    exists st'. split; [| split; [| exact Hfaults]].
    + rewrite <- Hrun. clear Hrun IH.
      open_state st. destruct m0 as [r0 d du]. simpl in *. subst.
      unfold meta_Flush. unfold bind at 1 2 3 4, gets at 1, try at 1,
        pop_fault at 1, ret at 1, fail at 1. simpl. reflexivity.
    + rewrite Hm. reflexivity.
Qed.

(** The theorem on a flush that fails twice. *)
Lemma flushMetaAtIntervals_retries_witness :
  ∃ st', flushMetaAtIntervals [Tick; Tick; Tick] failing_flush = (st', Ok false)
    ∧ meta st' = flushed (meta failing_flush) ∧ faults st' = [].
Proof.
  apply (flushMetaAtIntervals_retries [FaultAt 0; FaultAt 0] failing_flush);
    [reflexivity | reflexivity |].
  repeat constructor; discriminate.
Defined.

(** ** The status *)

Section StatusOfRelay.
Context `{Env} `{Render} `{MasterStatus}.

(** X12: [Status] reads: the relay after it is the relay before it, but
    for the one answer of the environment the query may have consumed.  It
    returns no error (a failed query of the master is logged only) and
    panics only for want of a control connection; the sub-directory, the
    position and the GTID set it reports for the relay are those of the
    meta. *)
Theorem Status_reads (st st' : St) (r : result RelayStatus) :
  Status st = (st', r) →
  set_faults (faults st) st' = st
  ∧ match r with
    | Ok rs =>
      RelaySubDir rs = current_uuid (mem (meta st))
      ∧ RelayBinlog rs = Position_String (position (mem (meta st)))
      ∧ RelayBinlogGtid rs = from_option Set_String "" (gtid_set (mem (meta st)))
    | Fail _ => False
    | Panic => db st = None
    end.
Proof.
  open_state st.
  unfold Status, utils_GetMasterStatus, db_query, meta_Pos, meta_GTID.
  run.
  repeat first
    [ split_field
    | match goal with
      | |- context [status_on_error ?e] =>
        destruct (status_on_error e) as [? ?]; simpl in *
      end ];
    intros Heq; simplify_eq; simpl; repeat split; auto.
Qed.

(** X13: an error of the query of the master does not stop [Status]: it
    reports for the master the position and the GTID set the call returned
    beside the error, a nil set as the empty string.  In GTID mode the relay
    is then reported as caught up exactly when the two GTID strings are
    equal, so a relay whose meta has no GTID set is reported as caught up
    whenever the failed call returned no set; in position mode exactly when
    the returned position compares equal to the position of the relay. *)
Theorem Status_unreachable (st st' : St) (rs : RelayStatus) (err : error) :
  Status st = (st', Ok rs) →
  snd (utils_GetMasterStatus st) = Fail err →
  MasterBinlog rs = Position_String (status_on_error err).1
  ∧ MasterBinlogGtid rs = from_option Set_String "" (status_on_error err).2
  ∧ RelayCatchUpMaster rs
    = (if EnableGTID (cfg st)
       then bool_decide (MasterBinlogGtid rs = RelayBinlogGtid rs)
       else bool_decide (Compare (status_on_error err).1
                           (position (mem (meta st))) = 0%Z))
  ∧ (EnableGTID (cfg st) = true → (status_on_error err).2 = None →
     gtid_set (mem (meta st)) = None → RelayCatchUpMaster rs = true).
Proof.
  open_state st.
  unfold Status, utils_GetMasterStatus, db_query, meta_Pos, meta_GTID.
  run.
  repeat split_field; intros Heq Hfail; simplify_eq; simpl in *;
    try discriminate;
    destruct (status_on_error _) as [mp [mg |]]; simpl in *; simplify_eq; simpl;
    repeat split; auto; try discriminate;
    intros _ _ Hrelay; rewrite Hrelay; reflexivity.
Qed.

End StatusOfRelay.

(** The theorem on a relay in the middle of a file. *)
Lemma Status_reads_witness :
  set_faults (faults (streaming true false MySQLFlavor))
    (fst (@Status sample_env sample_render zero_on_error
            (streaming true false MySQLFlavor)))
  = streaming true false MySQLFlavor
  ∧ match snd (@Status sample_env sample_render zero_on_error
            (streaming true false MySQLFlavor)) with
    | Ok rs =>
      RelaySubDir rs = current_uuid (mem (meta (streaming true false MySQLFlavor)))
      ∧ RelayBinlog rs
        = @Position_String sample_render
            (position (mem (meta (streaming true false MySQLFlavor))))
      ∧ RelayBinlogGtid rs
        = from_option (@Set_String sample_render) ""
            (gtid_set (mem (meta (streaming true false MySQLFlavor))))
    | Fail _ => False
    | Panic => db (streaming true false MySQLFlavor) = None
    end.
Proof.
  exact (@Status_reads sample_env sample_render zero_on_error
           (streaming true false MySQLFlavor) _ _ (surjective_pairing _)).
Defined.

(** The theorem on a relay in GTID mode, with an empty GTID set, cut off
    from its master, when the failed call returns the zero position and no
    set: it is reported as caught up. *)
Lemma Status_unreachable_witness :
  ∃ rs, snd (@Status sample_env sample_render zero_on_error cut_off) = Ok rs
    ∧ MasterBinlog rs = "(, 0)" ∧ MasterBinlogGtid rs = ""
    ∧ RelayCatchUpMaster rs = true.
Proof.
  eexists. split; [reflexivity |].
  pose proof (@Status_unreachable sample_env sample_render zero_on_error cut_off
                _ _ (Root ErrDB) eq_refl eq_refl) as (Hpos & Hgtid & Hcatch & _).
  split; [exact Hpos | split; [exact Hgtid | exact Hcatch]].
Defined.

(** ** The events of the loop: written, then saved *)

Section Events.
Context `{Env}.

(** X14: an event other than a FormatDescriptionEvent, received while a
    file is open.  A fake rotate is skipped: no file and no meta changes.
    Any other event is first written whole at the offset of the open file,
    and only then is the meta saved, with the position and the GTID set the
    loop holds.  That position is, for a RotateEvent, first moved to the
    position the event names when it compares greater; then, without GTID
    mode, its offset is the [LogPos] of the event, whatever the event; in
    GTID mode only a query or an XID sets the offset to its [LogPos], a
    RotateEvent leaves the position where the comparison put it, and any
    other event leaves it as it was.  When the iteration fails, the meta is
    as it was, and at most a prefix of the event has been written. *)
Theorem event_written_then_saved (l : Locals) (e : BinlogEvent) (f : File)
    (st st' : St) (r : result Flow) :
  Event_ e ≠ FormatDescriptionEvent →
  fd st = Some f → f_closed f = false →
  iteration l (GotEvent e) st = (st', r) →
  match r with
  | Ok (Continue l') =>
    if fake_rotate e then fs st' = fs st ∧ meta st' = meta st ∧ fd st' = fd st
    else
      fs st' = written_through f (RawData e) st
      ∧ fd st' = Some (set_off f (f_off f + length (RawData e)))
      ∧ meta st' = saved_with (lastPos l') (lastGTID l') (meta st)
      ∧ (EnableGTID (cfg st) = false →
         lastPos l'
         = {| Name := Name match Event_ e with
                           | RotateEvent name p => lastPos (adopt name p l)
                           | _ => lastPos l
                           end;
              Pos := LogPos (Header e) |})
      ∧ (EnableGTID (cfg st) = true →
         lastPos l'
         = match Event_ e with
           | RotateEvent name p => lastPos (adopt name p l)
           | QueryEvent _ | XIDEvent _ =>
             {| Name := Name (lastPos l); Pos := LogPos (Header e) |}
           | _ => lastPos l
           end)
  | Ok ReturnNil => False
  | Fail _ =>
    meta st' = meta st
    ∧ ∃ k, fs st' = written_through f (take k (RawData e)) st
  | Panic => lastGTID l = None
  end.
Proof.
  intros Hev Hfd Hopen. open_state st. subst f0.
  destruct c0 as [gt af fl dir].
  unfold iteration, classify, write_and_save, fd_Write, meta_Save,
    inc_relayLogWriteError, observe, fake_rotate, written_through, saved_with,
    adopt, set_Pos, set_lastGTID, set_lastPos, set_tryReSync.
  destruct e as [raw hd ev]. destruct l as [s lp lg tr]. unfold content. simpl in *.
  destruct ev as [| name p | gs | gs |]; [congruence | | | |]; run;
    rewrite ?Hopen; simpl.
  all: destruct gt; simpl.
  all: repeat split_field; intros Heq; simplify_eq; simpl.
  all: cbn in *; simplify_eq.
  all: try (exfalso; congruence).
  all: try reflexivity.
  all: repeat split; auto; try congruence; try discriminate.
  all: try (eexists; reflexivity).
  all: try (exists (length raw); rewrite take_ge by lia; reflexivity).
Qed.

(** One event on a quiet environment. *)
Lemma iteration_quiet (l : Locals) (e : BinlogEvent) (f : File) (st : St) :
  Event_ e ≠ FormatDescriptionEvent →
  fd st = Some f → f_closed f = false → faults st = [] → lastGTID l ≠ None →
  ∃ st' l',
    iteration l (GotEvent e) st = (st', Ok (Continue l'))
    ∧ fs st' = (if fake_rotate e then fs st else written_through f (RawData e) st)
    ∧ fd st' = Some (set_off f (f_off f
                                + length (if fake_rotate e then [] else RawData e)))
    ∧ faults st' = [] ∧ lastGTID l' ≠ None
    ∧ cfg st' = cfg st
    ∧ current_uuid (mem (meta st')) = current_uuid (mem (meta st))
    ∧ (∀ name p, Event_ e = RotateEvent name p →
         Compare {| Name := name; Pos := uint32 p |} (lastPos l) = 1%Z →
         Name (lastPos l') = name ∧ lastGTID l' = lastGTID l).
Proof.
  intros Hev Hfd Hopen Hquiet Hgtid. open_state st. subst f0 flt0.
  destruct c0 as [gt af fl dir].
  unfold iteration, classify, write_and_save, fd_Write, meta_Save,
    inc_relayLogWriteError, observe, fake_rotate, written_through,
    set_Pos, set_lastGTID, set_lastPos, set_tryReSync.
  destruct e as [raw hd ev]. destruct l as [s lp lg tr]. unfold content.
  destruct f as [path off cl]. simpl in *. subst cl.
  destruct lg as [g |]; [| congruence].
  destruct ev as [| name p | gs | gs |]; [congruence | | | |]; run.
  all: destruct gt; simpl.
  all: repeat split_field.
  all: try (exfalso;
            match goal with
            | Hne : bool_decide (?x ≠ ?x) = true |- _ =>
              apply bool_decide_eq_true in Hne; congruence
            end).
  all: try (eexists _, _; split; [reflexivity |]; simpl;
            rewrite ?Nat.add_0_r; repeat split; try congruence;
            intros; simplify_eq;
            match goal with
            | Hcmp : bool_decide _ = false, Hone : _ = 1%Z |- _ =>
              apply bool_decide_eq_false in Hcmp; contradiction
            | _ => reflexivity
            end).
Qed.

(** X15: on a quiet environment, a run of events with no
    FormatDescriptionEvent among them, received while a file is open at its
    end, is relayed byte for byte: the loop goes through all of them and the
    file then holds what it held followed by the raw data of the events, in
    order, the fake rotates left out (a real RotateEvent is written to the
    file that is open); the file is open at its new end, and no other file
    has changed. *)
Theorem loop_appends (l : Locals) (es : list BinlogEvent) (f : File) (st : St) :
  Forall (λ e, Event_ e ≠ FormatDescriptionEvent) es →
  fd st = Some f → f_closed f = false →
  f_off f = length (content st (f_path f)) →
  faults st = [] → lastGTID l ≠ None →
  ∃ st' l',
    loop l (map GotEvent es) st = (st', Ok (Waiting l'))
    ∧ content st' (f_path f) = content st (f_path f) ++ relayed es
    ∧ fd st' = Some (set_off f (length (content st' (f_path f))))
    ∧ (∀ p, p ≠ f_path f → fs st' !! p = fs st !! p).
Proof.
  intros Hall. revert l f st.
  induction Hall as [| e es Hev Hall IH]; intros l f st Hfd Hopen Hoff Hquiet Hgtid.
  - exists st, l. cbn. rewrite app_nil_r. repeat split; auto.
    rewrite Hfd. destruct f; simpl in *. subst. reflexivity.
  - destruct (iteration_quiet l e f st Hev Hfd Hopen Hquiet Hgtid)
      as (st1 & l1 & Hit & Hfs1 & Hfd1 & Hquiet1 & Hgtid1 & _).
    assert (Hc1 : content st1 (f_path f)
                  = content st (f_path f) ++ (if fake_rotate e then [] else RawData e)).
    { unfold content at 1. rewrite Hfs1. destruct (fake_rotate e).
      - rewrite app_nil_r. reflexivity.
      - unfold written_through. rewrite lookup_insert_eq. simpl.
        rewrite Hoff. apply write_at_end. }
    assert (Hother : ∀ p, p ≠ f_path f → fs st1 !! p = fs st !! p).
    { intros p Hp. rewrite Hfs1. destruct (fake_rotate e); [reflexivity |].
      unfold written_through. rewrite lookup_insert_ne by congruence. reflexivity. }
    destruct (IH l1 (set_off f (f_off f + length (if fake_rotate e then []
                                                  else RawData e))) st1)
      as (st' & l' & Hloop & Hc & Hfd' & Hother'); auto.
    { simpl. rewrite Hc1, length_app, Hoff. reflexivity. }
    exists st', l'. split; [| split; [| split]].
    + cbn [map loop]. unfold bind at 1. rewrite Hit. exact Hloop.
    + simpl in Hc. rewrite Hc, Hc1. cbn [relayed]. rewrite app_assoc. reflexivity.
    + rewrite Hfd'. reflexivity.
    + intros p Hp. rewrite Hother' by exact Hp. apply Hother, Hp.
Qed.

(** X16: an event that is to be written while no file is open ([r.fd] is
    nil, no FormatDescriptionEvent having been received, or closed) ends the
    iteration with the error of the write, traced, and a counted write
    error: no file, no meta and no answer of the environment is touched. *)
Theorem event_without_file (l : Locals) (e : BinlogEvent) (st st' : St)
    (r : result Flow) :
  (∀ f, fd st = Some f → f_closed f = true) →
  Event_ e ≠ FormatDescriptionEvent → fake_rotate e = false →
  lastGTID l ≠ None →
  iteration l (GotEvent e) st = (st', r) →
  r = Fail (Trace (Root (match fd st with Some _ => ErrClosed | None => ErrInvalid end)))
  ∧ files st' = files st ∧ meta st' = meta st ∧ faults st' = faults st
  ∧ counters st' = count_write_error (counters st).
Proof.
  intros Hfd Hev Hfake Hgtid. open_state st.
  unfold iteration, classify, write_and_save, fd_Write, meta_Save,
    inc_relayLogWriteError, observe, fake_rotate, files, count_write_error,
    set_Pos, set_lastGTID, set_lastPos, set_tryReSync in *.
  destruct e as [raw hd ev]. destruct l as [s lp lg tr]. simpl in *.
  destruct lg as [g |]; [| congruence].
  destruct f0 as [f |]; [pose proof (Hfd f eq_refl) as Hcl |].
  all: destruct ev as [| name p | gs | gs |]; [congruence | | | |]; run.
  all: rewrite ?Hfake, ?Hcl; simpl.
  all: repeat split_field; intros Heq; simplify_eq; simpl; repeat split; auto.
Qed.

End Events.

(** The theorem on a real rotate to [mysql-bin.000002] received in GTID
    mode at the end of a file of 4 bytes: its 8 bytes are written to the
    open file, then the position [mysql-bin.000002:4] is saved. *)
Lemma event_written_then_saved_witness :
  fs (fst (@iteration sample_env sample_locals (GotEvent (rotate_to_2 1700000000 30))
             (streaming true false MySQLFlavor)))
  = written_through sample_file (RawData (rotate_to_2 1700000000 30))
      (streaming true false MySQLFlavor)
  ∧ fd (fst (@iteration sample_env sample_locals
               (GotEvent (rotate_to_2 1700000000 30))
               (streaming true false MySQLFlavor)))
    = Some (set_off sample_file (4 + 8))
  ∧ meta (fst (@iteration sample_env sample_locals
                 (GotEvent (rotate_to_2 1700000000 30))
                 (streaming true false MySQLFlavor)))
    = saved_with {| Name := "mysql-bin.000002"; Pos := 4 |} (Some [])
        (meta (streaming true false MySQLFlavor))
  ∧ (true = false →
     {| Name := "mysql-bin.000002"; Pos := 4 |}
     = {| Name := "mysql-bin.000002"; Pos := 30 |})
  ∧ (true = true →
     {| Name := "mysql-bin.000002"; Pos := 4 |}
     = lastPos (@adopt sample_env "mysql-bin.000002" 4 sample_locals)).
Proof.
  refine (@event_written_then_saved sample_env sample_locals
            (rotate_to_2 1700000000 30) sample_file
            (streaming true false MySQLFlavor)
            (fst (@iteration sample_env sample_locals
                    (GotEvent (rotate_to_2 1700000000 30))
                    (streaming true false MySQLFlavor)))
            (Ok (Continue (set_lastPos {| Name := "mysql-bin.000002"; Pos := 4 |}
                             (set_tryReSync true sample_locals))))
            _ eq_refl eq_refl _);
    [discriminate | vm_compute; reflexivity].
Defined.

(** The theorem on a real rotate, a fake one and an event: 8 and 21 bytes
    follow the 4 of the file. *)
Lemma loop_appends_witness :
  ∃ st' l',
    @loop sample_env sample_locals (map GotEvent sample_events)
      (streaming false false MySQLFlavor) = (st', Ok (Waiting l'))
    ∧ content st' sample_path
      = BinLogFileHeader ++ replicate 8 Byte.x04 ++ replicate 21 Byte.x05
    ∧ fd st' = Some (set_off sample_file (length (content st' sample_path)))
    ∧ (∀ p, p ≠ sample_path →
         fs st' !! p = fs (streaming false false MySQLFlavor) !! p).
Proof.
  destruct (@loop_appends sample_env sample_locals sample_events sample_file
              (streaming false false MySQLFlavor))
    as (st' & l' & Hloop & Hc & Hfd & Hother);
    [repeat constructor; discriminate | reflexivity | reflexivity | reflexivity
     | reflexivity | discriminate |].
  exists st', l'.
  split; [exact Hloop | split; [exact Hc | split; [exact Hfd | exact Hother]]].
Defined.

(** The theorem on an event received before any FormatDescriptionEvent. *)
Lemma event_without_file_witness :
  snd (@iteration sample_env sample_locals (GotEvent sample_event)
         (fresh false false MySQLFlavor))
  = Fail (Trace (Root ErrInvalid))
  ∧ files (fst (@iteration sample_env sample_locals (GotEvent sample_event)
                  (fresh false false MySQLFlavor)))
    = files (fresh false false MySQLFlavor)
  ∧ meta (fst (@iteration sample_env sample_locals (GotEvent sample_event)
                 (fresh false false MySQLFlavor)))
    = meta (fresh false false MySQLFlavor)
  ∧ faults (fst (@iteration sample_env sample_locals (GotEvent sample_event)
                   (fresh false false MySQLFlavor)))
    = faults (fresh false false MySQLFlavor)
  ∧ counters (fst (@iteration sample_env sample_locals (GotEvent sample_event)
                     (fresh false false MySQLFlavor)))
    = count_write_error (counters (fresh false false MySQLFlavor)).
Proof.
  exact (@event_without_file sample_env sample_locals sample_event
           (fresh false false MySQLFlavor) _ _
           ltac:(discriminate) ltac:(discriminate) eq_refl
           ltac:(discriminate) (surjective_pairing _)).
Defined.

(** ** The resync, end to end *)

Lemma retrySyncGTIDs_fixed (st st' : St) (old : GTIDSet) :
  Flavor (cfg st) = MySQLFlavor →
  gtid_set (mem (meta st)) = Some old →
  retrySyncGTIDs st = (st', Ok tt) →
  meta st' = resynced_meta (upstream st) old (meta st)
  ∧ cfg st' = cfg st ∧ upstream st' = upstream st.
Proof.
  open_state st. destruct c0 as [gt af fl dir]. simpl. intros -> Hold.
  unfold retrySyncGTIDs, getServerUUID, utils_GetMasterStatus,
    utils_GetServerUUID, utils_GetMariaDBGtidDomainID, utils_GetServerID,
    db_query, meta_AddDir, meta_GTID, resynced_meta.
  run. rewrite Hold. simpl.
  repeat split_field; intros Heq; simplify_eq; simpl; repeat split; reflexivity.
Qed.

(** The start of a stream under a meta with no file name yet. *)
Lemma getBinlogStreamer_unnamed (st st' : St) (g : GTIDSet) (s : BinlogStreamer) :
  Name (position (mem (meta st))) = "" →
  EnableGTID (cfg st) = true → gtid_set (mem (meta st)) = Some g →
  getBinlogStreamer st = (st', Ok s) →
  meta st' = meta st
  ∧ (s_from s = FromGTID g ∨ s_from s = FromPos (position (mem (meta st)))).
Proof.
  open_state st. destruct c0 as [gt af fl dir].
  destruct m0 as [[cu us [nm ps] gs] di du]. simpl. intros -> -> ->.
  unfold getBinlogStreamer, startSyncByGTID, startSyncByPos, syncer_start,
    os_Stat, meta_Save, meta_GTID, meta_Pos, meta_Dir.
  run.
  repeat split_field; intros Heq; simplify_eq; simpl; auto.
Qed.

(** X17: under the MySQL flavor and in GTID mode, a streamer that
    [reSyncBinlog] returns never starts at the old position: the meta is on
    the sub-directory of the master with the fixed GTID set, and the stream
    starts at that GTID set or, when the start by GTID set fails, at the
    empty position, where the master chooses; the syncer is a new one, on
    the connection the upstream gave. *)
Theorem reSyncBinlog_start (st st' : St) (old : GTIDSet) (s : BinlogStreamer) :
  Flavor (cfg st) = MySQLFlavor → EnableGTID (cfg st) = true →
  gtid_set (mem (meta st)) = Some old →
  reSyncBinlog st = (st', Ok s) →
  meta st' = resynced_meta (upstream st) old (meta st)
  ∧ (s_from s = FromGTID (Replace old (master_gtid (upstream st))
                            [server_uuid (upstream st)])
     ∨ s_from s = FromPos no_position)
  ∧ ∃ sy', syncer st' = Some sy' ∧ sy_closed sy' = false
      ∧ sy_conn sy' = connection_id (upstream st)
      ∧ lastSlaveConnectionID st' = sy_conn sy'.
Proof.
  intros Hfl Hgt Hold Hrun. unfold reSyncBinlog in Hrun.
  apply bind_inv in Hrun as [(st0 & u0 & Hobs & Hrun) | [(e & Hobs & _) | [Hobs _]]];
    [| unfold observe, modify in Hobs; simplify_eq
     | unfold observe, modify in Hobs; simplify_eq].
  assert (Hst0 : cfg st0 = cfg st ∧ meta st0 = meta st ∧ upstream st0 = upstream st).
  { unfold observe, modify in Hobs. simplify_eq. auto. }
  destruct Hst0 as (Hcfg0 & Hmeta0 & Hup0). clear Hobs.
  apply bind_inv in Hrun as [(st1 & u1 & Hfix & Hrun) | [(e & _ & Hr) | [_ Hr]]];
    [| discriminate Hr | discriminate Hr].
  apply onerr_inv in Hfix as (r0 & Hfix & Hok).
  destruct u1. pose proof (proj1 (Hok tt) eq_refl) as ->.
  apply retrySyncGTIDs_fixed with (old := old) in Hfix as (Hmeta1 & Hcfg1 & Hup1);
    [| congruence | congruence].
  apply reopenStreamer_inv in Hrun
    as [(st2 & Hkept & Hrun) | [(_ & sy & e0 & _ & Hr) | Hr]];
    [| discriminate Hr | discriminate Hr].
  assert (Hst2 : cfg st2 = cfg st1 ∧ meta st2 = meta st1 ∧ upstream st2 = upstream st1).
  { unfold kept_by_close in Hkept. simplify_eq. auto. }
  destruct Hst2 as (Hcfg2 & Hmeta2 & Hup2). clear Hkept.
  destruct (getBinlogStreamer_syncer (set_syncer (Some NewBinlogSyncer) st2) st'
              NewBinlogSyncer (Ok s) eq_refl Hrun)
    as (sy' & Hsy & Hcl & Hid & _ & Hconn).
  assert (Hmeta : meta (set_syncer (Some NewBinlogSyncer) st2)
                  = resynced_meta (upstream st) old (meta st)).
  { simpl. congruence. }
  apply getBinlogStreamer_unnamed
    with (g := Replace old (master_gtid (upstream st)) [server_uuid (upstream st)])
    in Hrun as (Hmeta' & Hfrom).
  - split; [congruence |].
    split.
    + destruct Hfrom as [Hfrom | Hfrom]; [left; exact Hfrom |].
      right. rewrite Hfrom, Hmeta. reflexivity.
    + exists sy'. repeat split; auto.
      rewrite (Hconn s eq_refl). simpl. congruence.
  - rewrite Hmeta. reflexivity.
  - simpl. congruence.
  - rewrite Hmeta. reflexivity.
Qed.

(** The theorem on a relay after [Init]: the stream starts at the GTID
    set of the master. *)
Lemma reSyncBinlog_start_witness :
  meta (fst (reSyncBinlog (fresh true true MySQLFlavor)))
  = resynced_meta sample_upstream [] (meta (fresh true true MySQLFlavor))
  ∧ (FromGTID (master_gtid sample_upstream)
     = FromGTID (Replace [] (master_gtid sample_upstream)
                   [server_uuid sample_upstream])
     ∨ FromGTID (master_gtid sample_upstream) = FromPos no_position)
  ∧ ∃ sy', syncer (fst (reSyncBinlog (fresh true true MySQLFlavor))) = Some sy'
      ∧ sy_closed sy' = false
      ∧ sy_conn sy' = 7%Z
      ∧ lastSlaveConnectionID (fst (reSyncBinlog (fresh true true MySQLFlavor)))
        = sy_conn sy'.
Proof.
  refine (reSyncBinlog_start (fresh true true MySQLFlavor)
            (fst (reSyncBinlog (fresh true true MySQLFlavor))) []
            {| s_from := FromGTID (master_gtid sample_upstream) |}
            eq_refl eq_refl eq_refl _).
  vm_compute. reflexivity.
Defined.

(** ** A new relay log file *)

(** The steps of a computation that succeed. *)
Lemma bind_ok {A B} (m : M A) (k : A → M B) (st st1 : St) (a : A) :
  m st = (st1, Ok a) → bind m k st = k a st1.
Proof. unfold bind. intros ->. reflexivity. Qed.

Lemma onerr_ok {A} (h : error → error) (m : M A) (st st1 : St) (a : A) :
  m st = (st1, Ok a) → onerr h m st = (st1, Ok a).
Proof. unfold onerr. intros ->. reflexivity. Qed.

Lemma os_OpenFile_new (path : string) (st : St) :
  faults st = [] → fs st !! path = None →
  os_OpenFile path st
  = (set_fs (<[path := []]> (fs st)) st,
     Ok {| f_path := path; f_off := 0; f_closed := false |}).
Proof.
  intros Hq Hnone. open_state st. subst. unfold os_OpenFile. run.
  rewrite Hnone. reflexivity.
Qed.

Lemma writeBinlogHeaderIfNotExists_new (st : St) (f : File) :
  fd st = Some f → f_closed f = false → f_off f = 0 → faults st = [] →
  fs st !! f_path f = Some [] →
  writeBinlogHeaderIfNotExists st
  = (set_fd (Some (set_off f 4)) (set_fs (<[f_path f := BinLogFileHeader]> (fs st)) st),
     Ok tt).
Proof.
  intros Hfd Hopen Hoff Hq Hc. open_state st. destruct f as [p off cl].
  simpl in *. subst.
  unfold writeBinlogHeaderIfNotExists, fd_Read, fd_Seek, fd_Write, content,
    binlogHeaderSize.
  run. rewrite Hc. simpl. rewrite Hc. simpl. reflexivity.
Qed.

Lemma fd_Seek_end (st : St) (f : File) :
  fd st = Some f → f_closed f = false → faults st = [] →
  fd_Seek SeekEnd st
  = (set_fd (Some (set_off f (length (content st (f_path f))))) st,
     Ok (length (content st (f_path f)))).
Proof.
  intros Hfd Hopen Hq. open_state st. subst. unfold fd_Seek. run.
  rewrite Hopen. reflexivity.
Qed.

(** The write and the save on a quiet environment. *)
Lemma write_and_save_quiet (l : Locals) (e : BinlogEvent) (f : File) (st : St) :
  fd st = Some f → f_closed f = false → faults st = [] →
  ∃ l',
    write_and_save l e st
    = (set_meta (saved_with (lastPos l') (lastGTID l') (meta st))
         (set_fd (Some (set_off f (f_off f + length (RawData e))))
            (set_fs (written_through f (RawData e) st) st)),
       Ok (Continue l'))
    ∧ Name (lastPos l') = Name (lastPos l).
Proof.
  intros Hfd Hopen Hq. open_state st. subst.
  unfold write_and_save, fd_Write, meta_Save, inc_relayLogWriteError,
    saved_with, written_through, set_Pos, set_lastPos.
  run. rewrite Hopen. simpl.
  rewrite bool_decide_eq_false_2 by (intros Hn; apply Hn; reflexivity).
  simpl. eexists. split; [reflexivity |].
  destruct (EnableGTID c0); reflexivity.
Qed.

Section NewFile.
Context `{Env}.

Lemma checkFormatDescriptionEventExists_end (name : string) (st : St) (f : File) :
  fd st = Some f → f_closed f = false → faults st = [] →
  drop (f_off f) (content st (f_path f)) = [] →
  parse_event [] = (true, None) →
  checkFormatDescriptionEventExists name st = (st, Ok false).
Proof.
  intros Hfd Hopen Hq Hdrop Hparse. open_state st. subst.
  unfold checkFormatDescriptionEventExists, ParseSingleEvent. run.
  rewrite Hopen. simpl. rewrite Hdrop, Hparse. reflexivity.
Qed.

(** [handleFormatDescriptionEvent] on a file that is not there, with no
    failing call: the file is created with the magic and left open after
    it, and the answer is that it holds no FormatDescriptionEvent. *)
Lemma handleFormatDescriptionEvent_new (name : string) (st : St) :
  name ≠ "" → faults st = [] →
  fs st !! binlog_path st name = None →
  parse_event [] = (true, None) →
  handleFormatDescriptionEvent name st
  = (opened (binlog_path st name) 4
       (set_fs (<[binlog_path st name := BinLogFileHeader]> (fs st)) st),
     Ok false).
Proof.
  intros Hname Hq Hnone Hparse.
  unfold handleFormatDescriptionEvent. rewrite drop_previous_file.
  rewrite (bool_decide_eq_false_2 _ (nonempty_length name Hname)).
  unfold meta_Dir. unfold bind at 1, gets at 1. cbv zeta.
  replace (path_Join (path_Join (RelayDir (cfg (set_fd None st)))
                        (current_uuid (mem (meta (set_fd None st))))) name)
    with (binlog_path st name) by (destruct st; reflexivity).
  set (path := binlog_path st name) in *.
  set (f0 := {| f_path := path; f_off := 0; f_closed := false |}).
  set (note := λ e : error, Annotate e ("file full path " +:+ path)).
  rewrite (bind_ok _ _ _ (set_fs (<[path := []]> (fs st)) (set_fd None st)) f0).
  2:{ apply onerr_ok.
      rewrite (os_OpenFile_new path (set_fd None st));
        [destruct st; reflexivity | destruct st; exact Hq | destruct st; exact Hnone]. }
  unfold bind at 1, modify at 1.
  set (st1 := set_fd (Some f0) (set_fs (<[path := []]> (fs st)) (set_fd None st))).
  assert (Hfs1 : fs st1 = <[path := []]> (fs st)) by (destruct st; reflexivity).
  assert (Hq1 : faults st1 = []) by (destruct st; exact Hq).
  set (st2 := set_fd (Some (set_off f0 4))
                (set_fs (<[path := BinLogFileHeader]> (fs st1)) st1)).
  rewrite (bind_ok _ _ _ st2 tt).
  2:{ apply onerr_ok.
      apply (writeBinlogHeaderIfNotExists_new st1 f0);
        [reflexivity | reflexivity | reflexivity | exact Hq1 |].
      rewrite Hfs1. apply lookup_insert_eq. }
  assert (Hfs2 : fs st2 = <[path := BinLogFileHeader]> (fs st)).
  { unfold st2. cbn [fs set_fd set_fs]. rewrite Hfs1. apply insert_insert_eq. }
  assert (Hq2 : faults st2 = []) by exact Hq1.
  assert (Hc2 : content st2 path = BinLogFileHeader).
  { unfold content. rewrite Hfs2, lookup_insert_eq. reflexivity. }
  rewrite (bind_ok _ _ _ st2 false).
  2:{ apply onerr_ok. rewrite (bind_ok _ _ st2 st2 (inl false)); [reflexivity |].
      unfold try.
      rewrite (checkFormatDescriptionEventExists_end name st2 (set_off f0 4));
        [reflexivity | reflexivity | reflexivity | exact Hq2 | | exact Hparse].
      cbn [f_off f_path set_off f0]. rewrite Hc2. reflexivity. }
  rewrite (bind_ok _ _ _ (set_fd (Some (set_off (set_off f0 4) 4)) st2) 4).
  2:{ apply onerr_ok.
      rewrite (fd_Seek_end st2 (set_off f0 4)); [| reflexivity | reflexivity | exact Hq2].
      cbn [f_path set_off f0]. rewrite Hc2. reflexivity. }
  unfold ret, opened. f_equal.
  unfold st2, st1, f0. clear.
  destruct st as [c0 d0 sy0 m0 id0 fd0 cl0 fs0 flt0 up0 cnt0 tr0].
  cbn [set_fd set_fs fs set_off f_path f_closed]. rewrite insert_insert_eq.
  reflexivity.
Qed.

(** A FormatDescriptionEvent goes through [handleFormatDescriptionEvent],
    then to the write unless the file holds one already. *)
Lemma iteration_format_description (l : Locals) (e : BinlogEvent) (st st2 : St)
    (b : bool) :
  Event_ e = FormatDescriptionEvent →
  handleFormatDescriptionEvent (Name (lastPos l)) (received st) = (st2, Ok b) →
  iteration l (GotEvent e) st
  = if b then (st2, Ok (Continue (set_tryReSync true l)))
    else write_and_save (set_tryReSync true l) e st2.
Proof.
  intros Hev Hh. unfold iteration, classify. rewrite Hev.
  unfold bind at 1. unfold observe at 1, modify. cbv beta iota zeta.
  fold (received st). unfold bind, onerr. cbn [set_tryReSync lastPos Name].
  rewrite Hh. destruct b; reflexivity.
Qed.

(** X18: a FormatDescriptionEvent for a file that is not in the
    sub-directory, on a quiet environment: the new file is created as the
    magic followed by the raw bytes of the event and is left open at its
    end, no other file changes, and the meta is saved at the position the
    loop holds, still in that file. *)
Theorem new_file (l : Locals) (e : BinlogEvent) (st : St) :
  Event_ e = FormatDescriptionEvent →
  Name (lastPos l) ≠ "" → faults st = [] →
  fs st !! binlog_path st (Name (lastPos l)) = None →
  parse_event [] = (true, None) →
  ∃ st' l',
    iteration l (GotEvent e) st = (st', Ok (Continue l'))
    ∧ fs st' = <[binlog_path st (Name (lastPos l)) := BinLogFileHeader ++ RawData e]>
                 (fs st)
    ∧ fd st' = Some {| f_path := binlog_path st (Name (lastPos l));
                       f_off := 4 + length (RawData e); f_closed := false |}
    ∧ meta st' = saved_with (lastPos l') (lastGTID l') (meta st)
    ∧ Name (lastPos l') = Name (lastPos l).
Proof.
  intros Hev Hname Hq Hnone Hparse.
  set (path := binlog_path st (Name (lastPos l))) in *.
  assert (Hpath : binlog_path (received st) (Name (lastPos l)) = path)
    by (destruct st; reflexivity).
  pose proof (handleFormatDescriptionEvent_new (Name (lastPos l)) (received st)
                Hname) as Hnew.
  rewrite Hpath in Hnew.
  specialize (Hnew ltac:(destruct st; exact Hq) ltac:(destruct st; exact Hnone) Hparse).
  rewrite (iteration_format_description l e st _ false Hev Hnew).
  destruct (write_and_save_quiet (set_tryReSync true l) e
              {| f_path := path; f_off := 4; f_closed := false |}
              (opened path 4 (set_fs (<[path := BinLogFileHeader]> (fs (received st)))
                                (received st))))
    as (l' & Hrun & Hl'); [reflexivity | reflexivity | destruct st; exact Hq |].
  rewrite Hrun. eexists _, l'. split; [reflexivity |].
  split; [| split; [| split]].
  - unfold written_through, content. cbn [fs set_meta set_fd set_fs opened f_path f_off].
    rewrite lookup_insert_eq, insert_insert_eq. cbn [default].
    rewrite (write_at_end BinLogFileHeader). destruct st; reflexivity.
  - reflexivity.
  - destruct st; reflexivity.
  - exact Hl'.
Qed.

End NewFile.

(** The theorem on the first FormatDescriptionEvent of
    [mysql-bin.000001]: the file is the magic and the 20 bytes of the
    event. *)
Lemma new_file_witness :
  ∃ st' l',
    @iteration sample_env sample_locals (GotEvent format_description) lost_file
    = (st', Ok (Continue l'))
    ∧ fs st' = <[sample_path := BinLogFileHeader ++ replicate 20 Byte.x01]> ∅
    ∧ fd st' = Some {| f_path := sample_path; f_off := 24; f_closed := false |}
    ∧ meta st' = saved_with (lastPos l') (lastGTID l') (meta lost_file)
    ∧ Name (lastPos l') = "mysql-bin.000001".
Proof.
  destruct (@new_file sample_env sample_locals format_description lost_file)
    as (st' & l' & Hrun & Hfs & Hfd & Hmeta & Hname);
    [reflexivity | discriminate | reflexivity | reflexivity | reflexivity |].
  exists st', l'.
  split; [exact Hrun | split; [exact Hfs | split; [exact Hfd | split;
    [exact Hmeta | exact Hname]]]].
Defined.

(** ** The one clean exit *)

Lemma write_and_save_continues (l : Locals) (e : BinlogEvent) (st st' : St)
    (f : Flow) :
  write_and_save l e st = (st', Ok f) → ∃ l', f = Continue l'.
Proof.
  open_state st.
  unfold write_and_save, fd_Write, meta_Save, inc_relayLogWriteError.
  run. repeat split_field; intros Heq; simplify_eq; eauto.
Qed.

Section CleanExit.
Context `{Env}.

(** An iteration returns nil on a cancelled [GetEvent] only. *)
Lemma iteration_returns (l : Locals) (g : GetEventResult) (st st' : St) :
  iteration l g st = (st', Ok ReturnNil) →
  ∃ err, g = GetEventErr err ∧ CauseOf err = Canceled.
Proof.
  intros Hrun. destruct g as [e | err].
  - exfalso. unfold iteration in Hrun.
    apply bind_inv in Hrun as [(st0 & u & _ & Hrun) | [(e0 & _ & Hr) | [_ Hr]]];
      [| discriminate Hr | discriminate Hr].
    cbv zeta in Hrun.
    apply bind_inv in Hrun as [(st1 & r & _ & Hrun) | [(e0 & _ & Hr) | [_ Hr]]];
      [| discriminate Hr | discriminate Hr].
    destruct r as [l' | l'].
    + unfold ret in Hrun. simplify_eq.
    + apply write_and_save_continues in Hrun as (l2 & Hl2). discriminate Hl2.
  - exists err. split; [reflexivity |]. unfold iteration in Hrun.
    apply bind_inv in Hrun as [(st0 & u & _ & Hrun) | [(e0 & _ & Hr) | [_ Hr]]];
      [| discriminate Hr | discriminate Hr].
    destruct (CauseOf err); try reflexivity; exfalso;
      try (unfold ret, fail in Hrun; simplify_eq; fail);
      try (apply bind_inv in Hrun
             as [(st1 & c & _ & Hrun) | [(e0 & _ & Hr) | [_ Hr]]];
           [| discriminate Hr | discriminate Hr];
           unfold fail in Hrun; simplify_eq; fail);
      apply bind_inv in Hrun as [(st1 & c & _ & Hrun) | [(e0 & _ & Hr) | [_ Hr]]];
      try discriminate Hr;
      (destruct (IsErrBinlogPurged err && (tryReSync l && EnableGTID c && AutoFixGTID c));
       [ apply bind_inv in Hrun
           as [(st2 & s & _ & Hrun) | [(e0 & _ & Hr) | [_ Hr]]];
         [unfold ret in Hrun; simplify_eq | discriminate Hr | discriminate Hr]
       | apply bind_inv in Hrun
           as [(st2 & s & _ & Hrun) | [(e0 & _ & Hr) | [_ Hr]]];
         [unfold fail in Hrun; simplify_eq | discriminate Hr | discriminate Hr] ]).
Qed.

Lemma loop_returns (script : list GetEventResult) :
  ∀ (l : Locals) (st st' : St),
    loop l script st = (st', Ok Returned) →
    ∃ pre err post, script = pre ++ GetEventErr err :: post
                    ∧ CauseOf err = Canceled.
Proof.
  induction script as [| g rest IH]; intros l st st' Hloop.
  - cbn [loop] in Hloop. unfold ret in Hloop. simplify_eq.
  - cbn [loop] in Hloop.
    apply bind_inv in Hloop as [(st1 & f & Hit & Hloop) | [(e & _ & Hr) | [_ Hr]]];
      [| discriminate Hr | discriminate Hr].
    destruct f as [l1 |].
    + destruct (IH l1 st1 st' Hloop) as (pre & err & post & -> & Hc).
      exists (g :: pre), err, post. auto.
    + destruct (iteration_returns l g st st1 Hit) as (err & -> & Hc).
      exists [], err, rest. auto.
Qed.

(** X19: [process] returns nil on cancellation only: when it does, one of
    the calls of [GetEvent] returned an error whose cause is
    [context.Canceled]; and the file it held is then closed. *)
Theorem process_nil_on_cancel (script : list GetEventResult) (st st' : St) :
  process script st = (st', Ok Returned) →
  (∃ pre err post, script = pre ++ GetEventErr err :: post
                   ∧ CauseOf err = Canceled)
  ∧ (∀ f, fd st' = Some f → f_closed f = true).
Proof.
  unfold process. intros Hp.
  repeat (apply bind_inv in Hp as [(? & ? & _ & Hp) | [(? & _ & Hr) | [_ Hr]]];
          [| discriminate Hr | discriminate Hr]).
  repeat case_match.
  repeat (apply bind_inv in Hp as [(? & ? & _ & Hp) | [(? & _ & Hr) | [_ Hr]]];
          [| discriminate Hr | discriminate Hr]).
  repeat case_match.
  unfold on_return in Hp.
  destruct (loop _ script _) as [st1 r1] eqn:Hloop.
  destruct r1 as [[l1 |] | e |].
  - simplify_eq.
  - split.
    + eapply loop_returns. exact Hloop.
    + intros f Hf. apply (closed_on_return st1).
      destruct (bind _ _ st1) as [st2 [[] | |]]; simplify_eq; exact Hf.
  - destruct (bind _ _ st1) as [st2 [[] | |]]; simplify_eq.
  - destruct (bind _ _ st1) as [st2 [[] | |]]; simplify_eq.
Qed.

End CleanExit.

(** The theorem on a run that is cancelled after a first event. *)
Lemma process_nil_on_cancel_witness :
  (∃ pre err post,
     [GotEvent sample_event; GetEventErr (Trace (Root Canceled))]
     = pre ++ GetEventErr err :: post ∧ CauseOf err = Canceled)
  ∧ (∀ f, fd (fst (@process sample_env
                     [GotEvent sample_event; GetEventErr (Trace (Root Canceled))]
                     (streaming false false MySQLFlavor))) = Some f →
          f_closed f = true).
Proof.
  refine (@process_nil_on_cancel sample_env
            [GotEvent sample_event; GetEventErr (Trace (Root Canceled))]
            (streaming false false MySQLFlavor) _ _).
  vm_compute. reflexivity.
Defined.

(** ** From one file to the next *)

Section Rotation.
Context `{Env}.

(** X20: a RotateEvent to a newer file followed by the
    FormatDescriptionEvent of that file, on a quiet environment, while a
    file is open at its end.  A real RotateEvent is appended to the file
    that is open, a fake one is not written; the new file is then created
    in the same sub-directory as the magic followed by the raw bytes of the
    FormatDescriptionEvent, and it is the file left open, at its end; the
    loop and the meta are both on the new file name. *)
Theorem file_switch (l : Locals) (rot fde : BinlogEvent) (name : string) (p : Z)
    (f : File) (c : bytes) (st : St) :
  Event_ rot = RotateEvent name p →
  Compare {| Name := name; Pos := uint32 p |} (lastPos l) = 1%Z →
  name ≠ "" →
  Event_ fde = FormatDescriptionEvent →
  fd st = Some f → f_closed f = false →
  fs st !! f_path f = Some c → f_off f = length c →
  faults st = [] → lastGTID l ≠ None →
  fs st !! binlog_path st name = None →
  parse_event [] = (true, None) →
  ∃ st' l',
    loop l [GotEvent rot; GotEvent fde] st = (st', Ok (Waiting l'))
    ∧ fs st' = <[binlog_path st name := BinLogFileHeader ++ RawData fde]>
                 (if fake_rotate rot then fs st
                  else <[f_path f := c ++ RawData rot]> (fs st))
    ∧ fd st' = Some {| f_path := binlog_path st name;
                       f_off := 4 + length (RawData fde); f_closed := false |}
    ∧ Name (lastPos l') = name
    ∧ Name (position (mem (meta st'))) = name
    ∧ faults st' = [] ∧ lastGTID l' ≠ None.
Proof.
  intros Hrot Hcmp Hname Hfde Hfd Hopen Hc Hoff Hq Hgtid Hnone Hparse.
  assert (Hne : f_path f ≠ binlog_path st name) by congruence.
  destruct (iteration_quiet l rot f st) as
    (st1 & l1 & Hit1 & Hfs1 & _ & Hq1 & Hgtid1 & Hcfg1 & Huuid1 & Hadopt);
    [rewrite Hrot; discriminate | exact Hfd | exact Hopen | exact Hq | exact Hgtid |].
  destruct (Hadopt name p Hrot Hcmp) as [Hname1 _].
  set (path := binlog_path st name) in *.
  assert (Hpath1 : binlog_path (received st1) (Name (lastPos l1)) = path).
  { rewrite Hname1. unfold path, binlog_path.
    replace (cfg (received st1)) with (cfg st) by (destruct st1; symmetry; exact Hcfg1).
    replace (current_uuid (mem (meta (received st1))))
      with (current_uuid (mem (meta st))) by (destruct st1; symmetry; exact Huuid1).
    reflexivity. }
  assert (Hfs1' : fs st1 = if fake_rotate rot then fs st
                           else <[f_path f := c ++ RawData rot]> (fs st)).
  { rewrite Hfs1. destruct (fake_rotate rot); [reflexivity |].
    unfold written_through, content. rewrite Hc. cbn [default].
    rewrite Hoff, write_at_end. reflexivity. }
  assert (Hnone1 : fs st1 !! path = None).
  { rewrite Hfs1'. destruct (fake_rotate rot); [exact Hnone |].
    rewrite lookup_insert_ne by exact Hne. exact Hnone. }
  pose proof (handleFormatDescriptionEvent_new (Name (lastPos l1)) (received st1))
    as Hnew.
  rewrite Hpath1 in Hnew.
  specialize (Hnew ltac:(rewrite Hname1; exact Hname)
                   ltac:(destruct st1; exact Hq1)
                   ltac:(destruct st1; exact Hnone1) Hparse).
  pose proof (iteration_format_description l1 fde st1 _ false Hfde Hnew) as Hit2.
  cbv iota in Hit2.
  destruct (write_and_save_quiet (set_tryReSync true l1) fde
              {| f_path := path; f_off := 4; f_closed := false |}
              (opened path 4 (set_fs (<[path := BinLogFileHeader]> (fs (received st1)))
                                (received st1))))
    as (l2 & Hrun & Hl2); [reflexivity | reflexivity | destruct st1; exact Hq1 |].
  rewrite Hrun in Hit2.
  eexists _, l2. split.
  { cbn [loop]. rewrite (bind_ok _ _ _ _ _ Hit1). rewrite (bind_ok _ _ _ _ _ Hit2).
    reflexivity. }
  assert (Hl2gtid : lastGTID l2 ≠ None).
  { clear -Hrun Hgtid1. revert Hrun.
    unfold write_and_save, fd_Write, meta_Save, inc_relayLogWriteError, opened,
      set_Pos, set_lastPos, set_tryReSync.
    destruct st1 as [c0 d0 sy0 m0 id0 fd0 cl0 fs0 flt0 up0 cnt0 tr0].
    destruct l1 as [s1 lp1 lg1 tr1]. simpl in Hgtid1.
    run. repeat split_field; intros Heq; simplify_eq; exact Hgtid1. }
  split; [| split; [| split; [| split; [| split]]]].
  - unfold written_through, content.
    cbn [fs set_meta set_fd set_fs opened f_path f_off].
    rewrite lookup_insert_eq, insert_insert_eq. cbn [default].
    rewrite (write_at_end BinLogFileHeader). rewrite <- Hfs1'.
    destruct st1; reflexivity.
  - reflexivity.
  - rewrite Hl2. cbn [set_tryReSync lastPos]. exact Hname1.
  - cbn [meta set_meta saved_with mem position]. rewrite Hl2.
    cbn [set_tryReSync lastPos]. exact Hname1.
  - destruct st1; exact Hq1.
  - exact Hl2gtid.
Qed.

End Rotation.

(** The theorem on a real rotate to [mysql-bin.000002] and the
    FormatDescriptionEvent that follows it. *)
Lemma file_switch_witness :
  ∃ st' l',
    @loop sample_env sample_locals
      [GotEvent (rotate_to_2 1700000000 30); GotEvent format_description]
      (streaming false false MySQLFlavor) = (st', Ok (Waiting l'))
    ∧ fs st' = <[sample_dir +:+ "/mysql-bin.000002"
                 := BinLogFileHeader ++ replicate 20 Byte.x01]>
                 (<[sample_path := BinLogFileHeader ++ replicate 8 Byte.x04]>
                    (fs (streaming false false MySQLFlavor)))
    ∧ fd st' = Some {| f_path := sample_dir +:+ "/mysql-bin.000002";
                       f_off := 24; f_closed := false |}
    ∧ Name (lastPos l') = "mysql-bin.000002"
    ∧ Name (position (mem (meta st'))) = "mysql-bin.000002"
    ∧ faults st' = [] ∧ lastGTID l' ≠ None.
Proof.
  destruct (@file_switch sample_env sample_locals (rotate_to_2 1700000000 30)
              format_description "mysql-bin.000002" 4 sample_file BinLogFileHeader
              (streaming false false MySQLFlavor))
    as (st' & l' & Hloop & Hfs & Hfd & Hname & Hpos & Hq & Hg);
    [reflexivity | reflexivity | discriminate | reflexivity | reflexivity
     | reflexivity | reflexivity | reflexivity | reflexivity | discriminate
     | reflexivity | reflexivity |].
  exists st', l'.
  split; [exact Hloop | split; [exact Hfs | split; [exact Hfd | split;
    [exact Hname | split; [exact Hpos | split; [exact Hq | exact Hg]]]]]].
Defined.

(** ** What a run leaves alone *)

Section Kept.
Context `{Env}.

Lemma iteration_kept (l : Locals) (g : GetEventResult) :
  preserves (same kept_by_process) (iteration l g).
Proof.
  unfold iteration, classify, write_and_save, handleFormatDescriptionEvent,
    writeBinlogHeaderIfNotExists, checkFormatDescriptionEventExists,
    ParseSingleEvent, os_OpenFile, fd_Read, fd_Seek, fd_Write, fd_Close,
    reSyncBinlog, observe, retrySyncGTIDs, reopenStreamer, closeBinlogSyncer,
    utils_KillConn, getServerUUID, utils_GetMasterStatus, utils_GetServerUUID,
    utils_GetMariaDBGtidDomainID, utils_GetServerID, db_query, meta_AddDir,
    getBinlogStreamer, startSyncByGTID, startSyncByPos, syncer_start,
    os_Stat, meta_Save, meta_Pos, meta_Dir, meta_GTID,
    inc_binlogReadError, inc_relayLogDataCorruption, inc_relayLogWriteError.
  frame.
Qed.

Lemma loop_kept (script : list GetEventResult) :
  ∀ l, preserves (same kept_by_process) (loop l script).
Proof.
  induction script as [| g rest IH]; intros l; cbn [loop].
  - frame.
  - pose proof (iteration_kept l g). frame.
Qed.

(** X21: a run of [process], however it ends, leaves the configuration,
    the control connection, the closed flag and the upstream as they were:
    the loop queries the control connection and never closes or replaces it,
    and it never marks the relay closed. *)
Theorem process_kept (script : list GetEventResult) (st : St) :
  kept_by_process (fst (process script st)) = kept_by_process st.
Proof.
  revert st. change (preserves (same kept_by_process) (process script)).
  unfold process, reSetupMeta, getServerUUID, utils_GetServerUUID,
    utils_GetMariaDBGtidDomainID, utils_GetServerID, db_query, meta_AddDir,
    meta_Load, getBinlogStreamer, startSyncByGTID, startSyncByPos, syncer_start,
    os_Stat, meta_Save, meta_UUID, meta_Pos, meta_Dir, meta_GTID, fd_Close.
  pose proof loop_kept. frame.
Qed.

End Kept.
